(** * naim_update_app: the update orchestrator and its three adapters

    A shallow embedding of the main-process classes of the updater
    (NPConfig.ts, ARMMfg.ts, UpdateRepository.ts, Product.ts, IPC.ts and
    UpdaterStateMachine.ts) and the properties of the design document that
    are checked against them; then of the package index parser
    (UpdatePackage.ts) and of the message handlers of the renderer pages,
    with further properties of the sources.

    Conventions of the embedding.
    - A JavaScript string is a [string]: a sequence of code units, here the
      units below 256.
    - A method is a computation in the monad [M W]: it threads the world
      [W] (the fields of the objects involved and a trace of the calls made
      to the outside) and either returns normally or throws.  Mutations made
      before a throw stay, as in JavaScript.
    - A callback is an identifier; the class that calls it back does so
      through a function given by its client, at the very point where the
      source calls it, so that a callback that re-enters the class sees the
      fields as they are at that point.
    - Calls to [Logging.log] and [console.error] are left out, except the
      lines [injectEvent] and [onRepositoryDownload] write, which are kept
      as the record of an injection and of a download reported.
    - The platform can refuse a call by throwing: [fs.writeFileSync] when
      the file cannot be written, [spawn] for an argument with a NUL
      character, [new SerialPort] for an empty path.  The first is part of
      the answer to a download ([GetDataUnwritten]).  The other two, and a
      client whose callbacks throw, are in [GatewayFaults] and
      [SessionFaults]; the recording clients [Gateway] and [Session], and
      the orchestrator built on them, describe the runs in which the
      platform takes the arguments it is given. *)

From Stdlib Require Import ZArith List String Ascii Bool Arith Lia Permutation.
Import ListNotations.

Set Implicit Arguments.

(* ====================================================================== *)
(** ** JavaScript primitives used by the sources *)
(* ====================================================================== *)

Module Js.

(** White space and line terminators, as [String.prototype.trim] and the
    regular expression class [\s] see them (code units below 256). *)
Definition is_white (c : ascii) : bool :=
  let n := nat_of_ascii c in
  (n =? 9) || (n =? 10) || (n =? 11) || (n =? 12) || (n =? 13)
  || (n =? 32) || (n =? 160).

Fixpoint rev_string (acc s : string) : string :=
  match s with
  | EmptyString => acc
  | String c s' => rev_string (String c acc) s'
  end.

Fixpoint trimStart (s : string) : string :=
  match s with
  | EmptyString => EmptyString
  | String c s' => if is_white c then trimStart s' else s
  end.

Definition trimEnd (s : string) : string :=
  rev_string EmptyString (trimStart (rev_string EmptyString s)).

(** [s.trim()] *)
Definition trim (s : string) : string := trimEnd (trimStart s).

(** [s.split(sep)] for a separator of one character: never empty, the
    empty string gives one empty fragment. *)
Fixpoint split (sep : ascii) (s : string) : list string :=
  match s with
  | EmptyString => [EmptyString]
  | String c s' =>
      if Ascii.eqb c sep then EmptyString :: split sep s'
      else match split sep s' with
           | h :: t => String c h :: t
           | [] => [String c EmptyString]
           end
  end.

Definition newline : ascii := ascii_of_nat 10.
Definition colon : ascii := ascii_of_nat 58.
Definition slash : ascii := ascii_of_nat 47.

(** [s.split(/\s+/)]: the fragments between maximal runs of white space.
    [inRun] tells that the character before was white space too. *)
Fixpoint split_ws_from (inRun : bool) (s : string) : list string :=
  match s with
  | EmptyString => [EmptyString]
  | String c s' =>
      if is_white c then
        if inRun then split_ws_from true s'
        else EmptyString :: split_ws_from true s'
      else match split_ws_from false s' with
           | h :: t => String c h :: t
           | [] => [String c EmptyString]
           end
  end.

Definition split_ws (s : string) : list string := split_ws_from false s.

(** [arr.splice(start, deleteCount, ...items)]: the array afterwards.
    [deleteCount = None] is the call with [start] alone, which deletes to
    the end. *)
Definition splice {A} (start : Z) (deleteCount : option Z)
           (items : list A) (arr : list A) : list A :=
  let len := Z.of_nat (List.length arr) in
  let actualStart :=
    if (start <? 0)%Z then Z.max (len + start) 0 else Z.min start len in
  let actualDelete :=
    match deleteCount with
    | None => (len - actualStart)%Z
    | Some d => Z.min (Z.max d 0) (len - actualStart)
    end in
  firstn (Z.to_nat actualStart) arr ++ items
    ++ skipn (Z.to_nat (actualStart + actualDelete)) arr.

(** [arr[arr.length - 1]], the element [pop] would return. *)
Definition lastOf {A} (arr : list A) : option A := last (map Some arr) None.

(** [s.lastIndexOf(tag)], -1 when [tag] does not occur. *)
Fixpoint lastIndexOf_from (tag s : string) (i : nat) : Z :=
  let here := if prefix tag s then Z.of_nat i else (-1)%Z in
  match s with
  | EmptyString => here
  | String _ s' =>
      let later := lastIndexOf_from tag s' (S i) in
      if (0 <=? later)%Z then later else here
  end.

Definition lastIndexOf (s tag : string) : Z := lastIndexOf_from tag s 0.

(** [s.substring(start)] for [0 <= start]. *)
Definition substringFrom (s : string) (start : Z) : string :=
  let n := Z.to_nat start in
  substring n (String.length s - n) s.

Definition digit (c : ascii) : option Z :=
  let n := nat_of_ascii c in
  if (48 <=? n) && (n <=? 57) then Some (Z.of_nat (n - 48)) else None.

Fixpoint digits (acc : option Z) (s : string) : option Z :=
  match s with
  | EmptyString => acc
  | String c s' =>
      match digit c with
      | Some d =>
          digits (Some (10 * match acc with Some a => a | None => 0 end + d)%Z) s'
      | None => acc
      end
  end.

(** [parseInt(s, 10)]: leading white space, a sign, then the longest run
    of digits; [None] is NaN.  Exact for the integers a double holds. *)
Definition parseInt10 (s : string) : option Z :=
  match trimStart s with
  | String "-" s' => option_map Z.opp (digits None s')
  | String "+" s' => digits None s'
  | s' => digits None s'
  end.

(** [`${x}`] for a string that may be [undefined]. *)
Definition template (x : option string) : string :=
  match x with Some v => v | None => "undefined"%string end.

(** [s.endsWith(suffix)] *)
Definition endsWith (s suffix : string) : bool :=
  prefix (rev_string EmptyString suffix) (rev_string EmptyString s).

(** [Math.round(n / d)] for integers [n] and [0 < d]: the nearest
    integer, a half going up.  The source computes in doubles; the two
    agree while the quotient is far from the precision of a double, as
    it is for the line counts this is used on ([n] below 2^40 in size
    with [d] = 30000). *)
Definition roundDiv (n d : Z) : Z := ((2 * n + d) / (2 * d))%Z.

End Js.

(* ====================================================================== *)
(** ** Computations: state, trace and exceptions *)
(* ====================================================================== *)

(** What a call can end with other than a value.  [TypeError] and
    [SystemError] are the JavaScript exceptions: the second is the error
    of a system call that fails, as [fs.writeFileSync] throws.  The other
    two are not JavaScript errors: [OutOfFuel] marks a run of the model
    cut short and [BadReference] the use of a reference to no object; the
    properties below show where they do not occur. *)
Inductive JsError : Type :=
| TypeError
| SystemError
| OutOfFuel
| BadReference.

Inductive Completion (A : Type) : Type :=
| Normal (a : A)
| Throw (e : JsError).

Arguments Throw {A} e.

Definition M (W A : Type) : Type := W -> W * Completion A.

Definition ret {W A} (a : A) : M W A := fun w => (w, Normal a).

Definition bind {W A B} (c : M W A) (k : A -> M W B) : M W B :=
  fun w =>
    match c w with
    | (w', Normal a) => k a w'
    | (w', Throw e) => (w', Throw e)
    end.

Definition throw {W A} (e : JsError) : M W A := fun w => (w, Throw e).
Definition gets {W A} (f : W -> A) : M W A := fun w => (w, Normal (f w)).
Definition modify {W} (f : W -> W) : M W unit := fun w => (f w, Normal tt).

Declare Scope js_scope.
Delimit Scope js_scope with js.
Notation "x <- c ;; k" := (bind c (fun x => k))
  (at level 61, c at next level, right associativity) : js_scope.
Notation "c ;; k" := (bind c (fun _ => k))
  (at level 61, right associativity) : js_scope.

(** The world a computation leaves, and what it ended with. *)
Definition exec {W A} (c : M W A) (w : W) : W := fst (c w).
Definition outcome {W A} (c : M W A) (w : W) : Completion A := snd (c w).

(** [arr.forEach(f)] *)
Fixpoint forEach {W A} (f : A -> M W unit) (arr : list A) : M W unit :=
  match arr with
  | [] => ret tt
  | a :: arr' => bind (f a) (fun _ => forEach f arr')
  end.

Local Open Scope string_scope.
Local Open Scope list_scope.
Local Open Scope js_scope.

(* ====================================================================== *)
(** ** NPConfig.ts: the command gateway *)
(* ====================================================================== *)

Definition BufferedData : Type := list string.

(** [QueuedCommand]: only buffered commands can be queued. *)
Record QueuedCommand (BC : Type) : Type := {
  parameters : list string;
  handler : BC
}.

(** The mutable fields of an [NPConfig] object.  [BC] and [SC] are the
    buffered and the streaming callbacks of its client. *)
Record NPConfig (BC SC : Type) : Type := {
  bufferedCallback : option BC;
  streamingCallback : option SC;
  bufferedData : BufferedData;
  activeDevice : option string;
  commandQueue : list (QueuedCommand BC)
}.

Module NP.

Definition npconfigPath : string := "~/bin/npconfig".
Definition appImagePath : string :=
  "~/Naim/Builds/Update/ARM-NP800_master_0.0.0.29391/Application.srec".
Definition defaultCommandTimeoutMs : Z := 20000.
Definition maxCommandQueueLength : nat := 2.

(** [new NPConfig()] *)
Definition init {BC SC} : NPConfig BC SC :=
  {| bufferedCallback := None; streamingCallback := None;
     bufferedData := []; activeDevice := None; commandQueue := [] |}.

Section Fields.
Context {BC SC : Type}.
Implicit Type np : NPConfig BC SC.

Definition set_bufferedCallback (v : option BC) np : NPConfig BC SC :=
  {| bufferedCallback := v; streamingCallback := streamingCallback np;
     bufferedData := bufferedData np; activeDevice := activeDevice np;
     commandQueue := commandQueue np |}.
Definition set_streamingCallback (v : option SC) np : NPConfig BC SC :=
  {| bufferedCallback := bufferedCallback np; streamingCallback := v;
     bufferedData := bufferedData np; activeDevice := activeDevice np;
     commandQueue := commandQueue np |}.
Definition set_bufferedData (v : BufferedData) np : NPConfig BC SC :=
  {| bufferedCallback := bufferedCallback np;
     streamingCallback := streamingCallback np;
     bufferedData := v; activeDevice := activeDevice np;
     commandQueue := commandQueue np |}.
Definition set_activeDevice (v : option string) np : NPConfig BC SC :=
  {| bufferedCallback := bufferedCallback np;
     streamingCallback := streamingCallback np;
     bufferedData := bufferedData np; activeDevice := v;
     commandQueue := commandQueue np |}.
Definition set_commandQueue (v : list (QueuedCommand BC)) np
  : NPConfig BC SC :=
  {| bufferedCallback := bufferedCallback np;
     streamingCallback := streamingCallback np;
     bufferedData := bufferedData np; activeDevice := activeDevice np;
     commandQueue := v |}.

(** [this.bufferedCallback === null && this.streamingCallback === null] *)
Definition idle np : bool :=
  match bufferedCallback np, streamingCallback np with
  | None, None => true
  | _, _ => false
  end.
End Fields.

(** The methods, for a client whose world is [W]. *)
Section Methods.
Context {W BC SC : Type}.
(** where the object lives in the world *)
Variable this : W -> NPConfig BC SC.
Variable update : (NPConfig BC SC -> NPConfig BC SC) -> W -> W.
(** [spawn(path, args, {shell: true, timeout})] *)
Variable spawn : string -> list string -> Z -> M W unit.
(** calling a callback of the client *)
Variable callBuffered : BC -> BufferedData -> Z -> M W unit.
Variable callStreaming : SC -> option string -> option Z -> M W bool.

Definition setDefaultDevice (device : string) : M W unit :=
  dev <- gets (fun w => activeDevice (this w)) ;;
  match dev with
  | None => modify (update (set_activeDevice (Some device)))
  | Some _ => ret tt
  end.

Definition selectDevice (device : string) : M W unit :=
  modify (update (set_activeDevice (Some device))).

Definition run (args : list string) (commandTimeout : Z) : M W bool :=
  spawn npconfigPath args commandTimeout ;;
  ret true.

Definition runBuffered (args : list string) (callback : BC)
           (commandTimeout : Z) : M W bool :=
  np <- gets this ;;
  if idle np then
    modify (update (set_bufferedCallback (Some callback))) ;;
    modify (update (fun np =>
              set_bufferedData (Js.splice 0 None [] (bufferedData np)) np)) ;;
    run args commandTimeout
  else if (List.length (commandQueue np) <? maxCommandQueueLength)%nat then
    modify (update (fun np =>
              set_commandQueue
                (commandQueue np
                   ++ [{| parameters := args; handler := callback |}]) np)) ;;
    ret true
  else ret false.

Definition runStreaming (args : list string) (callback : SC)
           (commandTimeout : Z) : M W bool :=
  np <- gets this ;;
  if idle np then
    modify (update (set_streamingCallback (Some callback))) ;;
    run args commandTimeout
  else ret false.

Definition version (callback : BC) : M W bool :=
  runBuffered ["-v"] callback defaultCommandTimeoutMs.

Definition keys (callback : SC) : M W bool :=
  runStreaming ["-l"] callback defaultCommandTimeoutMs.

Definition devices (callback : BC) : M W bool :=
  runBuffered ["-x"] callback defaultCommandTimeoutMs.

Definition discover (callback : BC) : M W bool :=
  dev <- gets (fun w => activeDevice (this w)) ;;
  match dev with
  | Some d => runBuffered ["-r "; d] callback defaultCommandTimeoutMs
  | None => callBuffered callback [] 1%Z ;; ret false
  end.

Definition reprogApp (callback : SC) : M W bool :=
  dev <- gets (fun w => activeDevice (this w)) ;;
  match dev with
  | Some d =>
      runStreaming ["-p "; appImagePath; d] callback (5 * 60 * 3600)%Z
  | None => _ <- callStreaming callback None (Some 1%Z) ;; ret false
  end.

(** [child.stdout.on('data', ...)]; [data] is [data.toString()]. *)
Definition onStdout (data : string) : M W unit :=
  np <- gets this ;;
  match streamingCallback np with
  | Some cb => _ <- callStreaming cb (Some (Js.trim data)) None ;; ret tt
  | None =>
      match bufferedCallback np with
      | Some _ =>
          modify (update (fun np =>
            set_bufferedData
              (Js.splice (-1) (Some 0%Z)
                 (Js.split Js.newline (Js.trim data)) (bufferedData np))
              np))
      | None => ret tt
      end
  end.

Definition onError : M W unit := ret tt.

(** [child.on('close', ...)]; [code = None] is the null exit code. *)
Definition onClose (code : option Z) : M W unit :=
  let result : Z := match code with None => 1%Z | Some c => c end in
  np <- gets this ;;
  match streamingCallback np with
  | Some cb =>
      _ <- callStreaming cb (Some "") (Some result) ;;
      modify (update (set_streamingCallback None))
  | None =>
      match bufferedCallback np with
      | Some cb =>
          data <- gets (fun w => bufferedData (this w)) ;;
          callBuffered cb data result ;;
          modify (update (set_bufferedCallback None))
      | None => ret tt
      end
  end ;;
  queue <- gets (fun w => commandQueue (this w)) ;;
  match queue with
  | command :: rest =>
      modify (update (set_commandQueue rest)) ;;
      _ <- runBuffered (parameters command) (handler command)
             defaultCommandTimeoutMs ;;
      ret tt
  | [] => ret tt
  end.
End Methods.

End NP.

(** *** The gateway with a client that only records

    The class on its own: the callbacks of the client are opaque, and the
    world is the object together with the calls it makes, in order.  The
    callbacks return, and [spawn] takes its arguments; what happens when
    they throw is in [GatewayFaults]. *)

Module Gateway.

Section Client.
Context {BC SC : Type}.

Inductive Event : Type :=
| Spawned (path : string) (args : list string) (timeout : Z)
| BufferedDelivered (cb : BC) (data : BufferedData) (status : Z)
| StreamingDelivered (cb : SC) (data : option string) (status : option Z).

Record World : Type := {
  gateway : NPConfig BC SC;
  events : list Event
}.

Definition update (f : NPConfig BC SC -> NPConfig BC SC) (w : World)
  : World :=
  {| gateway := f (gateway w); events := events w |}.

Definition emit (e : Event) : M World unit :=
  modify (fun w => {| gateway := gateway w; events := events w ++ [e] |}).

Definition spawn (path : string) (args : list string) (timeout : Z)
  : M World unit := emit (Spawned path args timeout).
Definition callBuffered (cb : BC) (data : BufferedData) (status : Z)
  : M World unit := emit (BufferedDelivered cb data status).
Definition callStreaming (cb : SC) (data : option string)
           (status : option Z) : M World bool :=
  emit (StreamingDelivered cb data status) ;; ret true.

Definition setDefaultDevice := NP.setDefaultDevice gateway update.
Definition selectDevice := NP.selectDevice (BC:=BC) (SC:=SC) update.
Definition runBuffered := NP.runBuffered gateway update spawn.
Definition runStreaming := NP.runStreaming gateway update spawn.
Definition discover := NP.discover gateway update spawn callBuffered.
Definition reprogApp := NP.reprogApp gateway update spawn callStreaming.
Definition onStdout := NP.onStdout gateway update callStreaming.
Definition onClose :=
  NP.onClose gateway update spawn callBuffered callStreaming.

(** A gateway just created, nothing called yet. *)
Definition fresh : World := {| gateway := NP.init; events := [] |}.

(** One command as the process layer plays it: the chunks written to
    stdout, then the close with its exit code. *)
Definition Session : Type := (list string * option Z)%type.

Definition play (s : Session) : M World unit :=
  forEach onStdout (fst s) ;; onClose (snd s).

(** The status [onClose] reports for an exit code. *)
Definition exitStatus (code : option Z) : Z :=
  match code with None => 1%Z | Some c => c end.

(** The fragments one chunk contributes in buffered mode. *)
Definition fragments (chunk : string) : list string :=
  Js.split Js.newline (Js.trim chunk).

(** The line list after the chunks of one command. *)
Definition accumulate (chunks : list string) (data : BufferedData)
  : BufferedData :=
  fold_left
    (fun d c => Js.splice (-1) (Some 0%Z) (fragments c) d) chunks data.

(** What draining a queue is expected to show: the running command
    [cb] delivers, then each queued command is started and delivers, in
    the order of the queue. *)
Fixpoint drained (cb : BC) (data : BufferedData)
         (queue : list (QueuedCommand BC)) (sessions : list Session)
  : list Event :=
  match sessions with
  | [] => []
  | s :: sessions' =>
      BufferedDelivered cb (accumulate (fst s) data) (exitStatus (snd s))
      :: match queue with
         | [] => []
         | c :: queue' =>
             Spawned NP.npconfigPath (parameters c)
                     NP.defaultCommandTimeoutMs
             :: drained (handler c) [] queue' sessions'
         end
  end.

(** A buffered command from request to close: the request, the chunks
    its process writes, the close. *)
Definition bufferedRun (args : list string) (cb : BC) (timeout : Z)
           (s : Session) : M World unit :=
  _ <- runBuffered args cb timeout ;; play s.

(** The line lists handed to buffered callbacks so far. *)
Definition delivered (w : World) : list BufferedData :=
  flat_map (fun e => match e with
                     | BufferedDelivered _ d _ => [d]
                     | _ => []
                     end) (events w).
(** A world spelled out. *)
Definition mk (bc : option BC) (sc : option SC) (bd : BufferedData)
           (ad : option string) (q : list (QueuedCommand BC))
           (ev : list Event) : World :=
  {| gateway := {| bufferedCallback := bc; streamingCallback := sc;
                   bufferedData := bd; activeDevice := ad;
                   commandQueue := q |};
     events := ev |}.
End Client.

Arguments Event : clear implicits.
Arguments World : clear implicits.

End Gateway.

(* ====================================================================== *)
(** ** ARMMfg.ts: the debug session manager *)
(* ====================================================================== *)

Definition SerialData : Type := list string.

(** The open [SerialPort] object, as far as the class uses it. *)
Record SerialPort : Type := {
  path : string;
  baudRate : Z
}.

(** The mutable fields of an [ARMMfg] object; [DC] is the callback of its
    client. *)
Record ARMMfg (DC : Type) : Type := {
  device : option string;
  port : option SerialPort;
  dataCallback : option DC;
  responseData : string
}.

Module ARM.

Definition debugPortBaudRate : Z := 115000.

(** The line of the debug prompt. *)
Definition prompt : string := "-".

Definition init {DC} : ARMMfg DC :=
  {| device := None; port := None; dataCallback := None;
     responseData := "" |}.

Section Fields.
Context {DC : Type}.
Implicit Type a : ARMMfg DC.

Definition set_device (v : option string) a : ARMMfg DC :=
  {| device := v; port := port a; dataCallback := dataCallback a;
     responseData := responseData a |}.
Definition set_port (v : option SerialPort) a : ARMMfg DC :=
  {| device := device a; port := v; dataCallback := dataCallback a;
     responseData := responseData a |}.
Definition set_dataCallback (v : option DC) a : ARMMfg DC :=
  {| device := device a; port := port a; dataCallback := v;
     responseData := responseData a |}.
Definition set_responseData (v : string) a : ARMMfg DC :=
  {| device := device a; port := port a; dataCallback := dataCallback a;
     responseData := v |}.
End Fields.

Section Methods.
Context {W DC : Type}.
Variable this : W -> ARMMfg DC.
Variable update : (ARMMfg DC -> ARMMfg DC) -> W -> W.
(** [new SerialPort({path, baudRate}, cb)], [port.write(text, cb)] and
    [port.close()].  The two callbacks run later, from the event loop. *)
Variable openPort : SerialPort -> M W unit.
Variable writePort : string -> M W unit.
Variable closePort : SerialPort -> M W unit.
(** calling the callback of the client *)
Variable callData : DC -> SerialData -> M W unit.

(** [data] is [data.toString()]. *)
Definition onData (data : string) : M W unit :=
  let value := Js.trim data in
  modify (update (fun a =>
            set_responseData (responseData a ++ value)%string a)) ;;
  lines <- gets (fun w => Js.split Js.newline (responseData (this w))) ;;
  if (0 <? List.length lines)%nat then
    match Js.lastOf lines with
    | Some l =>
        if String.eqb l prompt then
          cb <- gets (fun w => dataCallback (this w)) ;;
          match cb with
          | Some f => callData f lines
          | None => ret tt
          end ;;
          p <- gets (fun w => port (this w)) ;;
          match p with
          | Some sp => closePort sp
          | None => ret tt
          end ;;
          modify (update (set_port None)) ;;
          modify (update (set_dataCallback None))
        else ret tt
    | None => ret tt
    end
  else ret tt.

Definition setDevice (dev : string) : M W unit :=
  modify (update (set_device (Some dev))).

(** The callbacks given to the port at open and at write: they log,
    and assign the local [result] of a [runCommand] that has returned
    by then. *)
Definition onOpened (error : bool) : M W unit := ret tt.
Definition onWritten (error : bool) : M W unit := ret tt.

Definition runCommand (command : string) (callback : option DC)
  : M W bool :=
  a <- gets this ;;
  match port a with
  | Some _ => ret false
  | None =>
      match device a with
      | None => ret false
      | Some dev =>
          let result := true in
          let sp := {| path := dev; baudRate := debugPortBaudRate |} in
          openPort sp ;;
          modify (update (set_port (Some sp))) ;;
          p <- gets (fun w => port (this w)) ;;
          match p with
          | Some _ =>
              modify (update (set_responseData "")) ;;
              modify (update (set_dataCallback callback)) ;;
              writePort ("mfg " ++ command ++ String Js.newline "")%string
          | None => ret tt
          end ;;
          (if negb result then modify (update (set_port None))
           else ret tt) ;;
          ret result
      end
  end.
End Methods.

End ARM.

(** *** The session manager with a client that only records

    The callback returns, and the port takes its path; what happens when
    they throw is in [SessionFaults]. *)

Module Session.

Section Client.
Context {DC : Type}.

Inductive Event : Type :=
| Opened (sp : SerialPort)
| Written (text : string)
| Closed (sp : SerialPort)
| Delivered (cb : DC) (data : SerialData).

Record World : Type := {
  arm : ARMMfg DC;
  events : list Event
}.

Definition update (f : ARMMfg DC -> ARMMfg DC) (w : World) : World :=
  {| arm := f (arm w); events := events w |}.

Definition emit (e : Event) : M World unit :=
  modify (fun w => {| arm := arm w; events := events w ++ [e] |}).

Definition onData :=
  ARM.onData arm update (fun sp => emit (Closed sp))
             (fun cb d => emit (Delivered cb d)).
Definition setDevice := ARM.setDevice (DC:=DC) update.
Definition runCommand :=
  ARM.runCommand arm update (fun sp => emit (Opened sp))
                 (fun t => emit (Written t)).

Definition fresh : World := {| arm := ARM.init; events := [] |}.

(** The session is idle when it holds no port. *)
Definition isIdle (w : World) : bool :=
  match port (arm w) with None => true | Some _ => false end.

(** The line lists handed to the callback so far. *)
Definition delivered (w : World) : list SerialData :=
  flat_map (fun e => match e with
                     | Delivered _ d => [d]
                     | _ => []
                     end) (events w).

(** The lines of a whole response, had it come in one piece. *)
Definition responseLines (response : string) : SerialData :=
  Js.split Js.newline (Js.trim response).
End Client.

Arguments Event : clear implicits.
Arguments World : clear implicits.

End Session.

(* ====================================================================== *)
(** ** Product.ts: product details and firmware versions *)
(* ====================================================================== *)

(** An object with string values, as the list of its own properties in the
    order they were first assigned. *)
Definition JsObject : Type := list (string * string).

Definition ProductDetails : Type := JsObject.
Definition FirmwareVersions : Type := JsObject.

Module Product.

(** [obj[key]] *)
Fixpoint getProperty (key : string) (obj : JsObject) : option string :=
  match obj with
  | [] => None
  | (k, v) :: obj' => if String.eqb k key then Some v else getProperty key obj'
  end.

(** [obj[key] = value] *)
Fixpoint setProperty (key value : string) (obj : JsObject) : JsObject :=
  match obj with
  | [] => [(key, value)]
  | (k, v) :: obj' =>
      if String.eqb k key then (k, value) :: obj'
      else (k, v) :: setProperty key value obj'
  end.

Definition productPropertyLookup : JsObject :=
  [ ("Product Type", "modelName");
    ("Product Variant", "modelVariant");
    ("Serial Number", "serialNumber");
    ("Analogue board version", "analogBoardVersion");
    ("Digital board version", "digitalBoardVersion");
    ("Front board version", "frontBoardVersion");
    ("UI board version", "uiBoardVersion");
    ("Mains Voltage", "mainsVoltage");
    ("Display Type", "displayType");
    ("Wifi Region", "wifiRegion");
    ("Google Token", "googleToken");
    ("Date of Birth", "dateOfBirth");
    ("Date of Last Service", "dateOfLastService");
    ("Number Of Services", "numberOfServices") ].

Definition firwmareVersionLookup : JsObject :=
  [ ("app", "application"); ("bl1", "bsl1"); ("bl2", "bsl2") ].

(** What the two tables inherit from [Object.prototype], each member with
    the string it turns into when used as a property key: a native
    function under its name, [constructor] the function [Object]. *)
Definition nativeFunction (name : string) : string * string :=
  (name, ("function " ++ name ++ "() { [native code] }")%string).

Definition objectPrototype : JsObject :=
  [ ("constructor", "function Object() { [native code] }");
    nativeFunction "__defineGetter__";
    nativeFunction "__defineSetter__";
    nativeFunction "hasOwnProperty";
    nativeFunction "__lookupGetter__";
    nativeFunction "__lookupSetter__";
    nativeFunction "isPrototypeOf";
    nativeFunction "propertyIsEnumerable";
    nativeFunction "toString";
    nativeFunction "valueOf";
    ("__proto__", "[object Object]");
    nativeFunction "toLocaleString" ].

(** [table[key]] for one of the two tables: its own entries, then the
    inherited ones; [None] is [undefined]. *)
Definition lookup (table : JsObject) (key : string) : option string :=
  match getProperty key table with
  | Some v => Some v
  | None => getProperty key objectPrototype
  end.

(** The body of the [forEach] of [npconfigToProductDetails], on the
    object being filled. *)
Definition productLine (line : string) : M ProductDetails unit :=
  let fields := Js.split Js.colon line in
  let key := hd "" fields in
  let value := nth_error fields 1 in
  match lookup productPropertyLookup (Js.trim key) with
  | Some property =>
      match value with
      | Some v => modify (setProperty property (Js.trim v))
      | None => throw TypeError
      end
  | None => ret tt
  end.

Definition npconfigToProductDetails (data : list string)
  : Completion ProductDetails :=
  match forEach productLine data [] with
  | (product, Normal _) => Normal product
  | (_, Throw e) => Throw e
  end.

Definition versionLine (line : string) : M FirmwareVersions unit :=
  let fields := Js.split_ws line in
  let key := hd "" fields in
  let version := nth_error fields 1 in
  let build := nth_error fields 2 in
  match lookup firwmareVersionLookup (Js.trim key) with
  | Some property =>
      modify (setProperty property
                (Js.template version ++ "." ++ Js.template build)%string)
  | None => ret tt
  end.

Definition mfgToFirmwareVersions (data : list string) : FirmwareVersions :=
  fst (forEach versionLine data []).

End Product.

(* ====================================================================== *)
(** ** IPC.ts: the messages of the observer transport *)
(* ====================================================================== *)

Module IPC.

Inductive Channels : Type :=
| CommandsChannel | StateChannel | ConfigChannel | LoggerChannel.

Inductive Commands : Type :=
| Continue | Retry | Restart | Select | Install | Connect.

Inductive States : Type :=
| Welcome
| CheckingForUpdate
| CheckFailedOffline
| CheckFailedCached
| ConnectPrompt
| Detecting
| DetectionFailed
| DetectingManual
| DetectedCurrent
| DetectedAvailable
| Updating
| UpdateComplete
| UpdateFailed.

Inductive Configs : Type :=
| AvailableDevices
| SelectedDevice
| ProductDetails
| FirmwareVersions
| ReprogProgress.

Scheme Equality for States.

End IPC.

(** The values the orchestrator sends with a config message: a device
    list, product details, or a progress figure ([None] is NaN). *)
Inductive ConfigValue : Type :=
| DeviceList (devices : list string)
| Details (product : ProductDetails)
| Percent (percent : option Z).

(** [[state]] on the state channel, [[config, value]] on the config
    channel. *)
Inductive Message : Type :=
| StateMessage (state : IPC.States)
| ConfigMessage (config : IPC.Configs) (value : ConfigValue).

(* ====================================================================== *)
(** ** UpdateRepository.ts: the repository client *)
(* ====================================================================== *)

Record DownloadBatch : Type := {
  completed : Z;
  count : Z;
  success : Z
}.

(** A batch object is shared by the downloads of the batch: the world
    holds the batch objects, and a download holds the index of its batch. *)
Definition BatchRef : Type := nat.

Inductive ListCallback : Type := OnRepositoryList.
Inductive DownloadCallback : Type := OnRepositoryDownload.

(** What the callback given to [s3.listObjectsV2] has captured. *)
Record ListRequest : Type := {
  listBucket : string;
  listPrefix : string;
  listExtension : string;
  listCallback : ListCallback
}.

(** What the callback given to [s3.getObject] has captured. *)
Record GetRequest : Type := {
  objectKey : string;
  filePath : string;
  getCallback : DownloadCallback;
  batch : BatchRef
}.

(** What the store answers to a listing: an error; or data, with the keys
    of its contents ([None] for an object without key, or no contents at
    all) and the truncation mark; or neither. *)
Inductive ListResult : Type :=
| ListError
| ListData (contents : option (list (option string))) (isTruncated : bool)
| ListNothing.

(** How a download ends: the store answers with an error, with no data,
    or with data, with or without a body; and a body is written to the
    file.  [GetData (Some body)] is a body that is written,
    [GetDataUnwritten body] one whose write fails: [fs.writeFileSync]
    throws (no such folder, no permission, disk full). *)
Inductive GetResult : Type :=
| GetError
| GetNoData
| GetData (body : option string)
| GetDataUnwritten (body : string).

(* ====================================================================== *)
(** ** UpdaterStateMachine.ts: the orchestrator *)
(* ====================================================================== *)

Inductive Lifecycle : Type := Enter | Exit | Timeout.

Inductive Controls : Type :=
| UpdateCheckSuccess
| UpdateCheckFailure
| DiscoverySuccess
| DiscoveryFailure
| ReprogrammingSuccess
| ReprogrammingFailure.

Inductive AllEvents : Type :=
| LifecycleEvent (e : Lifecycle)
| ControlEvent (e : Controls)
| CommandEvent (e : IPC.Commands).

Coercion LifecycleEvent : Lifecycle >-> AllEvents.
Coercion ControlEvent : Controls >-> AllEvents.
Coercion CommandEvent : IPC.Commands >-> AllEvents.

(** The callbacks the orchestrator gives to its adapters. *)
Inductive BufferedCallback : Type := OnVersion | OnDevices | OnDiscovery.
Inductive StreamingCallback : Type := OnReprogramming.
Inductive SerialDataCallback : Type := OnCommandResponse.

(** The handlers of the state table. *)
Inductive StateHandler : Type :=
| stateWelcome
| stateChecking
| stateCheckingOffline
| stateCheckingCached
| stateConnecting
| stateDetecting
| stateDetectionFailed
| stateDetectionManual
| stateDetectionAvailable
| stateDetectionCurrent
| stateUpdating
| stateUpdateComplete
| stateUpdateFailed.

(** What the main process does to the outside, in order. *)
Inductive Effect : Type :=
| IpcSent (channel : IPC.Channels) (message : Message)
| Spawned (path : string) (args : list string) (timeout : Z)
| PortOpened (sp : SerialPort)
| PortWritten (text : string)
| PortClosed (sp : SerialPort)
| ListRequested (req : ListRequest)
| GetRequested (req : GetRequest)
| FileWritten (path : string) (body : string)
| TimerStarted (timeoutMs : Z)
| StateChanged (state : IPC.States)
| Injected (state : option IPC.States) (event : AllEvents)
| DownloadLogged (path : string) (completed count : Z) (result : bool).

(** The main process: the module state of IPC.ts, the fields of the state
    machine with the adapters it owns, the batch objects alive, and the
    trace.  [StateChanged] is the call of the [onStateChange] hook,
    [onStateChange = true] says a hook is installed; [Injected] and
    [DownloadLogged] are the lines [injectEvent] and [onRepositoryDownload]
    log. *)
Record Machine : Type := {
  ipcImplementation : bool;
  currentState : option IPC.States;
  npconfig : NPConfig BufferedCallback StreamingCallback;
  armMfg : ARMMfg SerialDataCallback;
  productDetails : option ProductDetails;
  firmwareVersions : option FirmwareVersions;
  onStateChange : bool;
  batches : list DownloadBatch;
  trace : list Effect
}.

Module Fsm.

Definition cacheLocation : string := ".".
Definition bucketName : string := "com.naimaudio.firmware".
Definition packageIndexExtension : string := "xml".

Section Fields.
Implicit Type m : Machine.

Definition set_currentState (v : option IPC.States) m : Machine :=
  {| ipcImplementation := ipcImplementation m; currentState := v;
     npconfig := npconfig m; armMfg := armMfg m;
     productDetails := productDetails m;
     firmwareVersions := firmwareVersions m;
     onStateChange := onStateChange m; batches := batches m;
     trace := trace m |}.
Definition update_npconfig
           (f : NPConfig BufferedCallback StreamingCallback
                -> NPConfig BufferedCallback StreamingCallback) m
  : Machine :=
  {| ipcImplementation := ipcImplementation m;
     currentState := currentState m;
     npconfig := f (npconfig m); armMfg := armMfg m;
     productDetails := productDetails m;
     firmwareVersions := firmwareVersions m;
     onStateChange := onStateChange m; batches := batches m;
     trace := trace m |}.
Definition update_armMfg
           (f : ARMMfg SerialDataCallback -> ARMMfg SerialDataCallback) m
  : Machine :=
  {| ipcImplementation := ipcImplementation m;
     currentState := currentState m;
     npconfig := npconfig m; armMfg := f (armMfg m);
     productDetails := productDetails m;
     firmwareVersions := firmwareVersions m;
     onStateChange := onStateChange m; batches := batches m;
     trace := trace m |}.
Definition set_productDetails (v : option ProductDetails) m : Machine :=
  {| ipcImplementation := ipcImplementation m;
     currentState := currentState m;
     npconfig := npconfig m; armMfg := armMfg m;
     productDetails := v;
     firmwareVersions := firmwareVersions m;
     onStateChange := onStateChange m; batches := batches m;
     trace := trace m |}.
Definition set_firmwareVersions (v : option FirmwareVersions) m
  : Machine :=
  {| ipcImplementation := ipcImplementation m;
     currentState := currentState m;
     npconfig := npconfig m; armMfg := armMfg m;
     productDetails := productDetails m;
     firmwareVersions := v;
     onStateChange := onStateChange m; batches := batches m;
     trace := trace m |}.
Definition set_batches (v : list DownloadBatch) m : Machine :=
  {| ipcImplementation := ipcImplementation m;
     currentState := currentState m;
     npconfig := npconfig m; armMfg := armMfg m;
     productDetails := productDetails m;
     firmwareVersions := firmwareVersions m;
     onStateChange := onStateChange m; batches := v;
     trace := trace m |}.
Definition set_trace (v : list Effect) m : Machine :=
  {| ipcImplementation := ipcImplementation m;
     currentState := currentState m;
     npconfig := npconfig m; armMfg := armMfg m;
     productDetails := productDetails m;
     firmwareVersions := firmwareVersions m;
     onStateChange := onStateChange m; batches := batches m;
     trace := v |}.
End Fields.

Definition emit (e : Effect) : M Machine unit :=
  modify (fun m => set_trace (trace m ++ [e]) m).

(** *** IPC.ts: sending *)

Definition send (channel : IPC.Channels) (message : Message)
  : M Machine unit :=
  ipc <- gets ipcImplementation ;;
  if ipc then emit (IpcSent channel message) else ret tt.

Definition sendStateChange (state : IPC.States) : M Machine unit :=
  send IPC.StateChannel (StateMessage state).

Definition sendConfig (config : IPC.Configs) (value : ConfigValue)
  : M Machine unit :=
  send IPC.ConfigChannel (ConfigMessage config value).

(** *** UpdateRepository.ts *)

(** [{ completed: 0, count: n, success: 0 }], a new object. *)
Definition newBatch (n : Z) : M Machine BatchRef :=
  ref <- gets (fun m => List.length (batches m)) ;;
  modify (fun m =>
    set_batches
      (batches m ++ [{| completed := 0; count := n; success := 0 |}]) m) ;;
  ret ref.

Definition doGetFileList (callback : ListCallback)
           (extension prefix : string) : M Machine unit :=
  emit (ListRequested {| listBucket := bucketName; listPrefix := prefix;
                         listExtension := extension;
                         listCallback := callback |}).

Definition doDownloadFile (key path : string) (callback : DownloadCallback)
           (b : BatchRef) : M Machine unit :=
  emit (GetRequested {| objectKey := key; filePath := path;
                        getCallback := callback; batch := b |}).

Definition getPackageIndexFiles (callback : ListCallback) (prefix : string)
  : M Machine unit :=
  doGetFileList callback packageIndexExtension prefix.

Definition downloadFile (key path : string) (callback : DownloadCallback)
  : M Machine unit :=
  b <- newBatch 1 ;;
  doDownloadFile key path callback b.

Definition downloadFiles (objectKeys : list string) (path : string)
           (callback : DownloadCallback) : M Machine unit :=
  b <- newBatch (Z.of_nat (List.length objectKeys)) ;;
  forEach (fun element =>
             let fragments := Js.split Js.slash element in
             if (0 <? List.length fragments)%nat then
               let fileName :=
                 (path ++ "/" ++ Js.template (Js.lastOf fragments))%string in
               doDownloadFile element fileName callback b
             else ret tt)
          objectKeys.

(** The batch object behind a reference, and its update in place. *)
Definition readBatch (b : BatchRef) : M Machine DownloadBatch :=
  bs <- gets batches ;;
  match nth_error bs b with
  | Some bt => ret bt
  | None => throw BadReference
  end.

Definition writeBatch (b : BatchRef) (f : DownloadBatch -> DownloadBatch)
  : M Machine unit :=
  bt <- readBatch b ;;
  modify (fun m =>
    set_batches (firstn b (batches m) ++ f bt :: skipn (S b) (batches m)) m).

Definition progressTag : string := "-> Lines:".
Definition progressComplete : Z := 30000.

(** *** The methods of the state machine

    They call [injectEvent], which calls them: [Handlers] takes the
    [injectEvent] of the calls made from inside a handler as a variable,
    and [injectEventN] below closes the loop. *)
Module Handlers.
Section Handlers.
Variable injectEvent : AllEvents -> M Machine unit.

Definition spawn (path : string) (args : list string) (timeout : Z)
: M Machine unit := emit (Spawned path args timeout).

(** **** npconfig callbacks *)

Definition onVersion (version : BufferedData) (status : Z)
: M Machine unit := ret tt.

Definition onDevices (devices : BufferedData) (status : Z)
: M Machine unit :=
if (status =? 0)%Z then
  match devices with
  | first :: _ =>
      NP.setDefaultDevice npconfig update_npconfig first ;;
      ARM.setDevice update_armMfg first
  | [] => ret tt
  end ;;
  sendConfig IPC.AvailableDevices (DeviceList devices)
else ret tt.

Definition onDiscovery (details : BufferedData) (status : Z)
: M Machine unit :=
if (status =? 0)%Z then
  match Product.npconfigToProductDetails details with
  | Normal product =>
      modify (set_productDetails (Some product)) ;;
      injectEvent DiscoverySuccess
  | Throw e => throw e
  end
else injectEvent DiscoveryFailure.

Definition onReprogramming (progress : option string)
         (status : option Z) : M Machine bool :=
match progress with
| Some text =>
    let linesPos := Js.lastIndexOf text progressTag in
    if (0 <=? linesPos)%Z then
      let value :=
        Js.trim
          (Js.substringFrom text
             (linesPos + Z.of_nat (String.length progressTag))) in
      let position := Js.parseInt10 value in
      let percent :=
        option_map
          (fun p => Js.roundDiv (p * 100) progressComplete) position in
      sendConfig IPC.ReprogProgress (Percent percent)
    else ret tt
| None => ret tt
end ;;
match status with
| Some st =>
    injectEvent (if (st =? 0)%Z then ControlEvent ReprogrammingSuccess
                 else ControlEvent ReprogrammingFailure)
| None => ret tt
end ;;
ret true.

Definition callBuffered (cb : BufferedCallback)
: BufferedData -> Z -> M Machine unit :=
match cb with
| OnVersion => onVersion
| OnDevices => onDevices
| OnDiscovery => onDiscovery
end.

Definition callStreaming (cb : StreamingCallback)
: option string -> option Z -> M Machine bool :=
match cb with OnReprogramming => onReprogramming end.

(** **** armmfg callback *)

Definition onCommandResponse (data : SerialData) : M Machine unit :=
modify (set_firmwareVersions (Some (Product.mfgToFirmwareVersions data))).

Definition callData (cb : SerialDataCallback)
: SerialData -> M Machine unit :=
match cb with OnCommandResponse => onCommandResponse end.

(** **** update repository callbacks *)

Definition onRepositoryDownload (path : string) (result : bool)
         (b : BatchRef) : M Machine unit :=
bt <- readBatch b ;;
emit (DownloadLogged path (completed bt) (count bt) result) ;;
if (completed bt =? count bt)%Z then
  if (0 <? success bt)%Z then injectEvent UpdateCheckSuccess
  else injectEvent UpdateCheckFailure
else ret tt.

Definition onRepositoryList (objectList : option (list string))
: M Machine unit :=
match objectList with
| None => injectEvent UpdateCheckFailure
| Some [] => injectEvent UpdateCheckFailure
| Some keys => downloadFiles keys cacheLocation OnRepositoryDownload
end.

Definition callList (cb : ListCallback)
: option (list string) -> M Machine unit :=
match cb with OnRepositoryList => onRepositoryList end.

Definition callDownload (cb : DownloadCallback)
: string -> bool -> BatchRef -> M Machine unit :=
match cb with OnRepositoryDownload => onRepositoryDownload end.

(** **** The adapters, as the machine owns them *)

Definition npVersion := NP.version npconfig update_npconfig spawn.
Definition npDevices := NP.devices npconfig update_npconfig spawn.
Definition npDiscover :=
NP.discover npconfig update_npconfig spawn callBuffered.
Definition npReprogApp :=
NP.reprogApp npconfig update_npconfig spawn callStreaming.
Definition npOnStdout := NP.onStdout npconfig update_npconfig callStreaming.
Definition npOnClose :=
NP.onClose npconfig update_npconfig spawn callBuffered callStreaming.

Definition armRunCommand :=
ARM.runCommand armMfg update_armMfg
               (fun sp => emit (PortOpened sp))
               (fun t => emit (PortWritten t)).
Definition armOnData :=
ARM.onData armMfg update_armMfg
           (fun sp => emit (PortClosed sp)) callData.

(** The callback given to [s3.listObjectsV2]. *)
Definition listObjectsDone (req : ListRequest) (res : ListResult)
: M Machine unit :=
match res with
| ListError => callList (listCallback req) None
| ListData contents _ =>
    let matching :=
      match contents with
      | Some objects =>
          filter (fun key => match key with
                             | Some k => Js.endsWith k (listExtension req)
                             | None => false
                             end) objects
      | None => []
      end in
    let listKeys :=
      flat_map (fun key => match key with
                           | Some k => [k]
                           | None => []
                           end) matching in
    callList (listCallback req) (Some listKeys)
| ListNothing => ret tt
end.

(** The callback given to [s3.getObject].  The write of the file is not
    in a [try]: when it throws, the callback ends there, before the
    batch is counted and before the download callback is called. *)
Definition getObjectDone (req : GetRequest) (res : GetResult)
: M Machine unit :=
ok <- match res with
      | GetError | GetNoData => ret false
      | GetData (Some body) =>
          emit (FileWritten (filePath req) body) ;; ret true
      | GetData None => ret false
      | GetDataUnwritten _ => throw SystemError
      end ;;
writeBatch (batch req)
  (fun bt => {| completed := completed bt + 1; count := count bt;
                success := success bt |}) ;;
writeBatch (batch req)
  (fun bt => {| completed := completed bt; count := count bt;
                success := success bt + (if ok then 1 else 0) |}) ;;
callDownload (getCallback req) (filePath req) ok (batch req).

(** **** State machine control *)

(** [this.currentState !== newState] is the negation of this. *)
Definition isCurrent (cur : option IPC.States) (newState : IPC.States)
: bool :=
match cur with
| Some st => IPC.States_beq st newState
| None => false
end.

Definition enterState (newState : IPC.States) : M Machine unit :=
cur <- gets currentState ;;
if negb (isCurrent cur newState) then
  sendStateChange newState ;;
  cur' <- gets currentState ;;
  match cur' with
  | Some _ => injectEvent Exit
  | None => ret tt
  end ;;
  modify (set_currentState (Some newState)) ;;
  injectEvent Enter ;;
  hook <- gets onStateChange ;;
  if hook then emit (StateChanged newState) else ret tt
else ret tt.

Definition startTimer (timeoutMs : Z) : M Machine unit :=
emit (TimerStarted timeoutMs).

Definition onTimeout : M Machine unit := injectEvent Timeout.

(** **** State handlers *)

Definition runHandler (h : StateHandler) (event : AllEvents)
: M Machine unit :=
match h with
| stateWelcome =>
    match event with
    | LifecycleEvent Enter => ret tt
    | LifecycleEvent Exit => ret tt
    | CommandEvent IPC.Continue => enterState IPC.CheckingForUpdate
    | _ => ret tt
    end
| stateChecking =>
    match event with
    | LifecycleEvent Enter =>
        getPackageIndexFiles OnRepositoryList "NonStreamers"
    | LifecycleEvent Exit => ret tt
    | LifecycleEvent Timeout => ret tt
    | ControlEvent UpdateCheckSuccess => enterState IPC.ConnectPrompt
    | ControlEvent UpdateCheckFailure =>
        if true then enterState IPC.CheckFailedCached
        else enterState IPC.CheckFailedOffline
    | _ => ret tt
    end
| stateCheckingOffline =>
    match event with
    | LifecycleEvent Enter => ret tt
    | LifecycleEvent Exit => ret tt
    | CommandEvent IPC.Retry => enterState IPC.CheckingForUpdate
    | _ => ret tt
    end
| stateCheckingCached =>
    match event with
    | LifecycleEvent Enter => ret tt
    | LifecycleEvent Exit => ret tt
    | CommandEvent IPC.Retry => enterState IPC.CheckingForUpdate
    | CommandEvent IPC.Continue => enterState IPC.ConnectPrompt
    | _ => ret tt
    end
| stateConnecting =>
    match event with
    | LifecycleEvent Enter => ret tt
    | LifecycleEvent Exit => ret tt
    | CommandEvent IPC.Retry => enterState IPC.CheckingForUpdate
    | CommandEvent IPC.Continue => enterState IPC.Detecting
    | _ => ret tt
    end
| stateDetecting =>
    match event with
    | LifecycleEvent Enter => _ <- npDiscover OnDiscovery ;; ret tt
    | LifecycleEvent Exit => ret tt
    | LifecycleEvent Timeout => ret tt
    | ControlEvent DiscoverySuccess => enterState IPC.DetectedAvailable
    | ControlEvent DiscoveryFailure => enterState IPC.DetectionFailed
    | _ => ret tt
    end
| stateDetectionFailed =>
    match event with
    | LifecycleEvent Enter => ret tt
    | LifecycleEvent Exit => ret tt
    | CommandEvent IPC.Retry => enterState IPC.Detecting
    | CommandEvent IPC.Continue => enterState IPC.DetectingManual
    | _ => ret tt
    end
| stateDetectionManual =>
    match event with
    | LifecycleEvent Enter => _ <- npDevices OnDevices ;; ret tt
    | LifecycleEvent Exit => ret tt
    | CommandEvent IPC.Connect => enterState IPC.Detecting
    | _ => ret tt
    end
| stateDetectionAvailable =>
    match event with
    | LifecycleEvent Enter => startTimer 500
    | LifecycleEvent Exit => ret tt
    | LifecycleEvent Timeout =>
        details <- gets productDetails ;;
        match details with
        | Some product =>
            sendConfig IPC.ProductDetails (Details product) ;;
            _ <- armRunCommand "version host" (Some OnCommandResponse) ;;
            ret tt
        | None => ret tt
        end
    | CommandEvent IPC.Install => enterState IPC.Updating
    | _ => ret tt
    end
| stateDetectionCurrent =>
    match event with
    | LifecycleEvent Enter => ret tt
    | LifecycleEvent Exit => ret tt
    | CommandEvent IPC.Restart => enterState IPC.Welcome
    | _ => ret tt
    end
| stateUpdating =>
    match event with
    | LifecycleEvent Enter => _ <- npReprogApp OnReprogramming ;; ret tt
    | LifecycleEvent Exit => ret tt
    | LifecycleEvent Timeout => ret tt
    | ControlEvent ReprogrammingSuccess => enterState IPC.UpdateComplete
    | ControlEvent ReprogrammingFailure => enterState IPC.UpdateFailed
    | _ => ret tt
    end
| stateUpdateComplete =>
    match event with
    | LifecycleEvent Enter => ret tt
    | LifecycleEvent Exit => ret tt
    | CommandEvent IPC.Restart => enterState IPC.Welcome
    | _ => ret tt
    end
| stateUpdateFailed =>
    match event with
    | LifecycleEvent Enter => ret tt
    | LifecycleEvent Exit => ret tt
    | CommandEvent IPC.Restart => enterState IPC.Welcome
    | _ => ret tt
    end
end.

(** The table the constructor builds. *)
Definition StateTable (state : IPC.States) : option StateHandler :=
match state with
| IPC.Welcome => Some stateWelcome
| IPC.CheckingForUpdate => Some stateChecking
| IPC.CheckFailedOffline => Some stateCheckingOffline
| IPC.CheckFailedCached => Some stateCheckingCached
| IPC.ConnectPrompt => Some stateConnecting
| IPC.Detecting => Some stateDetecting
| IPC.DetectionFailed => Some stateDetectionFailed
| IPC.DetectingManual => Some stateDetectionManual
| IPC.DetectedAvailable => Some stateDetectionAvailable
| IPC.DetectedCurrent => Some stateDetectionCurrent
| IPC.Updating => Some stateUpdating
| IPC.UpdateComplete => Some stateUpdateComplete
| IPC.UpdateFailed => Some stateUpdateFailed
end.

(** The body of [injectEvent]. *)
Definition dispatch (event : AllEvents) : M Machine unit :=
cur <- gets currentState ;;
emit (Injected cur event) ;;
match cur with
| Some state =>
    match StateTable state with
    | Some h => runHandler h event
    | None => ret tt
    end
| None => ret tt
end.

(** **** IPC handling; [event] and [value] are the message decoded. *)

Definition onCommand (event : AllEvents) : M Machine unit :=
injectEvent event.

Definition onConfig (message : IPC.Configs) (value : string)
: M Machine unit :=
match message with
| IPC.SelectedDevice =>
    NP.selectDevice update_npconfig value ;;
    ARM.setDevice update_armMfg value
| _ => ret tt
end.

Definition start : M Machine unit :=
_ <- npVersion OnVersion ;;
_ <- npDevices OnDevices ;;
enterState IPC.Welcome.
End Handlers.
End Handlers.

(** [injectEvent], with [fuel] levels of calls from inside handlers. *)
Fixpoint injectEventN (fuel : nat) (event : AllEvents) : M Machine unit :=
  match fuel with
  | O => throw OutOfFuel
  | S fuel' => Handlers.dispatch (injectEventN fuel') event
  end.

Arguments injectEventN : simpl never.

(** The levels given to a call from the event loop; four are enough for
    every event in every state (see [injectEvent_returns]). *)
Definition levels : nat := 8.

Definition injectEvent : AllEvents -> M Machine unit := injectEventN levels.

Definition enterState := Handlers.enterState injectEvent.
Definition start := Handlers.start injectEvent.
Definition onCommand := Handlers.onCommand injectEvent.
Definition onConfig := Handlers.onConfig.
Definition onTimeout := Handlers.onTimeout injectEvent.
Definition onStdout := Handlers.npOnStdout injectEvent.
Definition onClose := Handlers.npOnClose injectEvent.
Definition onData := Handlers.armOnData.
Definition onRepositoryList := Handlers.onRepositoryList injectEvent.
Definition onRepositoryDownload := Handlers.onRepositoryDownload injectEvent.
Definition listObjectsDone := Handlers.listObjectsDone injectEvent.
Definition getObjectDone := Handlers.getObjectDone injectEvent.

(** [new UpdaterStateMachine()], with the IPC module initialised or not
    and a hook installed or not. *)
Definition init (ipc hook : bool) : Machine :=
  {| ipcImplementation := ipc; currentState := None;
     npconfig := NP.init; armMfg := ARM.init;
     productDetails := None; firmwareVersions := None;
     onStateChange := hook; batches := []; trace := [] |}.

End Fsm.

(** *** A download batch, as the event loop plays it *)

Module Batch.

(** The downloads [downloadFiles] asks for, all on the batch [b]. *)
Definition requestsFor (keys : list string) (path : string) (b : BatchRef)
  : list GetRequest :=
  map (fun key =>
         {| objectKey := key;
            filePath :=
              (path ++ "/"
                 ++ Js.template (Js.lastOf (Js.split Js.slash key)))%string;
            getCallback := OnRepositoryDownload;
            batch := b |}) keys.

(** Downloads completing one after the other, each with its answer. *)
Definition complete (cs : list (GetRequest * GetResult)) : M Machine unit :=
  forEach (fun c => Fsm.getObjectDone (fst c) (snd c)) cs.

(** The answers that count as a success: data with a body, written. *)
Definition succeeded (res : GetResult) : bool :=
  match res with
  | GetData (Some _) => true
  | _ => false
  end.

(** The answers whose write fails. *)
Definition unwritten (res : GetResult) : bool :=
  match res with
  | GetDataUnwritten _ => true
  | _ => false
  end.

(** Completions none of which has a write that fails. *)
Definition allWritten (cs : list (GetRequest * GetResult)) : Prop :=
  Forall (fun c => unwritten (snd c) = false) cs.

(** How many of the completions get as far as the count: those whose
    write does not fail. *)
Definition counted (cs : list (GetRequest * GetResult)) : nat :=
  List.length (filter (fun c => negb (unwritten (snd c))) cs).

Definition successes (cs : list (GetRequest * GetResult)) : Z :=
  Z.of_nat (List.length (filter (fun c => succeeded (snd c)) cs)).

(** What a run added to the trace. *)
Definition added (before after : Machine) : list Effect :=
  skipn (List.length (trace before)) (trace after).

(** The [completed] and [count] the download callback saw, call by call. *)
Definition reports (t : list Effect) : list (Z * Z) :=
  flat_map (fun e => match e with
                     | DownloadLogged _ c n _ => [(c, n)]
                     | _ => []
                     end) t.

(** The update-check outcomes injected, in order. *)
Definition outcomesInjected (t : list Effect) : list Controls :=
  flat_map (fun e => match e with
                     | Injected _ (ControlEvent UpdateCheckSuccess) =>
                         [UpdateCheckSuccess]
                     | Injected _ (ControlEvent UpdateCheckFailure) =>
                         [UpdateCheckFailure]
                     | _ => []
                     end) t.

(** The outcome a finished batch stands for. *)
Definition verdict (successCount : Z) : Controls :=
  if (0 <? successCount)%Z then UpdateCheckSuccess else UpdateCheckFailure.

End Batch.

(* ====================================================================== *)
(** ** Definitions used by the statements *)
(* ====================================================================== *)

(** The newline, as a string. *)
Definition nl : string := String Js.newline "".

(** A gateway, its callbacks numbered, with the buffered command of
    callback 0 running and one command queued. *)
Definition busyGateway : Gateway.World nat nat :=
  {| Gateway.gateway :=
       {| bufferedCallback := Some 0; streamingCallback := None;
          bufferedData := []; activeDevice := None;
          commandQueue := [{| parameters := ["-x"]; handler := 1 |}] |};
     Gateway.events := [] |}.

(** A session with its device set, as after [setDevice "usb0"]. *)
Definition readySession : Session.World nat :=
  exec (Session.setDevice "usb0") Session.fresh.

(** What an injection that the handler passes over comes to: its log line. *)
Definition logged (event : AllEvents) (m : Machine) : Machine :=
  Fsm.set_trace (trace m ++ [Injected (currentState m) event]) m.

(** The states whose handler does nothing on Enter. *)
Definition entersQuietly (s : IPC.States) : bool :=
  match s with
  | IPC.CheckingForUpdate | IPC.Detecting | IPC.DetectingManual
  | IPC.DetectedAvailable | IPC.Updating => false
  | _ => true
  end.

(** The machine after [start()], in Welcome. *)
Definition welcomeMachine : Machine :=
  Eval vm_compute in exec Fsm.start (Fsm.init true true).

(** The machine after [start()] and Continue, in CheckingForUpdate. *)
Definition checkingMachine : Machine :=
  Eval vm_compute in
    exec (Fsm.start ;; Fsm.onCommand IPC.Continue) (Fsm.init true false).

(** The batch objects after the object at [b] is replaced. *)
Definition replaced (b : BatchRef) (bt : DownloadBatch)
           (bs : list DownloadBatch) : list DownloadBatch :=
  firstn b bs ++ bt :: skipn (S b) bs.

(** What a completion writes before the callback: the file, when there is
    a body. *)
Definition written (req : GetRequest) (res : GetResult) : list Effect :=
  match res with
  | GetData (Some body) => [FileWritten (filePath req) body]
  | _ => []
  end.

(** [res ? 1 : 0] *)
Definition bump (ok : bool) : Z := if ok then 1%Z else 0%Z.

(** Two index files asked for in CheckingForUpdate; the second download
    completes first and fails, the first completes last with a body. *)
Definition twoKeys : list string :=
  ["NonStreamers/Development.xml"; "NonStreamers/Release.xml"].

Definition twoCompletions : list (GetRequest * GetResult) :=
  [ ({| objectKey := "NonStreamers/Release.xml";
        filePath := "./Release.xml";
        getCallback := OnRepositoryDownload; batch := 0 |}, GetError);
    ({| objectKey := "NonStreamers/Development.xml";
        filePath := "./Development.xml";
        getCallback := OnRepositoryDownload; batch := 0 |},
     GetData (Some "<Upgrade/>")) ].

(** The requests of these two downloads. *)
Definition releaseRequest : GetRequest :=
  {| objectKey := "NonStreamers/Release.xml";
     filePath := "./Release.xml";
     getCallback := OnRepositoryDownload; batch := 0 |}.

Definition developmentRequest : GetRequest :=
  {| objectKey := "NonStreamers/Development.xml";
     filePath := "./Development.xml";
     getCallback := OnRepositoryDownload; batch := 0 |}.

(** Both are answered with a body.  The second completes first and its
    file cannot be written; the first completes last, and its file is
    written. *)
Definition stalledCompletions : list (GetRequest * GetResult) :=
  [ (releaseRequest, GetDataUnwritten "<Upgrade/>");
    (developmentRequest, GetData (Some "<Upgrade/>")) ].

(** A computation that returns normally, whatever the world. *)
Definition returns {W A : Type} (c : M W A) : Prop :=
  forall w, exists w' a, c w = (w', Normal a).

(** The states whose Enter handler injects nothing. *)
Definition entersWithoutInjecting (s : IPC.States) : bool :=
  match s with
  | IPC.Detecting | IPC.Updating => false
  | _ => true
  end.

(** The machine in Detecting, the discovery of usb0 running. *)
Definition detectingMachine : Machine :=
  Eval vm_compute in
    exec (Fsm.onConfig IPC.SelectedDevice "usb0" ;;
          Fsm.start ;;
          Fsm.onClose (Some 0%Z) ;;
          Fsm.onClose (Some 0%Z) ;;
          Fsm.onCommand IPC.Continue ;;
          Fsm.onRepositoryList (Some []) ;;
          Fsm.onCommand IPC.Continue ;;
          Fsm.onCommand IPC.Continue)
         (Fsm.init true false).

(** A whole update as the event loop plays it, with the device usb0
    selected by the observer and usb1 listed first by the utility. *)
Definition workflow : M Machine unit :=
  Fsm.onConfig IPC.SelectedDevice "usb0" ;;
  Fsm.start ;;
  Fsm.onStdout ("1.2.3" ++ nl)%string ;;
  Fsm.onClose (Some 0%Z) ;;
  Fsm.onStdout ("usb1" ++ nl ++ "usb0" ++ nl)%string ;;
  Fsm.onClose (Some 0%Z) ;;
  Fsm.onCommand IPC.Continue ;;
  Fsm.onRepositoryList (Some []) ;;
  Fsm.onCommand IPC.Continue ;;
  Fsm.onCommand IPC.Continue ;;
  Fsm.onStdout
    ("Product Type: NSC222" ++ nl ++ "Serial Number: 881412" ++ nl)%string ;;
  Fsm.onClose (Some 0%Z) ;;
  Fsm.onTimeout ;;
  Fsm.onData ("app v0.0.0  29380" ++ nl ++ "-")%string ;;
  Fsm.onCommand IPC.Install ;;
  Fsm.onStdout "-> Lines: 15000" ;;
  Fsm.onClose (Some 0%Z).

(** The messages sent to the observer. *)
Definition sent (t : list Effect) : list Message :=
  flat_map (fun e => match e with
                     | IpcSent _ message => [message]
                     | _ => []
                     end) t.

(* ====================================================================== *)
(** ** The adapters under any traffic *)
(* ====================================================================== *)

Module GatewayCalls.

Section Client.
Context {BC SC : Type}.

(** What can happen to a gateway: a call of one of its public methods, or
    an event of the process it spawned. *)
Inductive Call : Type :=
| SetDefaultDevice (device : string)
| SelectDevice (device : string)
| Version (cb : BC)
| Keys (cb : SC)
| Devices (cb : BC)
| Discover (cb : BC)
| ReprogApp (cb : SC)
| Stdout (data : string)
| Error
| Close (code : option Z).

(** At most one callback is registered, the queue holds at most
    [maxCommandQueueLength] commands, and it holds none while the gateway
    is idle. *)
Definition singleFlight (np : NPConfig BC SC) : Prop :=
  (bufferedCallback np = None \/ streamingCallback np = None)
  /\ List.length (commandQueue np) <= NP.maxCommandQueueLength
  /\ (NP.idle np = true -> commandQueue np = []).

(** The chunks a streaming command forwards, then its end. *)
Definition streamed (cb : SC) (chunks : list string) (code : option Z)
  : list (Gateway.Event BC SC) :=
  map (fun c => Gateway.StreamingDelivered cb (Some (Js.trim c)) None) chunks
  ++ [Gateway.StreamingDelivered cb (Some "") (Some (Gateway.exitStatus code))].
End Client.

Arguments Call : clear implicits.

End GatewayCalls.

Module SessionCalls.

Section Client.
Context {DC : Type}.

(** What can happen to a session manager: a call of a public method, or an
    event of the port it opened. *)
Inductive Call : Type :=
| SetDevice (device : string)
| RunCommand (command : string) (cb : option DC)
| Opened (error : bool)
| Written (error : bool)
| Data (data : string).

Definition opens (t : list (Session.Event DC)) : nat :=
  List.length (filter (fun e => match e with
                                | Session.Opened _ => true
                                | _ => false
                                end) t).

Definition closes (t : list (Session.Event DC)) : nat :=
  List.length (filter (fun e => match e with
                                | Session.Closed _ => true
                                | _ => false
                                end) t).

(** The port is held exactly when one more was opened than closed, and a
    callback is kept only while the port is held. *)
Definition oneTransport (w : Session.World DC) : Prop :=
  opens (Session.events w)
  = closes (Session.events w)
    + (if Session.isIdle w then 0 else 1)
  /\ (port (Session.arm w) = None -> dataCallback (Session.arm w) = None).

(** The last line of a response. *)
Definition lastLine (response : string) : string :=
  last (Js.split Js.newline response) "".

(** The response accumulated after [chunks], from [response] on. *)
Definition received (response : string) (chunks : list string) : string :=
  fold_left (fun r c => (r ++ Js.trim c)%string) chunks response.

(** A session spelled out. *)
Definition mk (d : option string) (p : option SerialPort) (c : option DC)
           (r : string) (ev : list (Session.Event DC)) : Session.World DC :=
  {| Session.arm := {| device := d; port := p; dataCallback := c;
                       responseData := r |};
     Session.events := ev |}.

(** What the completion of a command adds to the trace. *)
Definition completion (p : option SerialPort) (c : option DC)
           (lines : SerialData) : list (Session.Event DC) :=
  match c with Some f => [Session.Delivered f lines] | None => [] end
  ++ match p with Some sp => [Session.Closed sp] | None => [] end.
End Client.

Arguments Call : clear implicits.

End SessionCalls.

(** *** The gateway where calls throw

    What the recording client leaves out: [spawn] throws a TypeError when
    the path or an argument holds a NUL character, and starts no process
    then; and a callback of the client can throw, whatever the client
    likes and depending on what it is called with ([raisesBuffered] and
    [raisesStreaming] say what, if anything).  The methods are the same
    ones. *)

Module GatewayFaults.

(** [s.includes('\0')] *)
Fixpoint hasNul (s : string) : bool :=
  match s with
  | EmptyString => false
  | String c s' => Ascii.eqb c Ascii.zero || hasNul s'
  end.

Section Client.
Context {BC SC : Type}.
Variable raisesBuffered : BC -> BufferedData -> Z -> option JsError.
Variable raisesStreaming : SC -> option string -> option Z -> option JsError.

Definition spawn (path : string) (args : list string) (timeout : Z)
  : M (Gateway.World BC SC) unit :=
  if existsb hasNul (path :: args) then throw TypeError
  else Gateway.spawn path args timeout.

Definition callBuffered (cb : BC) (data : BufferedData) (status : Z)
  : M (Gateway.World BC SC) unit :=
  Gateway.callBuffered cb data status ;;
  match raisesBuffered cb data status with
  | Some e => throw e
  | None => ret tt
  end.

Definition callStreaming (cb : SC) (data : option string)
           (status : option Z) : M (Gateway.World BC SC) bool :=
  r <- Gateway.callStreaming cb data status ;;
  match raisesStreaming cb data status with
  | Some e => throw e
  | None => ret r
  end.

Definition perform (c : GatewayCalls.Call BC SC)
  : M (Gateway.World BC SC) unit :=
  match c with
  | GatewayCalls.SetDefaultDevice d => Gateway.setDefaultDevice d
  | GatewayCalls.SelectDevice d => Gateway.selectDevice d
  | GatewayCalls.Version cb =>
      _ <- NP.version Gateway.gateway Gateway.update spawn cb ;; ret tt
  | GatewayCalls.Keys cb =>
      _ <- NP.keys Gateway.gateway Gateway.update spawn cb ;; ret tt
  | GatewayCalls.Devices cb =>
      _ <- NP.devices Gateway.gateway Gateway.update spawn cb ;; ret tt
  | GatewayCalls.Discover cb =>
      _ <- NP.discover Gateway.gateway Gateway.update spawn callBuffered cb ;;
      ret tt
  | GatewayCalls.ReprogApp cb =>
      _ <- NP.reprogApp Gateway.gateway Gateway.update spawn callStreaming
             cb ;;
      ret tt
  | GatewayCalls.Stdout data =>
      NP.onStdout Gateway.gateway Gateway.update callStreaming data
  | GatewayCalls.Error => NP.onError
  | GatewayCalls.Close code =>
      NP.onClose Gateway.gateway Gateway.update spawn callBuffered
                 callStreaming code
  end.

(** The gateway after the calls, one after the other.  A call that
    throws leaves the gateway as it was when it threw, and the next one
    comes all the same. *)
Definition after (calls : list (GatewayCalls.Call BC SC))
           (w : Gateway.World BC SC) : Gateway.World BC SC :=
  fold_left (fun w c => exec (perform c) w) calls w.
End Client.

End GatewayFaults.

(** *** The session manager where calls throw

    [new SerialPort] throws a TypeError when the path is the empty
    string, before [this.port] is assigned; and the callback of the
    client can throw ([raises] says what, if anything). *)

Module SessionFaults.

Section Client.
Context {DC : Type}.
Variable raises : DC -> SerialData -> option JsError.

Definition openPort (sp : SerialPort) : M (Session.World DC) unit :=
  if String.eqb (path sp) "" then throw TypeError
  else Session.emit (Session.Opened sp).

Definition callData (cb : DC) (data : SerialData)
  : M (Session.World DC) unit :=
  Session.emit (Session.Delivered cb data) ;;
  match raises cb data with
  | Some e => throw e
  | None => ret tt
  end.

Definition runCommand :=
  ARM.runCommand Session.arm Session.update openPort
                 (fun t => Session.emit (DC:=DC) (Session.Written t)).

Definition onData :=
  ARM.onData Session.arm Session.update
             (fun sp => Session.emit (Session.Closed sp)) callData.

Definition perform (c : SessionCalls.Call DC) : M (Session.World DC) unit :=
  match c with
  | SessionCalls.SetDevice d => Session.setDevice d
  | SessionCalls.RunCommand command cb =>
      _ <- runCommand command cb ;; ret tt
  | SessionCalls.Opened error => ARM.onOpened error
  | SessionCalls.Written error => ARM.onWritten error
  | SessionCalls.Data data => onData data
  end.

(** The session after the calls; a call that throws leaves it as it was
    when it threw. *)
Definition after (calls : list (SessionCalls.Call DC))
           (w : Session.World DC) : Session.World DC :=
  fold_left (fun w c => exec (perform c) w) calls w.
End Client.

End SessionFaults.

(* ====================================================================== *)
(** ** The lines the two parsers of Product.ts take *)
(* ====================================================================== *)

Module Lines.

(** [s.includes(c)] for one character. *)
Fixpoint contains (c : ascii) (s : string) : bool :=
  match s with
  | EmptyString => false
  | String x s' => Ascii.eqb x c || contains c s'
  end.

(** No character of [s] is white space. *)
Fixpoint solid (s : string) : bool :=
  match s with
  | EmptyString => true
  | String x s' => negb (Js.is_white x) && solid s'
  end.

(** Every character of [s] is white space. *)
Fixpoint white (s : string) : bool :=
  match s with
  | EmptyString => true
  | String x s' => Js.is_white x && white s'
  end.

(** A run of white space: one character or more, all white space. *)
Definition blank (s : string) : bool :=
  match s with
  | EmptyString => false
  | String _ _ => white s
  end.

(** The label of a line of npconfig: what is before the first colon,
    trimmed. *)
Definition label (line : string) : string :=
  Js.trim (hd "" (Js.split Js.colon line)).

(** The label of the line is a key of the table, its own or inherited. *)
Definition recognised (line : string) : bool :=
  match Product.lookup Product.productPropertyLookup (label line) with
  | Some _ => true
  | None => false
  end.

(** A line with a label of the table and no colon. *)
Definition incomplete (line : string) : bool :=
  recognised line && negb (contains Js.colon line).

End Lines.

(* ====================================================================== *)
(** ** The orchestrator under any input *)
(* ====================================================================== *)

Module Loop.

(** What the event loop can hand to the main process: the call of
    [start], a message on the command or the config channel (decoded),
    the timer, the events of the npconfig process and of the debug port,
    and the answers of the store. *)
Inductive Input : Type :=
| Start
| Command (event : AllEvents)
| Config (config : IPC.Configs) (value : string)
| TimerFired
| Stdout (data : string)
| Close (code : option Z)
| PortData (data : string)
| Listed (req : ListRequest) (res : ListResult)
| Got (req : GetRequest) (res : GetResult).

Definition react (i : Input) : M Machine unit :=
  match i with
  | Start => Fsm.start
  | Command event => Fsm.onCommand event
  | Config config value => Fsm.onConfig config value
  | TimerFired => Fsm.onTimeout
  | Stdout data => Fsm.onStdout data
  | Close code => Fsm.onClose code
  | PortData data => Fsm.onData data
  | Listed req res => Fsm.listObjectsDone req res
  | Got req res => Fsm.getObjectDone req res
  end.

(** The machine after the inputs, one callback after the other.  A
    callback that throws leaves the machine as it was when it threw, and
    the loop goes on. *)
Definition after (inputs : list Input) (m : Machine) : Machine :=
  fold_left (fun m i => exec (react i) m) inputs m.

(** Downloads completing one after the other, as the loop sees them. *)
Definition downloads (cs : list (GetRequest * GetResult)) : list Input :=
  map (fun c => Got (fst c) (snd c)) cs.

(** The states a call of [enterState] that can run names. *)
Definition hasWayIn (s : IPC.States) : bool :=
  match s with
  | IPC.CheckFailedOffline | IPC.DetectedCurrent => false
  | _ => true
  end.

Definition inService (m : Machine) : Prop :=
  match currentState m with
  | Some s => hasWayIn s = true
  | None => True
  end.

(** [c] leaves the machine in service, however it ends. *)
Definition keeps {A : Type} (c : M Machine A) : Prop :=
  forall m, inService m -> inService (exec c m).

(** The close of a discovery that ended with status 0 and wrote a line
    that is a label with no colon. *)
Definition wedges (i : Input) (m : Machine) : bool :=
  match i with
  | Close (Some code) =>
      match streamingCallback (npconfig m), bufferedCallback (npconfig m) with
      | None, Some OnDiscovery =>
          (code =? 0)%Z
          && existsb Lines.incomplete (bufferedData (npconfig m))
      | _, _ => false
      end
  | _ => false
  end.

End Loop.

(** The machine in ConnectPrompt with no device: none was selected, and
    the listing of the devices has not ended. *)
Definition connectMachine : Machine :=
  Eval vm_compute in
    exec (Fsm.start ;;
          Fsm.onCommand IPC.Continue ;;
          Fsm.onRepositoryList None ;;
          Fsm.onCommand IPC.Continue)
         (Fsm.init true true).

(** The machine in DetectingManual with the device usb0 just selected,
    while the first command of [start] still runs and two listings of
    the devices wait in the queue. *)
Definition crowdedMachine : Machine :=
  Eval vm_compute in
    exec (Fsm.onCommand IPC.Continue ;;
          Fsm.onCommand IPC.Continue ;;
          Fsm.onConfig IPC.SelectedDevice "usb0")
         connectMachine.

(** The machine in Updating, the reprogramming of usb0 running. *)
Definition updatingMachine : Machine :=
  Eval vm_compute in
    exec (Fsm.onStdout ("Product Type: NSC222" ++ nl)%string ;;
          Fsm.onClose (Some 0%Z) ;;
          Fsm.onCommand IPC.Install)
         detectingMachine.

(* ====================================================================== *)
(** ** The transitions of the orchestrator, as a table *)
(* ====================================================================== *)

Module Table.

(** The state the handler of [s] asks for on [event]: the cases of the
    thirteen handlers that call [enterState]. *)
Definition target (s : IPC.States) (event : AllEvents) : option IPC.States :=
  match s, event with
  | IPC.Welcome, CommandEvent IPC.Continue => Some IPC.CheckingForUpdate
  | IPC.CheckingForUpdate, ControlEvent UpdateCheckSuccess =>
      Some IPC.ConnectPrompt
  | IPC.CheckingForUpdate, ControlEvent UpdateCheckFailure =>
      Some IPC.CheckFailedCached
  | IPC.CheckFailedOffline, CommandEvent IPC.Retry =>
      Some IPC.CheckingForUpdate
  | IPC.CheckFailedCached, CommandEvent IPC.Retry =>
      Some IPC.CheckingForUpdate
  | IPC.CheckFailedCached, CommandEvent IPC.Continue =>
      Some IPC.ConnectPrompt
  | IPC.ConnectPrompt, CommandEvent IPC.Retry => Some IPC.CheckingForUpdate
  | IPC.ConnectPrompt, CommandEvent IPC.Continue => Some IPC.Detecting
  | IPC.Detecting, ControlEvent DiscoverySuccess =>
      Some IPC.DetectedAvailable
  | IPC.Detecting, ControlEvent DiscoveryFailure => Some IPC.DetectionFailed
  | IPC.DetectionFailed, CommandEvent IPC.Retry => Some IPC.Detecting
  | IPC.DetectionFailed, CommandEvent IPC.Continue =>
      Some IPC.DetectingManual
  | IPC.DetectingManual, CommandEvent IPC.Connect => Some IPC.Detecting
  | IPC.DetectedAvailable, CommandEvent IPC.Install => Some IPC.Updating
  | IPC.DetectedCurrent, CommandEvent IPC.Restart => Some IPC.Welcome
  | IPC.Updating, ControlEvent ReprogrammingSuccess =>
      Some IPC.UpdateComplete
  | IPC.Updating, ControlEvent ReprogrammingFailure =>
      Some IPC.UpdateFailed
  | IPC.UpdateComplete, CommandEvent IPC.Restart => Some IPC.Welcome
  | IPC.UpdateFailed, CommandEvent IPC.Restart => Some IPC.Welcome
  | _, _ => None
  end.

(** The lifecycle events on which the handler of [s] calls an adapter
    or starts the timer. *)
Definition callsOut (s : IPC.States) (event : AllEvents) : bool :=
  match event with
  | LifecycleEvent Enter => negb (entersQuietly s)
  | LifecycleEvent Timeout =>
      match s with IPC.DetectedAvailable => true | _ => false end
  | _ => false
  end.

(** What entering a state adds to the trace between the log line of
    Enter and the hook, for the states whose entry does not depend on
    the gateway. *)
Definition onEnter (s : IPC.States) : option (list Effect) :=
  match s with
  | IPC.CheckingForUpdate =>
      Some [ListRequested {| listBucket := Fsm.bucketName;
                             listPrefix := "NonStreamers";
                             listExtension := Fsm.packageIndexExtension;
                             listCallback := OnRepositoryList |}]
  | IPC.DetectedAvailable => Some [TimerStarted 500]
  | IPC.Detecting | IPC.DetectingManual | IPC.Updating => None
  | _ => Some []
  end.

(** The machine after a transition from [s] to [t] caused by [event],
    with [effects] the calls made on entry. *)
Definition moved (s t : IPC.States) (event : AllEvents)
           (effects : list Effect) (m : Machine) : Machine :=
  Fsm.set_trace
    (trace m
       ++ [Injected (Some s) event]
       ++ (if ipcImplementation m
           then [IpcSent IPC.StateChannel (StateMessage t)] else [])
       ++ [Injected (Some s) Exit; Injected (Some t) Enter]
       ++ effects
       ++ (if onStateChange m then [StateChanged t] else []))
    (Fsm.set_currentState (Some t) m).

End Table.

(* ====================================================================== *)
(** ** The keys of a listing *)
(* ====================================================================== *)

Module Listing.

(** The keys of the objects listed that end in [extension], in the order
    of the listing; an object without key is passed over. *)
Fixpoint keysWith (extension : string) (objects : list (option string))
  : list string :=
  match objects with
  | [] => []
  | Some key :: rest =>
      if Js.endsWith key extension then key :: keysWith extension rest
      else keysWith extension rest
  | None :: rest => keysWith extension rest
  end.

(** The keys an answer of the store stands for. *)
Definition listed (extension : string) (res : ListResult) : list string :=
  match res with
  | ListData (Some objects) _ => keysWith extension objects
  | _ => []
  end.

End Listing.

(* ====================================================================== *)
(** ** IPC.ts: the messages on the wire and their decoders *)
(* ====================================================================== *)

(** The values that cross the bridge between the two processes, as far
    as the decoders and the handlers look at them.  A number is an
    integer or NaN ([None]). *)
#[warnings="-register-all"]
Inductive JsValue : Type :=
| VUndefined
| VNull
| VBoolean (b : bool)
| VNumber (n : option Z)
| VString (s : string)
| VArray (items : list JsValue)
| VObject (fields : list (string * JsValue)).

Module Wire.

(** [Array.isArray(v)] *)
Definition isArray (v : JsValue) : bool :=
  match v with VArray _ => true | _ => false end.

(** [data[i]] for an array. *)
Definition element (items : list JsValue) (i : nat) : JsValue :=
  nth i items VUndefined.

Section Decoders.
Context {W : Type}.

Definition parseMessageAsNone (data : JsValue)
           (handler : JsValue -> M W unit) : M W bool :=
  match data with
  | VArray items =>
      if (List.length items =? 1)%nat && negb (isArray (element items 0))
      then handler (element items 0) ;; ret true
      else ret false
  | _ => ret false
  end.

(** [!Array.isArray(data[1]) && typeof data[1] === 'string'] holds of the
    strings only. *)
Definition parseMessageAsString (data : JsValue)
           (handler : JsValue -> string -> M W unit) : M W bool :=
  match data with
  | VArray items =>
      if (List.length items =? 2)%nat && negb (isArray (element items 0))
      then match element items 1 with
           | VString value => handler (element items 0) value ;; ret true
           | _ => ret false
           end
      else ret false
  | _ => ret false
  end.

Definition parseMessageAsUnknown (data : JsValue)
           (handler : JsValue -> JsValue -> M W unit) : M W bool :=
  match data with
  | VArray items =>
      if (List.length items =? 2)%nat && negb (isArray (element items 0))
      then if negb (isArray (element items 1))
           then handler (element items 0) (element items 1) ;; ret true
           else ret false
      else ret false
  | _ => ret false
  end.

(** The handler is typed for an array of strings; the elements are not
    looked at. *)
Definition parseMessageAsArray (data : JsValue)
           (handler : JsValue -> list JsValue -> M W unit) : M W bool :=
  match data with
  | VArray items =>
      if (List.length items =? 2)%nat && negb (isArray (element items 0))
      then match element items 1 with
           | VArray values => handler (element items 0) values ;; ret true
           | _ => ret false
           end
      else ret false
  | _ => ret false
  end.
End Decoders.

(** The values of the enumerations. *)
Definition commandName (c : IPC.Commands) : string :=
  match c with
  | IPC.Continue => "continue"
  | IPC.Retry => "retry"
  | IPC.Restart => "restart"
  | IPC.Select => "select"
  | IPC.Install => "install"
  | IPC.Connect => "connect"
  end.

Definition stateName (s : IPC.States) : string :=
  match s with
  | IPC.Welcome => "welcome"
  | IPC.CheckingForUpdate => "checking"
  | IPC.CheckFailedOffline => "offline"
  | IPC.CheckFailedCached => "cached"
  | IPC.ConnectPrompt => "connect"
  | IPC.Detecting => "detecting"
  | IPC.DetectionFailed => "noproduct"
  | IPC.DetectingManual => "manualselect"
  | IPC.DetectedCurrent => "current"
  | IPC.DetectedAvailable => "available"
  | IPC.Updating => "updating"
  | IPC.UpdateComplete => "updatecomplete"
  | IPC.UpdateFailed => "updatefailed"
  end.

Definition configIndex (c : IPC.Configs) : Z :=
  match c with
  | IPC.AvailableDevices => 0
  | IPC.SelectedDevice => 1
  | IPC.ProductDetails => 2
  | IPC.FirmwareVersions => 3
  | IPC.ReprogProgress => 4
  end.

Definition lifecycleName (e : Lifecycle) : string :=
  match e with
  | Enter => "enter"
  | Exit => "exit"
  | Timeout => "timeout"
  end.

Definition controlName (e : Controls) : string :=
  match e with
  | UpdateCheckSuccess => "check-success"
  | UpdateCheckFailure => "check-failure"
  | DiscoverySuccess => "discovery-success"
  | DiscoveryFailure => "discovery-failure"
  | ReprogrammingSuccess => "reprogramming-success"
  | ReprogrammingFailure => "reprogramming-failure"
  end.

Definition eventName (e : AllEvents) : string :=
  match e with
  | LifecycleEvent l => lifecycleName l
  | ControlEvent c => controlName c
  | CommandEvent c => commandName c
  end.

(** What [sendCommand], [sendStateChange] and [sendConfig] hand to the
    transport. *)
Definition commandMessage (c : IPC.Commands) : JsValue :=
  VArray [VString (commandName c)].

Definition stateMessage (s : IPC.States) : JsValue :=
  VArray [VString (stateName s)].

Definition configMessage (c : IPC.Configs) (value : JsValue) : JsValue :=
  VArray [VNumber (Some (configIndex c)); value].

(** The values the orchestrator sends with a config message. *)
Definition valueOf (v : ConfigValue) : JsValue :=
  match v with
  | DeviceList devices => VArray (map VString devices)
  | Details product =>
      VObject (map (fun kv => (fst kv, VString (snd kv))) product)
  | Percent percent => VNumber percent
  end.

Definition encode (message : Message) : JsValue :=
  match message with
  | StateMessage s => stateMessage s
  | ConfigMessage c v => configMessage c (valueOf v)
  end.

Definition allEvents : list AllEvents :=
  [ LifecycleEvent Enter; LifecycleEvent Exit; LifecycleEvent Timeout;
    ControlEvent UpdateCheckSuccess; ControlEvent UpdateCheckFailure;
    ControlEvent DiscoverySuccess; ControlEvent DiscoveryFailure;
    ControlEvent ReprogrammingSuccess; ControlEvent ReprogrammingFailure;
    CommandEvent IPC.Continue; CommandEvent IPC.Retry;
    CommandEvent IPC.Restart; CommandEvent IPC.Select;
    CommandEvent IPC.Install; CommandEvent IPC.Connect ].

(** [message as AllEvents], as the [switch] of a state handler sees it:
    the event whose value the message is, if it is the value of one. *)
Definition asEvent (message : JsValue) : option AllEvents :=
  match message with
  | VString s => find (fun e => String.eqb (eventName e) s) allEvents
  | _ => None
  end.

(** [message === IPC.Configs.X] *)
Definition isConfig (message : JsValue) (c : IPC.Configs) : bool :=
  match message with
  | VNumber (Some n) => (n =? configIndex c)%Z
  | _ => false
  end.

(** UpdaterStateMachine.ts, [onCommand] and [onConfig] on the data
    received.  A message that is the value of no event reaches the
    default case of the handler of the current state, which does
    nothing; the line [injectEvent] logs for it is not in the trace. *)
Definition onCommand (data : JsValue) : M Machine unit :=
  _ <- parseMessageAsNone data
         (fun message =>
            match asEvent message with
            | Some event => Fsm.injectEvent event
            | None => ret tt
            end) ;;
  ret tt.

Definition onConfig (data : JsValue) : M Machine unit :=
  _ <- parseMessageAsString data
         (fun message value =>
            if isConfig message IPC.SelectedDevice
            then Fsm.onConfig IPC.SelectedDevice value
            else ret tt) ;;
  ret tt.

(** The pages of the renderer, each with the state its handler sets:
    the message whose text, after a slash, is the URL navigated to
    (PageCommon.ts), the progress (UpdatingPage.tsx), the product
    (DetectedAvailablePage.tsx) and the devices (DetectedManualPage.tsx). *)
Definition installNavigateHandler (data : JsValue) : M JsValue unit :=
  _ <- parseMessageAsNone data (fun message => modify (fun _ => message)) ;;
  ret tt.

Definition updatingPage (data : JsValue) : M JsValue unit :=
  _ <- parseMessageAsUnknown data
         (fun message value =>
            if isConfig message IPC.ReprogProgress
            then modify (fun _ => value) else ret tt) ;;
  ret tt.

(** The handler logs [product.modelName] before it keeps the product:
    the access throws on null and undefined. *)
Definition detectedAvailablePage (data : JsValue) : M JsValue unit :=
  _ <- parseMessageAsUnknown data
         (fun message value =>
            if isConfig message IPC.ProductDetails
            then match value with
                 | VUndefined | VNull => throw TypeError
                 | _ => modify (fun _ => value)
                 end
            else ret tt) ;;
  ret tt.

Definition detectedManualPage (data : JsValue) : M (list JsValue) unit :=
  _ <- parseMessageAsArray data
         (fun message values =>
            if isConfig message IPC.AvailableDevices
            then modify (fun _ => values) else ret tt) ;;
  ret tt.

(** The forms a message can have. *)
Inductive Shape : Type :=
| Bare (message : JsValue)
| Valued (message value : JsValue)
| Listing (message : JsValue) (values : list JsValue)
| Malformed.

Definition shape (data : JsValue) : Shape :=
  match data with
  | VArray [message] =>
      if isArray message then Malformed else Bare message
  | VArray [message; value] =>
      if isArray message then Malformed
      else match value with
           | VArray values => Listing message values
           | _ => Valued message value
           end
  | _ => Malformed
  end.

End Wire.

(* ====================================================================== *)
(** ** UpdatePackage.ts: the package index parser *)
(* ====================================================================== *)

Module Package.

(** [v.key] and [v[key]] for the keys the parser reads (Upgrade, Package,
    $, name, reldate, location, release, ReleaseNotes, Component), none
    of which a prototype defines: the own property of an object,
    undefined on an array, a string, a number or a boolean, and a
    TypeError on null and undefined. *)
Definition prop (v : JsValue) (key : string) : Completion JsValue :=
  match v with
  | VUndefined | VNull => Throw TypeError
  | VObject fields =>
      Normal match find (fun kv => String.eqb (fst kv) key) fields with
             | Some kv => snd kv
             | None => VUndefined
             end
  | _ => Normal VUndefined
  end.

(** A property that is not there reads as undefined.  The [name] and the
    [location] of a package are [packageName] and [packageLocation], apart
    from those of a component. *)
Record UpdateComponent : Type := {
  name : JsValue;
  version : JsValue;
  location : JsValue
}.

(** [components = None] is the property not set. *)
Record UpdatePackage : Type := {
  packageName : JsValue;
  releaseDate : JsValue;
  releaseNotes : JsValue;
  packageLocation : JsValue;
  components : option (list UpdateComponent)
}.

(** [{}] *)
Definition empty : UpdatePackage :=
  {| packageName := VUndefined; releaseDate := VUndefined;
     releaseNotes := VUndefined; packageLocation := VUndefined;
     components := None |}.

Section Fields.
Implicit Type p : UpdatePackage.

Definition set_packageName (v : JsValue) p : UpdatePackage :=
  {| packageName := v; releaseDate := releaseDate p;
     releaseNotes := releaseNotes p; packageLocation := packageLocation p;
     components := components p |}.
Definition set_releaseDate (v : JsValue) p : UpdatePackage :=
  {| packageName := packageName p; releaseDate := v;
     releaseNotes := releaseNotes p; packageLocation := packageLocation p;
     components := components p |}.
Definition set_releaseNotes (v : JsValue) p : UpdatePackage :=
  {| packageName := packageName p; releaseDate := releaseDate p;
     releaseNotes := v; packageLocation := packageLocation p;
     components := components p |}.
Definition set_packageLocation (v : JsValue) p : UpdatePackage :=
  {| packageName := packageName p; releaseDate := releaseDate p;
     releaseNotes := releaseNotes p; packageLocation := v;
     components := components p |}.
Definition set_components (v : option (list UpdateComponent)) p
  : UpdatePackage :=
  {| packageName := packageName p; releaseDate := releaseDate p;
     releaseNotes := releaseNotes p; packageLocation := packageLocation p;
     components := v |}.
End Fields.

(** The parser object is its field [packageContents]; [None] is null. *)
Definition Parser : Type := option UpdatePackage.

(** An access that may throw, inside a method. *)
Definition read (v : JsValue) (key : string) : M Parser JsValue :=
  fun w => (w, prop v key).

(** An assignment to a property of [this.packageContents]. *)
Definition assign (f : UpdatePackage -> UpdatePackage) : M Parser unit :=
  modify (option_map f).

(** [this.packageContents?.components?.push(info)] *)
Definition push (info : UpdateComponent) : M Parser unit :=
  assign (fun p => match components p with
                   | Some l => set_components (Some (l ++ [info])) p
                   | None => p
                   end).

Definition isUndefined (v : JsValue) : bool :=
  match v with VUndefined => true | _ => false end.

(** The body of the [forEach] over the components. *)
Definition component (value : JsValue) : M Parser unit :=
  componentId <- read value "$" ;;
  if negb (isUndefined componentId) then
    n <- read componentId "name" ;;
    r <- read componentId "release" ;;
    l <- read componentId "location" ;;
    push {| name := n; version := r; location := l |}
  else ret tt.

Definition parseNonStreamerUpgrade (data : JsValue) : M Parser bool :=
  modify (fun _ => None) ;;
  packageArray <- read data "Package" ;;
  match packageArray with
  | VArray items =>
      if (List.length items =? 1)%nat then
        let packageInfo := Wire.element items 0 in
        if negb (isUndefined packageInfo) then
          modify (fun _ => Some empty) ;;
          packageId <- read packageInfo "$" ;;
          (if negb (isUndefined packageId) then
             n <- read packageId "name" ;;
             assign (set_packageName n) ;;
             d <- read packageId "reldate" ;;
             assign (set_releaseDate d) ;;
             l <- read packageId "location" ;;
             assign (set_packageLocation l)
           else ret tt) ;;
          notes <- read packageInfo "ReleaseNotes" ;;
          match notes with
          | VArray (first :: _) => assign (set_releaseNotes first)
          | _ => ret tt
          end ;;
          comps <- read packageInfo "Component" ;;
          match comps with
          | VArray values =>
              assign (set_components (Some [])) ;;
              forEach component values
          | _ => ret tt
          end
        else ret tt
      else ret tt
  | _ => ret tt
  end ;;
  contents <- gets (fun w : Parser => w) ;;
  ret (match contents with Some _ => true | None => false end).

Definition parseNP800Upgrade (data : JsValue) : M Parser bool := ret false.

Definition parseXMLObject (data : JsValue) : M Parser bool :=
  upgrade <- read data "Upgrade" ;;
  if negb (isUndefined upgrade) then
    ok <- parseNonStreamerUpgrade upgrade ;;
    if ok then ret true else parseNP800Upgrade upgrade
  else ret false.

Definition isValid : M Parser bool :=
  contents <- gets (fun w : Parser => w) ;;
  ret (match contents with Some _ => true | None => false end).

Definition packageDescription : M Parser (option UpdatePackage) :=
  gets (fun w : Parser => w).

(** *** What a package index stands for *)

(** A value with no null and no undefined in it, as a parser of XML
    builds them from elements, attributes and text. *)
Fixpoint clean (v : JsValue) : bool :=
  match v with
  | VUndefined | VNull => false
  | VArray items => forallb clean items
  | VObject fields => forallb (fun kv => clean (snd kv)) fields
  | _ => true
  end.

(** The property of a value that is neither null nor undefined. *)
Definition field (v : JsValue) (key : string) : JsValue :=
  match prop v key with Normal x => x | Throw _ => VUndefined end.

(** The attribute of an element: the property of its [$]. *)
Definition attribute (element : JsValue) (key : string) : JsValue :=
  match field element "$" with
  | VUndefined => VUndefined
  | attributes => field attributes key
  end.

(** The components of the entries that have attributes, in their order. *)
Definition componentsOf (values : list JsValue) : list UpdateComponent :=
  flat_map (fun value =>
              match field value "$" with
              | VUndefined => []
              | _ => [{| name := attribute value "name";
                         version := attribute value "release";
                         location := attribute value "location" |}]
              end) values.

(** The package a package element stands for. *)
Definition described (info : JsValue) : UpdatePackage :=
  {| packageName := attribute info "name";
     releaseDate := attribute info "reldate";
     releaseNotes :=
       match field info "ReleaseNotes" with
       | VArray (first :: _) => first
       | _ => VUndefined
       end;
     packageLocation := attribute info "location";
     components :=
       match field info "Component" with
       | VArray values => Some (componentsOf values)
       | _ => None
       end |}.

(** [c] leaves a parser that holds a package holding one, however it
    ends. *)
Definition stays {A : Type} (c : M Parser A) : Prop :=
  forall w, w <> None -> exec c w <> None.

End Package.

(* ====================================================================== *)
(** * Properties *)
(* ====================================================================== *)

Section GatewayProperties.
Context {BC SC : Type}.
Import Gateway.
Abbreviation GW := (Gateway.World BC SC).
Abbreviation mk := (@Gateway.mk BC SC).
Implicit Type w : GW.


(** [splice(0)] empties the array. *)
Lemma splice_clear (A : Type) (arr : list A) : Js.splice 0 None [] arr = [].
Proof.
  unfold Js.splice. cbn [Z.ltb Z.compare].
  rewrite Z.min_l by lia. cbn [Z.to_nat firstn app].
  replace (Z.to_nat (0 + (Z.of_nat (List.length arr) - 0))) with (List.length arr)
    by lia.
  apply skipn_all.
Qed.

(** [splice(-1, 0, ...items)] keeps every element and adds the items. *)
Lemma splice_insert_perm (A : Type) (items arr : list A) :
  Permutation (Js.splice (-1) (Some 0%Z) items arr) (arr ++ items).
Proof.
  unfold Js.splice. cbn [Z.ltb Z.compare].
  set (k := Z.max (Z.of_nat (List.length arr) + -1) 0).
  replace (k + Z.min (Z.max 0 0) (Z.of_nat (List.length arr) - k))%Z with k
    by lia.
  rewrite <- (firstn_skipn (Z.to_nat k) arr) at 3.
  rewrite <- app_assoc. apply Permutation_app_head, Permutation_app_comm.
Qed.

(** Where [splice(-1, 0, ...items)] puts the items: before the last
    element, when there is one. *)
Lemma splice_before_last (A : Type) (items init : list A) (x : A) :
  Js.splice (-1) (Some 0%Z) items (init ++ [x]) = init ++ items ++ [x].
Proof.
  unfold Js.splice. cbn [Z.ltb Z.compare]. rewrite length_app. cbn [List.length].
  replace (Z.max (Z.of_nat (List.length init + 1) + -1) 0)
    with (Z.of_nat (List.length init)) by lia.
  replace (Z.of_nat (List.length init)
           + Z.min (Z.max 0 0)
               (Z.of_nat (List.length init + 1) - Z.of_nat (List.length init)))%Z
    with (Z.of_nat (List.length init)) by lia.
  rewrite Nat2Z.id, firstn_app, firstn_all, Nat.sub_diag, skipn_app, skipn_all,
    Nat.sub_diag. cbn. now rewrite app_nil_r.
Qed.

Lemma accumulate_perm (chunks : list string) (data : BufferedData) :
  Permutation (accumulate chunks data) (data ++ flat_map fragments chunks).
Proof.
  revert data. induction chunks as [|c chunks IH]; intros data; cbn.
  - now rewrite app_nil_r.
  - unfold accumulate in IH. rewrite IH, app_assoc.
    apply Permutation_app_tail, splice_insert_perm.
Qed.

Lemma world_eta w :
  w = mk (bufferedCallback (gateway w)) (streamingCallback (gateway w))
         (bufferedData (gateway w)) (activeDevice (gateway w))
         (commandQueue (gateway w)) (events w).
Proof. destruct w as [[] ?]; reflexivity. Qed.

(** While a buffered command runs, stdout only grows the line list. *)
Lemma stdout_buffered chunks cb bd ad q ev :
  forEach onStdout chunks (mk (Some cb) None bd ad q ev)
  = (mk (Some cb) None (accumulate chunks bd) ad q ev, Normal tt).
Proof.
  revert bd. induction chunks as [|c chunks IH]; intros bd; [reflexivity|].
  cbn [forEach]. unfold bind at 1. cbn. apply IH.
Qed.

(** A buffered request on an idle gateway starts at once. *)
Lemma request_idle args (cb : BC) t bd ad q ev :
  runBuffered args cb t (mk None None bd ad q ev)
  = (mk (Some cb) None [] ad q (ev ++ [Spawned NP.npconfigPath args t]),
     Normal true).
Proof. cbn. now rewrite splice_clear. Qed.

(** The close of a buffered command: deliver, clear, start the head. *)
Lemma close_buffered code cb bd ad q ev :
  onClose code (mk (Some cb) None bd ad q ev)
  = (match q with
     | [] => mk None None bd ad []
                (ev ++ [BufferedDelivered cb bd (exitStatus code)])
     | c :: rest =>
         mk (Some (handler c)) None [] ad rest
            ((ev ++ [BufferedDelivered cb bd (exitStatus code)])
               ++ [Spawned NP.npconfigPath (parameters c)
                           NP.defaultCommandTimeoutMs])
     end, Normal tt).
Proof.
  destruct q as [|c rest]; cbn; [reflexivity|].
  now rewrite splice_clear.
Qed.

Lemma drain_order sessions : forall cb bd ad q ev,
  List.length sessions = S (List.length q) ->
  exists bd',
    forEach play sessions (mk (Some cb) None bd ad q ev)
    = (mk None None bd' ad [] (ev ++ drained cb bd q sessions), Normal tt).
Proof.
  induction sessions as [|s sessions IH]; intros cb bd ad q ev Hlen;
    [discriminate|].
  cbn [forEach]. unfold bind at 1, play at 1. unfold bind at 1.
  rewrite stdout_buffered, close_buffered.
  destruct q as [|c rest].
  - destruct sessions; [|discriminate]. eexists. reflexivity.
  - cbn [List.length] in Hlen. injection Hlen as Hlen.
    destruct (IH (handler c) [] ad rest
                 ((ev ++ [BufferedDelivered cb (accumulate (fst s) bd)
                                            (exitStatus (snd s))])
                    ++ [Spawned NP.npconfigPath (parameters c)
                                NP.defaultCommandTimeoutMs]) Hlen)
      as [bd' ->].
    exists bd'. cbn [drained]. now rewrite <- !app_assoc.
Qed.

(** C2. While a buffered command runs, a further [runBuffered] is accepted
    and put at the tail of the queue as long as the queue holds fewer than
    2 commands, and refused, changing nothing, once it holds 2; when the
    running command closes, the queued commands are taken from the head
    and run one at a time, in the order they arrived: each is started
    only after the delivery of the one before. *)
Theorem runBuffered_queue_fifo w (cb0 : BC) :
  bufferedCallback (gateway w) = Some cb0 ->
  streamingCallback (gateway w) = None ->
  (forall args cb t,
      List.length (commandQueue (gateway w)) < 2 ->
      runBuffered args cb t w
      = (update (fun np =>
                   NP.set_commandQueue
                     (commandQueue np
                        ++ [{| parameters := args; handler := cb |}]) np) w,
         Normal true))
  /\ (forall args cb t,
        2 <= List.length (commandQueue (gateway w)) ->
        runBuffered args cb t w = (w, Normal false))
  /\ (forall sessions,
        List.length sessions = S (List.length (commandQueue (gateway w))) ->
        let w' := exec (forEach play sessions) w in
        outcome (forEach play sessions) w = Normal tt
        /\ events w'
           = events w ++ drained cb0 (bufferedData (gateway w))
                                 (commandQueue (gateway w)) sessions
        /\ NP.idle (gateway w') = true
        /\ commandQueue (gateway w') = []).
Proof.
  intros Hb Hs.
  destruct w as [[bc sc bd ad q] ev]; cbn [gateway events bufferedCallback
    streamingCallback bufferedData activeDevice commandQueue] in *.
  subst bc sc. split; [|split].
  - intros args cb t Hlen.
    destruct q as [|a [|b q]]; cbn in Hlen; try lia; reflexivity.
  - intros args cb t Hlen.
    destruct q as [|a [|b q]]; cbn in Hlen; try lia; reflexivity.
  - intros sessions Hlen. unfold outcome, exec.
    destruct (drain_order sessions cb0 bd ad q ev Hlen) as [bd' Hrun].
    unfold mk in Hrun. rewrite Hrun. cbn. repeat split.
Qed.

(** What the buffered mode does with the chunks: each one is trimmed and
    split on newlines, and every fragment becomes an entry of its own in
    the line list, so that the list delivered at the close holds the
    fragments of all the chunks, in some order.  Nothing joins the
    fragments of different chunks. *)
Lemma stdout_fragments_kept w args (cb : BC) t chunks code :
  NP.idle (gateway w) = true ->
  exists data,
    delivered (exec (bufferedRun args cb t (chunks, code)) w)
    = delivered w ++ [data]
    /\ In (BufferedDelivered cb data (exitStatus code))
          (events (exec (bufferedRun args cb t (chunks, code)) w))
    /\ Permutation data (flat_map fragments chunks)
    /\ (forall c1 c2,
          chunks = [c1; c2] ->
          fragments c1 = [Js.trim c1] -> fragments c2 = [Js.trim c2] ->
          List.length data = 2
          /\ Permutation data [Js.trim c1; Js.trim c2]).
Proof.
  intros Hidle. destruct w as [[bc sc bd ad q] ev].
  unfold NP.idle in Hidle; cbn in Hidle.
  destruct bc; [discriminate|]. destruct sc; [discriminate|].
  exists (accumulate chunks []).
  assert (Hrun :
    bufferedRun args cb t (chunks, code) (mk None None bd ad q ev)
    = onClose code
        (mk (Some cb) None (accumulate chunks []) ad q
            (ev ++ [Spawned NP.npconfigPath args t]))).
  { unfold bufferedRun, bind at 1. rewrite request_idle.
    unfold play, bind at 1. cbn [fst snd].
    now rewrite stdout_buffered. }
  assert (Hperm := accumulate_perm chunks []). cbn [app] in Hperm.
  fold (mk None None bd ad q ev). unfold exec. rewrite Hrun, close_buffered.
  assert (Hdel : forall l l' : list (Event BC SC),
             flat_map (fun e => match e with
                                | BufferedDelivered _ d _ => [d]
                                | _ => []
                                end) (l ++ l')
             = flat_map (fun e => match e with
                                  | BufferedDelivered _ d _ => [d]
                                  | _ => []
                                  end) l
               ++ flat_map (fun e => match e with
                                     | BufferedDelivered _ d _ => [d]
                                     | _ => []
                                     end) l')
    by (intros; apply flat_map_app).
  repeat split.
  - destruct q; unfold delivered; cbn [fst events mk];
      rewrite !Hdel; cbn; now rewrite !app_nil_r.
  - destruct q; cbn [fst events mk]; rewrite ?in_app_iff; cbn; tauto.
  - exact Hperm.
  - subst chunks. rewrite (Permutation_length Hperm). cbn.
    rewrite H0, H1. reflexivity.
  - subst chunks. cbn [flat_map] in Hperm.
    rewrite H0, H1 in Hperm. exact Hperm.
Qed.

(** C6. With a command in flight, buffered or streaming, [runStreaming]
    returns false and changes nothing: the command is not started and not
    queued.  In any state [runStreaming] leaves the queue as it is. *)
Theorem runStreaming_busy_rejected w args (cb : SC) t :
  (bufferedCallback (gateway w) <> None
   \/ streamingCallback (gateway w) <> None ->
   runStreaming args cb t w = (w, Normal false))
  /\ commandQueue (gateway (exec (runStreaming args cb t) w))
     = commandQueue (gateway w).
Proof.
  destruct w as [[bc sc bd ad q] ev]. split.
  - cbn. intros [H|H]; destruct bc, sc; try reflexivity; now elim H.
  - destruct bc, sc; reflexivity.
Qed.

(** C7. A close with a null exit code reports status 1 to the callback
    that is registered, streaming or buffered; and whatever the exit
    code, the status a streaming callback gets at the close is a number,
    never null. *)
Theorem onClose_null_code_is_1 w :
  (forall cb, streamingCallback (gateway w) = Some cb ->
     exists rest,
       events (exec (onClose None) w)
       = events w ++ StreamingDelivered cb (Some "") (Some 1%Z) :: rest)
  /\ (forall cb, streamingCallback (gateway w) = None ->
        bufferedCallback (gateway w) = Some cb ->
        exists rest,
          events (exec (onClose None) w)
          = events w
              ++ BufferedDelivered cb (bufferedData (gateway w)) 1%Z :: rest)
  /\ (forall code cb data status,
        In (StreamingDelivered cb data status)
           (skipn (List.length (events w)) (events (exec (onClose code) w))) ->
        status = Some (exitStatus code)).
Proof.
  destruct w as [[bc sc bd ad q] ev]. cbn [gateway events streamingCallback
    bufferedCallback bufferedData]. repeat split.
  - intros cb ->. destruct bc, q as [|c0 [|c1 [|c2 q]]]; cbn;
      rewrite <- ?app_assoc; eexists; reflexivity.
  - intros cb -> ->. destruct q; cbn; rewrite <- ?app_assoc;
      eexists; reflexivity.
  - intros code cb data status.
    assert (Hskip : forall l : list (Event BC SC),
               skipn (List.length ev) (ev ++ l) = l).
    { intros l. rewrite skipn_app, skipn_all, Nat.sub_diag. reflexivity. }
    destruct sc, bc, q as [|c0 [|c1 [|c2 q]]]; cbn;
      rewrite <- ?app_assoc, ?Hskip;
      try (rewrite <- (app_nil_r ev) at 2; rewrite Hskip);
      cbn; intros H; repeat destruct H as [H|H]; try discriminate;
      try contradiction; try (injection H as _ _ <-; reflexivity).
Qed.

(** C10. [setDefaultDevice] sets the active device only when none is
    set: a device chosen before, by [selectDevice] or by an earlier
    [setDefaultDevice], stays. *)
Theorem setDefaultDevice_keeps_selection w (d d' : string) :
  activeDevice (gateway (exec (setDefaultDevice d) w))
  = Some (match activeDevice (gateway w) with Some a => a | None => d end)
  /\ exec (setDefaultDevice d') (exec (selectDevice d) w)
     = exec (selectDevice d) w
  /\ exec (setDefaultDevice d') (exec (setDefaultDevice d) w)
     = exec (setDefaultDevice d) w.
Proof.
  destruct w as [[bc sc bd [a|] q] ev]; repeat split; reflexivity.
Qed.
End GatewayProperties.

(** Concrete gateways, with numbers for callbacks. *)

Lemma runBuffered_queue_fifo_witness :
  Gateway.runBuffered ["-r "; "usb0"] 2 20000%Z busyGateway
  = (Gateway.update
       (fun np =>
          NP.set_commandQueue
            (commandQueue np
               ++ [{| parameters := ["-r "; "usb0"]; handler := 2 |}]) np)
       busyGateway, Normal true)
  /\ Gateway.events
       (exec (forEach Gateway.play
                [([("1.2.3" ++ nl)%string], Some 0%Z);
                 ([("usb0" ++ nl)%string], None)])
             busyGateway)
     = [ Gateway.BufferedDelivered 0 ["1.2.3"] 0%Z;
         Gateway.Spawned "~/bin/npconfig" ["-x"] 20000%Z;
         Gateway.BufferedDelivered 1 ["usb0"] 1%Z ].
Proof.
  destruct (runBuffered_queue_fifo busyGateway (cb0:=0) eq_refl eq_refl)
    as (Hroom & _ & Hdrain).
  split.
  - apply Hroom. cbn. lia.
  - exact (proj1 (proj2 (Hdrain [([("1.2.3" ++ nl)%string], Some 0%Z);
                                  ([("usb0" ++ nl)%string], None)] eq_refl))).
Defined.

Lemma stdout_fragments_kept_witness :
  exists data,
    Gateway.delivered
      (exec (Gateway.bufferedRun ["-v"] 0 20000%Z (["1.2"; ".3"], Some 0%Z))
            (Gateway.fresh (SC:=nat)))
    = [data]
    /\ List.length data = 2
    /\ Permutation data ["1.2"; ".3"].
Proof.
  destruct (stdout_fragments_kept (Gateway.fresh (SC:=nat)) ["-v"] 0 20000%Z
              ["1.2"; ".3"] (Some 0%Z) eq_refl)
    as (data & Hdel & _ & _ & Htwo).
  exists data. split; [exact Hdel|].
  exact (Htwo "1.2" ".3" eq_refl eq_refl eq_refl).
Defined.

(** C4 does not hold of the code, and the code is at fault.  The version
    command answers with the one line "1.2.3"; when that line comes in
    the two chunks "1.2" and ".3", the callback gets the list
    [".3"; "1.2"]: two entries where [onStdout] says that a single line
    response has one, and the later piece before the earlier one.  The
    line is not reassembled, [bufferedData] does not hold the lines of
    the output, and the insertion before the last entry puts them out of
    order. *)
Theorem stdout_line_split_across_chunks :
  Gateway.delivered
    (exec (Gateway.bufferedRun ["-v"] 0 20000%Z (["1.2"; ".3"], Some 0%Z))
          (Gateway.fresh (SC:=nat)))
  = [[".3"; "1.2"]]
  /\ Gateway.delivered
       (exec (Gateway.bufferedRun ["-v"] 0 20000%Z (["1.2"; ".3"], Some 0%Z))
             (Gateway.fresh (SC:=nat)))
     <> [["1.2.3"]].
Proof. split; [reflexivity|]. intros H. vm_compute in H. discriminate H. Qed.

(** The order of the lines is another matter: the fragments of a later
    chunk go before the last line held, not after it. *)
Example stdout_later_chunk_before_last_line :
  Gateway.delivered
    (exec (Gateway.bufferedRun ["-x"] 0 20000%Z
             ([("usb0" ++ nl ++ "usb1" ++ nl)%string; ("usb2" ++ nl)%string],
              Some 0%Z))
          (Gateway.fresh (SC:=nat)))
  = [["usb0"; "usb2"; "usb1"]].
Proof. reflexivity. Qed.

Lemma runStreaming_busy_rejected_witness :
  Gateway.runStreaming ["-l"] 5 20000%Z busyGateway
  = (busyGateway, Normal false).
Proof.
  apply (proj1 (runStreaming_busy_rejected busyGateway ["-l"] 5 20000%Z)).
  left. discriminate.
Defined.

Lemma onClose_null_code_is_1_witness :
  exists rest,
    Gateway.events (exec (Gateway.onClose None) busyGateway)
    = [] ++ Gateway.BufferedDelivered 0 [] 1%Z :: rest.
Proof.
  exact (proj1 (proj2 (onClose_null_code_is_1 busyGateway)) 0 eq_refl eq_refl).
Defined.

(** The version query of the design document: accepted on an idle
    gateway, and the one line written is delivered with the exit code. *)
Example version_query :
  let run :=
    _ <- Gateway.runBuffered ["-v"] 0 20000%Z ;;
    Gateway.play ([("1.2.3" ++ nl)%string], Some 0%Z) in
  outcome run (Gateway.fresh (SC:=nat)) = Normal tt
  /\ Gateway.events (exec run (Gateway.fresh (SC:=nat)))
     = [ Gateway.Spawned "~/bin/npconfig" ["-v"] 20000%Z;
         Gateway.BufferedDelivered 0 ["1.2.3"] 0%Z ].
Proof. split; reflexivity. Qed.

(* ---------------------------------------------------------------------- *)
(** ** The debug session manager *)
(* ---------------------------------------------------------------------- *)

Section SessionProperties.
Context {DC : Type}.
Import Session.
Implicit Type w : Session.World DC.

(** With a device set and no port held, a command is accepted: the port
    is opened, the command written, the session active. *)
Lemma runCommand_accepted w dev command (cb : option DC) :
  port (arm w) = None -> device (arm w) = Some dev ->
  let sp := {| path := dev; baudRate := ARM.debugPortBaudRate |} in
  runCommand command cb w
  = ({| arm := {| device := Some dev; port := Some sp;
                  dataCallback := cb; responseData := "" |};
        events := (events w ++ [Opened sp])
                    ++ [Written ("mfg " ++ command ++ nl)%string] |},
     Normal true).
Proof.
  destruct w as [[d p c r] ev]. cbn. intros -> ->. reflexivity.
Qed.

(** When the accumulated response ends in the prompt line, the lines are
    handed to the callback, the port is closed and forgotten and the
    callback cleared: the session is idle and takes a command again. *)
Lemma onData_prompt_completes w sp (cb : DC) dev data :
  port (arm w) = Some sp -> dataCallback (arm w) = Some cb ->
  device (arm w) = Some dev ->
  let lines :=
    Js.split Js.newline (responseData (arm w) ++ Js.trim data)%string in
  Js.lastOf lines = Some ARM.prompt ->
  let w' := exec (onData data) w in
  outcome (onData data) w = Normal tt
  /\ events w' = events w ++ [Delivered cb lines; Closed sp]
  /\ port (arm w') = None /\ dataCallback (arm w') = None
  /\ isIdle w' = true
  /\ forall command cb', outcome (runCommand command cb') w' = Normal true.
Proof.
  intros Hp Hc Hd lines Hlast.
  destruct w as [[d p c r] ev]. cbn in Hp, Hc, Hd. subst d p c.
  subst lines. cbn [arm responseData] in *.
  remember (Js.split Js.newline (r ++ Js.trim data)) as lines eqn:E.
  assert (Hlen : (0 <? List.length lines)%nat = true)
    by (destruct lines; [discriminate Hlast | reflexivity]).
  unfold outcome, exec, onData, ARM.onData, bind, gets, modify.
  cbn [arm responseData update ARM.set_responseData fst snd device port
       dataCallback events].
  rewrite <- E, Hlen, Hlast.
  cbn. rewrite <- app_assoc. repeat split.
Qed.
End SessionProperties.

(** C5 fails on the code. The response [app v0.0.0  29380], then the
    prompt, comes in two chunks split after "app ", inside the first line.
    Each chunk is trimmed before it is appended, so the space at the split
    is lost: the callback gets the line "appv0.0.0  29380", where the
    response holds "app v0.0.0  29380". *)
Theorem onData_split_at_space_joins_words :
  let c1 := "app " in
  let c2 := ("v0.0.0  29380" ++ nl ++ "-")%string in
  let w :=
    exec (_ <- Session.runCommand "version host" (Some 0) ;;
          Session.onData c1 ;; Session.onData c2) readySession in
  Session.delivered w = [["appv0.0.0  29380"; "-"]]
  /\ Session.responseLines (c1 ++ c2) = ["app v0.0.0  29380"; "-"]
  /\ Session.isIdle w = true.
Proof. repeat split. Qed.

(* ---------------------------------------------------------------------- *)
(** ** Product details *)
(* ---------------------------------------------------------------------- *)

(** Lines of the form [label: value] with a label of the table set the
    field of the label; other lines with a colon are passed over. *)
Example npconfigToProductDetails_sample :
  Product.npconfigToProductDetails
    ["Product Type: NSC222"; "Product Variant: 255"; "Connected: yes";
     "Serial Number: 881412"]
  = Normal [("modelName", "NSC222"); ("modelVariant", "255");
            ("serialNumber", "881412")].
Proof. reflexivity. Qed.

(** C9 fails on the code. A line that is a label of the table with no
    colon after it has no second field: [value] is undefined and
    [value.trim()] throws. *)
Theorem npconfigToProductDetails_throws :
  Product.npconfigToProductDetails ["Product Type: NSC222"; "Serial Number"]
  = Throw TypeError.
Proof. reflexivity. Qed.

(** In the orchestrator the exception leaves through [onClose], before
    the buffered callback is cleared: the discovery never reports, the
    machine stays in Detecting and the gateway stays busy. *)
Example discovery_label_without_colon :
  let run :=
    Fsm.onStdout ("Product Type: NSC222" ++ nl ++ "Serial Number" ++ nl)%string ;;
    Fsm.onClose (Some 0%Z) in
  currentState detectingMachine = Some IPC.Detecting
  /\ outcome run detectingMachine = Throw TypeError
  /\ currentState (exec run detectingMachine) = Some IPC.Detecting
  /\ bufferedCallback (npconfig (exec run detectingMachine))
     = Some OnDiscovery.
Proof. vm_compute. repeat split. Qed.

(* ---------------------------------------------------------------------- *)
(** ** The orchestrator *)
(* ---------------------------------------------------------------------- *)

Lemma States_beq_refl (s : IPC.States) : IPC.States_beq s s = true.
Proof. destruct s; reflexivity. Qed.

(** One level of [injectEvent]. *)
Lemma injectEventN_S (n : nat) (event : AllEvents) :
  Fsm.injectEventN (S n) event
  = Fsm.Handlers.dispatch (Fsm.injectEventN n) event.
Proof. reflexivity. Qed.

(** No handler does anything on Exit. *)
Lemma injectEventN_Exit (n : nat) (m : Machine) :
  Fsm.injectEventN (S n) Exit m = (logged Exit m, Normal tt).
Proof.
  rewrite injectEventN_S. destruct m as [ipc [st|] np arm pd fv hook bs tr];
    [destruct st|]; reflexivity.
Qed.

Lemma injectEventN_Enter_quiet (n : nat) (m : Machine) (s : IPC.States) :
  currentState m = Some s -> entersQuietly s = true ->
  Fsm.injectEventN (S n) Enter m = (logged Enter m, Normal tt).
Proof.
  rewrite injectEventN_S. destruct m as [ipc cur np arm pd fv hook bs tr].
  cbn [currentState]. intros -> Hq.
  destruct s; try discriminate Hq; reflexivity.
Qed.

(** C3. [enterState(S)] with [S] current does nothing at all: the machine,
    its trace included, is as it was.  So no Exit and no Enter is
    injected, nothing is sent on the state channel, and the
    [onStateChange] hook is not called. *)
Theorem enterState_current_is_noop (m : Machine) (S : IPC.States) :
  currentState m = Some S ->
  Fsm.enterState S m = (m, Normal tt).
Proof.
  intros H. unfold Fsm.enterState, Fsm.Handlers.enterState, bind, gets.
  rewrite H. cbn [Fsm.Handlers.isCurrent negb]. now rewrite States_beq_refl.
Qed.

Lemma enterState_current_is_noop_witness :
  Fsm.enterState IPC.Welcome welcomeMachine = (welcomeMachine, Normal tt).
Proof.
  apply (@enterState_current_is_noop welcomeMachine IPC.Welcome). reflexivity.
Defined.

(** A transition from [s] to a different state [t] that is entered
    quietly, one level or more above the floor. *)
Lemma enterState_quiet (n : nat) (m : Machine) (s t : IPC.States) :
  currentState m = Some s -> IPC.States_beq s t = false ->
  entersQuietly t = true ->
  Fsm.Handlers.enterState (Fsm.injectEventN (S n)) t m
  = (Fsm.set_trace
       (trace m
          ++ (if ipcImplementation m
              then [IpcSent IPC.StateChannel (StateMessage t)] else [])
          ++ [Injected (Some s) Exit; Injected (Some t) Enter]
          ++ (if onStateChange m then [StateChanged t] else []))
       (Fsm.set_currentState (Some t) m), Normal tt).
Proof.
  intros Hs Hne Hq. destruct m as [ipc cur np arm pd fv hook bs tr].
  cbn [currentState] in Hs. subst cur.
  unfold Fsm.Handlers.enterState, bind at 1, gets.
  cbn [currentState Fsm.Handlers.isCurrent]. rewrite Hne. cbn [negb].
  unfold bind at 1.
  destruct ipc; cbn -[Fsm.injectEventN].
  - unfold bind at 1. rewrite injectEventN_Exit. cbn -[Fsm.injectEventN].
    unfold bind at 1.
    erewrite injectEventN_Enter_quiet by (try reflexivity; exact Hq).
    destruct hook; unfold logged, Fsm.emit, modify, ret; cbn;
      rewrite <- ?app_assoc; reflexivity.
  - unfold bind at 1. rewrite injectEventN_Exit. cbn -[Fsm.injectEventN].
    unfold bind at 1.
    erewrite injectEventN_Enter_quiet by (try reflexivity; exact Hq).
    destruct hook; unfold logged, Fsm.emit, modify, ret; cbn;
      rewrite <- ?app_assoc; reflexivity.
Qed.

(** C8. In CheckingForUpdate, an empty list from the repository moves the
    machine to CheckFailedCached, whatever else holds in the machine: the
    failure is injected, the state change to CheckFailedCached is sent,
    the old state is left and the new one entered.  CheckFailedOffline
    appears nowhere. *)
Theorem empty_list_goes_to_cached (m : Machine) :
  currentState m = Some IPC.CheckingForUpdate ->
  let m' := exec (Fsm.onRepositoryList (Some [])) m in
  outcome (Fsm.onRepositoryList (Some [])) m = Normal tt
  /\ currentState m' = Some IPC.CheckFailedCached
  /\ trace m'
     = trace m
         ++ [Injected (Some IPC.CheckingForUpdate) UpdateCheckFailure]
         ++ (if ipcImplementation m
             then [IpcSent IPC.StateChannel (StateMessage IPC.CheckFailedCached)]
             else [])
         ++ [Injected (Some IPC.CheckingForUpdate) Exit;
             Injected (Some IPC.CheckFailedCached) Enter]
         ++ (if onStateChange m
             then [StateChanged IPC.CheckFailedCached] else []).
Proof.
  intros H.
  assert (Hrun :
    Fsm.onRepositoryList (Some []) m
    = Fsm.Handlers.enterState (Fsm.injectEventN 7) IPC.CheckFailedCached
        (logged UpdateCheckFailure m)).
  { unfold Fsm.onRepositoryList, Fsm.Handlers.onRepositoryList,
      Fsm.injectEvent, Fsm.levels.
    rewrite injectEventN_S. unfold Fsm.Handlers.dispatch, bind at 1, gets.
    rewrite H. unfold logged. rewrite H. reflexivity. }
  unfold outcome, exec. rewrite Hrun.
  rewrite (@enterState_quiet 6 (logged UpdateCheckFailure m)
             IPC.CheckingForUpdate IPC.CheckFailedCached)
    by (try reflexivity; exact H).
  cbn. rewrite H, <- !app_assoc. repeat split.
Qed.

Lemma empty_list_goes_to_cached_witness :
  currentState (exec (Fsm.onRepositoryList (Some [])) checkingMachine)
  = Some IPC.CheckFailedCached.
Proof.
  exact (proj1 (proj2 (empty_list_goes_to_cached checkingMachine eq_refl))).
Defined.

(* ---------------------------------------------------------------------- *)
(** ** Download batches *)
(* ---------------------------------------------------------------------- *)

Lemma split_nonempty (sep : ascii) (s : string) :
  (0 <? List.length (Js.split sep s))%nat = true.
Proof.
  destruct s as [|c s]; [reflexivity|]. cbn.
  destruct (Ascii.eqb c sep); [reflexivity|].
  destruct (Js.split sep s); reflexivity.
Qed.

Lemma machine_eta (m : Machine) :
  m = {| ipcImplementation := ipcImplementation m;
         currentState := currentState m; npconfig := npconfig m;
         armMfg := armMfg m; productDetails := productDetails m;
         firmwareVersions := firmwareVersions m;
         onStateChange := onStateChange m; batches := batches m;
         trace := trace m |}.
Proof. destruct m; reflexivity. Qed.

(** The requests of [downloadFiles], one per key, in the order of the keys. *)
Lemma forEach_requests (keys : list string) (path : string) (b : BatchRef) :
  forall m,
    forEach (fun element =>
               let fragments := Js.split Js.slash element in
               if (0 <? List.length fragments)%nat then
                 let fileName :=
                   (path ++ "/" ++ Js.template (Js.lastOf fragments))%string in
                 Fsm.doDownloadFile element fileName OnRepositoryDownload b
               else ret tt) keys m
    = (Fsm.set_trace
         (trace m ++ map GetRequested (Batch.requestsFor keys path b)) m,
       Normal tt).
Proof.
  induction keys as [|key keys IH]; intros m.
  - cbn. rewrite app_nil_r. destruct m; reflexivity.
  - cbn [forEach]. unfold bind at 1. cbv zeta. rewrite split_nonempty.
    unfold Fsm.doDownloadFile, Fsm.emit, modify. rewrite IH.
    destruct m; cbn. now rewrite <- app_assoc.
Qed.

Lemma downloadFiles_spec (m : Machine) (keys : list string) (path : string) :
  Fsm.downloadFiles keys path OnRepositoryDownload m
  = (Fsm.set_trace
       (trace m
          ++ map GetRequested
               (Batch.requestsFor keys path (List.length (batches m))))
       (Fsm.set_batches
          (batches m
             ++ [{| completed := 0; count := Z.of_nat (List.length keys);
                    success := 0 |}]) m),
     Normal tt).
Proof.
  unfold Fsm.downloadFiles, Fsm.newBatch, bind, gets, modify, ret.
  rewrite forEach_requests. destruct m; reflexivity.
Qed.

Lemma nth_error_replaced b bt bt0 bs :
  nth_error bs b = Some bt0 -> nth_error (replaced b bt bs) b = Some bt.
Proof.
  intros H. unfold replaced.
  assert (Hlt : b < List.length bs) by (apply nth_error_Some; congruence).
  rewrite nth_error_app2; rewrite length_firstn, Nat.min_l by lia; [|lia].
  now rewrite Nat.sub_diag.
Qed.

Lemma writeBatch_spec (m : Machine) b f bt :
  nth_error (batches m) b = Some bt ->
  Fsm.writeBatch b f m
  = (Fsm.set_batches (replaced b (f bt) (batches m)) m, Normal tt).
Proof.
  intros H. unfold Fsm.writeBatch, Fsm.readBatch, bind, gets, modify.
  now rewrite H.
Qed.

(** An update-check outcome injected from the event loop: it is logged,
    the handler of the current state runs to its end, and neither a batch
    nor a further outcome is touched. *)
Lemma inject_check_outcome (m : Machine) (c : Controls) :
  c = UpdateCheckSuccess \/ c = UpdateCheckFailure ->
  exists m' rest,
    Fsm.injectEvent c m = (m', Normal tt)
    /\ batches m' = batches m
    /\ trace m' = trace m ++ Injected (currentState m) c :: rest
    /\ Batch.outcomesInjected rest = []
    /\ Batch.reports rest = [].
Proof.
  intros Hc. unfold Fsm.injectEvent, Fsm.levels. rewrite injectEventN_S.
  destruct m as [ipc cur np arm pd fv hook bs tr].
  cbn [currentState batches trace].
  destruct cur as [st|].
  2:{ eexists _, []. split; [reflexivity|]. repeat split. }
  assert (Hquiet : forall t,
    IPC.States_beq IPC.CheckingForUpdate t = false ->
    entersQuietly t = true ->
    st = IPC.CheckingForUpdate ->
    exists m' rest,
      Fsm.Handlers.enterState (Fsm.injectEventN 7) t
        {| ipcImplementation := ipc; currentState := Some st;
           npconfig := np; armMfg := arm; productDetails := pd;
           firmwareVersions := fv; onStateChange := hook; batches := bs;
           trace := tr ++ [Injected (Some st) c] |}
      = (m', Normal tt)
      /\ batches m' = bs
      /\ trace m' = tr ++ Injected (Some st) c :: rest
      /\ Batch.outcomesInjected rest = []
      /\ Batch.reports rest = []).
  { intros t Hne Hq ->.
    rewrite (@enterState_quiet 6 _ IPC.CheckingForUpdate t)
      by (try reflexivity; assumption).
    eexists _, _. split; [reflexivity|]. cbn. split; [reflexivity|].
    split; [rewrite <- app_assoc; reflexivity|].
    destruct ipc, hook; split; reflexivity. }
  destruct Hc as [-> | ->]; destruct st;
    try (eexists _, []; split; [reflexivity|]; repeat split; fail).
  - apply (Hquiet IPC.ConnectPrompt); reflexivity.
  - apply (Hquiet IPC.CheckFailedCached); reflexivity.
Qed.

(** A completion whose write fails throws, and leaves the machine as it
    was: the batch is not counted, the download callback is not called. *)
Lemma getObjectDone_unwritten (m : Machine) req body :
  Fsm.getObjectDone req (GetDataUnwritten body) m = (m, Throw SystemError).
Proof. reflexivity. Qed.

Lemma getObjectDone_unwritten_exec (m : Machine) req body :
  exec (Fsm.getObjectDone req (GetDataUnwritten body)) m = m.
Proof. reflexivity. Qed.

(** One completion that gets past the write: the batch of the request
    counts one more, the callback logs what it sees, and injects the
    verdict when it sees the batch complete. *)
Lemma getObjectDone_step (m : Machine) req res k N s :
  Batch.unwritten res = false ->
  nth_error (batches m) (batch req)
  = Some {| completed := k; count := N; success := s |} ->
  let ok := Batch.succeeded res in
  let m' :=
    Fsm.set_trace
      (trace m ++ written req res
         ++ [DownloadLogged (filePath req) (k + 1) N ok])
      (Fsm.set_batches
         (replaced (batch req)
            {| completed := k + 1; count := N; success := s + bump ok |}
            (batches m)) m) in
  Fsm.getObjectDone req res m
  = if (k + 1 =? N)%Z
    then Fsm.injectEvent (Batch.verdict (s + bump ok)) m'
    else (m', Normal tt).
Proof.
  intros Hres H ok m'.
  assert (Hlt : batch req < List.length (batches m))
    by (apply nth_error_Some; congruence).
  assert (Hrep : forall x y bs,
             batch req < List.length bs ->
             replaced (batch req) y (replaced (batch req) x bs)
             = replaced (batch req) y bs).
  { intros x y bs Hb. unfold replaced.
    rewrite firstn_app, length_firstn, Nat.min_l, Nat.sub_diag by lia.
    rewrite firstn_firstn, Nat.min_id. cbn [firstn]. rewrite app_nil_r.
    f_equal. f_equal.
    rewrite skipn_app, length_firstn, Nat.min_l by lia.
    rewrite skipn_all2 by (rewrite length_firstn; lia).
    replace (S (batch req) - batch req) with 1 by lia. reflexivity. }
  destruct req as [key path [] b]. cbn [batch filePath getCallback] in *.
  destruct m as [ipc cur np arm pd fv hook bs tr]. cbn [batches trace] in *.
  unfold Fsm.getObjectDone, Fsm.Handlers.getObjectDone.
  cbn [batch filePath getCallback Fsm.Handlers.callDownload].
  set (w := match res with
            | GetData (Some body) => [FileWritten path body]
            | _ => []
            end).
  assert (Hfirst :
    (match res with
     | GetError | GetNoData => ret false
     | GetData (Some body) => Fsm.emit (FileWritten path body) ;; ret true
     | GetData None => ret false
     | GetDataUnwritten _ => throw SystemError
     end)
      {| ipcImplementation := ipc; currentState := cur; npconfig := np;
         armMfg := arm; productDetails := pd; firmwareVersions := fv;
         onStateChange := hook; batches := bs; trace := tr |}
    = ({| ipcImplementation := ipc; currentState := cur; npconfig := np;
          armMfg := arm; productDetails := pd; firmwareVersions := fv;
          onStateChange := hook; batches := bs; trace := tr ++ w |},
       Normal ok)).
  { subst w ok. destruct res as [| |[body|]|body]; try discriminate Hres;
      cbn; rewrite ?app_nil_r; reflexivity. }
  unfold bind at 1. rewrite Hfirst.
  unfold bind at 1.
  erewrite writeBatch_spec by exact H. cbn [Fsm.set_batches ipcImplementation
    currentState npconfig armMfg productDetails firmwareVersions onStateChange
    batches trace completed count success].
  unfold bind at 1.
  erewrite writeBatch_spec
    by (cbn [batches]; eapply nth_error_replaced; exact H).
  cbn [Fsm.set_batches ipcImplementation
    currentState npconfig armMfg productDetails firmwareVersions onStateChange
    batches trace completed count success].
  rewrite Hrep by exact Hlt.
  unfold Fsm.Handlers.onRepositoryDownload, Fsm.readBatch, bind at 1.
  unfold bind at 1, gets. cbn [batches Fsm.set_batches].
  erewrite nth_error_replaced by exact H.
  unfold bind at 1, Fsm.emit, modify.
  cbn [Fsm.set_trace ipcImplementation
    currentState npconfig armMfg productDetails firmwareVersions onStateChange
    batches trace completed count success].
  subst m'. cbn [Fsm.set_trace Fsm.set_batches ipcImplementation
    currentState npconfig armMfg productDetails firmwareVersions onStateChange
    batches trace]. unfold written. cbn [filePath]. fold w.
  cbn -[Fsm.injectEvent Z.add Z.eqb Z.ltb replaced app].
  rewrite <- app_assoc. unfold bump, Batch.verdict.
  destruct (k + 1 =? N)%Z; [|reflexivity].
  destruct (0 <? s + (if ok then 1 else 0))%Z; reflexivity.
Qed.

Lemma added_app (m m' : Machine) (t : list Effect) :
  trace m' = trace m ++ t -> Batch.added m m' = t.
Proof.
  intros H. unfold Batch.added.
  now rewrite H, skipn_app, skipn_all, Nat.sub_diag.
Qed.

Lemma reports_app (t t' : list Effect) :
  Batch.reports (t ++ t') = Batch.reports t ++ Batch.reports t'.
Proof. apply flat_map_app. Qed.

Lemma outcomesInjected_app (t t' : list Effect) :
  Batch.outcomesInjected (t ++ t')
  = Batch.outcomesInjected t ++ Batch.outcomesInjected t'.
Proof. apply flat_map_app. Qed.

(** One completion, seen from outside. *)
Lemma completion_effect (m : Machine) req res k N s :
  Batch.unwritten res = false ->
  nth_error (batches m) (batch req)
  = Some {| completed := k; count := N; success := s |} ->
  exists m' t,
    Fsm.getObjectDone req res m = (m', Normal tt)
    /\ nth_error (batches m') (batch req)
       = Some {| completed := k + 1; count := N;
                 success := s + bump (Batch.succeeded res) |}
    /\ trace m' = trace m ++ t
    /\ Batch.reports t = [((k + 1)%Z, N)]
    /\ Batch.outcomesInjected t
       = if (k + 1 =? N)%Z
         then [Batch.verdict (s + bump (Batch.succeeded res))] else [].
Proof.
  intros Hres H. rewrite (@getObjectDone_step m req res k N s Hres H). cbv zeta.
  set (m1 := Fsm.set_trace _ _).
  assert (Hb1 : nth_error (batches m1) (batch req)
                = Some {| completed := k + 1; count := N;
                          success := s + bump (Batch.succeeded res) |}).
  { subst m1. destruct m. cbn [batches Fsm.set_trace Fsm.set_batches] in *.
    eapply nth_error_replaced. exact H. }
  assert (Ht1 : trace m1
                = trace m ++ written req res
                    ++ [DownloadLogged (filePath req) (k + 1) N
                                       (Batch.succeeded res)]).
  { subst m1. destruct m. reflexivity. }
  assert (Hw : Batch.reports (written req res) = []
               /\ Batch.outcomesInjected (written req res) = []).
  { unfold written. destruct res as [| |[body|]|body]; split; reflexivity. }
  destruct Hw as [Hwr Hwo].
  destruct (k + 1 =? N)%Z.
  - destruct (@inject_check_outcome m1
                (Batch.verdict (s + bump (Batch.succeeded res))))
      as (m2 & rest & Hrun & Hb2 & Ht2 & Ho & Hr).
    { unfold Batch.verdict. destruct (0 <? _)%Z; [left|right]; reflexivity. }
    exists m2, ((written req res
                 ++ [DownloadLogged (filePath req) (k + 1) N
                                    (Batch.succeeded res)])
                ++ Injected (currentState m1)
                     (Batch.verdict (s + bump (Batch.succeeded res))) :: rest).
    split; [exact Hrun|]. split; [rewrite Hb2; exact Hb1|].
    split; [rewrite Ht2, Ht1, <- !app_assoc; reflexivity|].
    rewrite !reports_app, !outcomesInjected_app, Hwr, Hwo.
    change (Injected ?st ?e :: rest) with ([Injected st e] ++ rest).
    rewrite reports_app, outcomesInjected_app, Hr, Ho. split; [reflexivity|].
    unfold Batch.verdict. destruct (0 <? _)%Z; reflexivity.
  - exists m1, (written req res
                ++ [DownloadLogged (filePath req) (k + 1) N
                                   (Batch.succeeded res)]).
    split; [reflexivity|]. split; [exact Hb1|]. split; [exact Ht1|].
    rewrite !reports_app, !outcomesInjected_app, Hwr, Hwo. split; reflexivity.
Qed.

Lemma successes_snoc pre c :
  Batch.successes (pre ++ [c])
  = (Batch.successes pre + bump (Batch.succeeded (snd c)))%Z.
Proof.
  unfold Batch.successes. rewrite filter_app, length_app. cbn [filter].
  destruct (Batch.succeeded (snd c)); cbn [List.length bump]; lia.
Qed.

Lemma successes_cons c cs :
  Batch.successes (c :: cs)
  = (bump (Batch.succeeded (snd c)) + Batch.successes cs)%Z.
Proof.
  unfold Batch.successes. cbn [filter].
  destruct (Batch.succeeded (snd c)); cbn [List.length bump]; lia.
Qed.

Lemma forEach_app (W A : Type) (f : A -> M W unit) (l l' : list A) (w : W) :
  forEach f (l ++ l') w = (forEach f l ;; forEach f l') w.
Proof.
  revert w. induction l as [|a l IH]; intros w; cbn [app forEach].
  - reflexivity.
  - unfold bind. destruct (f a w) as [w' [x|e]]; [|reflexivity].
    rewrite IH. reflexivity.
Qed.

Lemma complete_app pre post (m : Machine) :
  Batch.complete (pre ++ post) m
  = (Batch.complete pre ;; Batch.complete post) m.
Proof. apply forEach_app. Qed.

(** The completions before the last one of a batch: each counts, none
    injects. *)
Lemma complete_before_last pre : forall (m : Machine) b N k s,
  nth_error (batches m) b
  = Some {| completed := k; count := N; success := s |} ->
  Forall (fun c => batch (fst c) = b) pre ->
  Batch.allWritten pre ->
  (k + Z.of_nat (List.length pre) < N)%Z ->
  exists m' t,
    Batch.complete pre m = (m', Normal tt)
    /\ nth_error (batches m') b
       = Some {| completed := k + Z.of_nat (List.length pre); count := N;
                 success := s + Batch.successes pre |}
    /\ trace m' = trace m ++ t
    /\ Batch.reports t
       = map (fun i => ((k + Z.of_nat i)%Z, N)) (seq 1 (List.length pre))
    /\ Batch.outcomesInjected t = [].
Proof.
  induction pre as [|c pre IH] using rev_ind;
    intros m b N k s Hb Hall Hwr Hlt.
  - exists m, []. cbn. rewrite app_nil_r, !Z.add_0_r.
    repeat split; assumption.
  - apply Forall_app in Hall as [Hpre Hc].
    apply Forall_inv in Hc.
    apply Forall_app in Hwr as [Hwpre Hwc].
    apply Forall_inv in Hwc. rewrite length_app in Hlt |- *.
    cbn [List.length] in Hlt |- *.
    destruct (IH m b N k s Hb Hpre Hwpre ltac:(lia))
      as (m1 & t1 & Hrun1 & Hb1 & Ht1 & Hr1 & Ho1).
    rewrite <- Hc in Hb1.
    destruct (@completion_effect m1 (fst c) (snd c) _ _ _ Hwc Hb1)
      as (m2 & t2 & Hrun2 & Hb2 & Ht2 & Hr2 & Ho2).
    exists m2, (t1 ++ t2). rewrite complete_app. unfold bind at 1.
    rewrite Hrun1. unfold Batch.complete at 1. cbn [forEach].
    unfold bind at 1. rewrite Hrun2. split; [reflexivity|].
    rewrite Hc in Hb2. rewrite Hb2, successes_snoc.
    split; [f_equal; f_equal; lia|].
    split; [rewrite Ht2, Ht1, app_assoc; reflexivity|].
    rewrite reports_app, outcomesInjected_app, Hr1, Hr2, Ho1, Ho2.
    replace (k + Z.of_nat (List.length pre) + 1 =? N)%Z with false
      by (symmetry; apply Z.eqb_neq; lia).
    split; [|reflexivity].
    rewrite seq_app, map_app. cbn [seq map]. f_equal. f_equal. f_equal. lia.
Qed.

Lemma requestsFor_batch keys path b :
  Forall (fun r => batch r = b) (Batch.requestsFor keys path b).
Proof.
  unfold Batch.requestsFor. apply Forall_map, Forall_forall. reflexivity.
Qed.

(** What the batch does when every write goes through.  A batch of
    N >= 1 files is asked for with [downloadFiles] and its N downloads
    complete in any order, each with an error, no data, no body, or a
    body that is written.  At the k-th completion the batch counts k
    completed, one more than before and at most N; the callback sees
    [completed == count] at the N-th completion and at no other; and the
    update-check outcome is injected then, once: success if a download
    succeeded, failure if none did. *)
Lemma batch_finishes_once (m : Machine) (keys : list string)
        (path : string) (cs : list (GetRequest * GetResult)) :
  keys <> [] ->
  let N := Z.of_nat (List.length keys) in
  let b := List.length (batches m) in
  let m1 := exec (Fsm.downloadFiles keys path OnRepositoryDownload) m in
  Permutation (map fst cs) (Batch.requestsFor keys path b) ->
  Batch.allWritten cs ->
  Batch.added m m1 = map GetRequested (Batch.requestsFor keys path b)
  /\ nth_error (batches m1) b
     = Some {| completed := 0; count := N; success := 0 |}
  /\ (forall pre c post,
        cs = pre ++ c :: post ->
        let before := exec (Batch.complete pre) m1 in
        let after := exec (Fsm.getObjectDone (fst c) (snd c)) before in
        let k := Z.of_nat (List.length pre) in
        outcome (Fsm.getObjectDone (fst c) (snd c)) before = Normal tt
        /\ nth_error (batches before) b
           = Some {| completed := k; count := N;
                     success := Batch.successes pre |}
        /\ nth_error (batches after) b
           = Some {| completed := k + 1; count := N;
                     success := Batch.successes (pre ++ [c]) |}
        /\ (k + 1 <= N)%Z
        /\ Batch.reports (Batch.added before after) = [((k + 1)%Z, N)]
        /\ ((k + 1)%Z = N <-> post = [])
        /\ Batch.outcomesInjected (Batch.added before after)
           = match post with
             | [] => [Batch.verdict (Batch.successes cs)]
             | _ :: _ => []
             end)
  /\ (let final := exec (Batch.complete cs) m1 in
      outcome (Batch.complete cs) m1 = Normal tt
      /\ Batch.reports (Batch.added m1 final)
         = map (fun i => (Z.of_nat i, N)) (seq 1 (List.length keys))
      /\ Batch.outcomesInjected (Batch.added m1 final)
         = [Batch.verdict (Batch.successes cs)]).
Proof.
  intros Hkeys N b m1 Hperm Hwr.
  assert (Hm1 : Fsm.downloadFiles keys path OnRepositoryDownload m
                = (m1, Normal tt)).
  { subst m1. unfold exec. now rewrite downloadFiles_spec. }
  assert (Ht1 : trace m1
                = trace m ++ map GetRequested (Batch.requestsFor keys path b)).
  { subst m1. unfold exec. rewrite downloadFiles_spec. destruct m; reflexivity. }
  assert (Hb1 : nth_error (batches m1) b
                = Some {| completed := 0; count := N; success := 0 |}).
  { subst m1 b. unfold exec. rewrite downloadFiles_spec.
    destruct m as [ipc cur np arm pd fv hook bs tr]. cbn.
    rewrite nth_error_app2, Nat.sub_diag by lia. reflexivity. }
  assert (Hlen : List.length cs = List.length keys).
  { rewrite <- (length_map fst cs), (Permutation_length Hperm).
    unfold Batch.requestsFor. apply length_map. }
  assert (Hall : Forall (fun c => batch (fst c) = b) cs).
  { apply Forall_map with (f := fst) (P := fun r => batch r = b).
    eapply Permutation_Forall; [symmetry; exact Hperm|].
    apply requestsFor_batch. }
  split; [apply added_app; exact Ht1|]. split; [exact Hb1|]. split.
  - intros pre c post Hcs before after k.
    assert (Hlens : List.length keys = List.length pre + S (List.length post)).
    { rewrite <- Hlen, Hcs, length_app. reflexivity. }
    rewrite Hcs in Hall. apply Forall_app in Hall as [Hpre Hrest].
    pose proof (Forall_inv Hrest) as Hc. cbv beta in Hc.
    unfold Batch.allWritten in Hwr. rewrite Hcs in Hwr.
    apply Forall_app in Hwr as [Hwpre Hwrest].
    pose proof (Forall_inv Hwrest) as Hwc. cbv beta in Hwc.
    destruct (@complete_before_last pre m1 b N 0%Z 0%Z Hb1 Hpre Hwpre
                ltac:(subst N; lia))
      as (m2 & t2 & Hrun2 & Hb2 & Ht2 & _ & _).
    cbn [Z.add] in Hb2.
    assert (Hbefore : before = m2) by (subst before; unfold exec; now rewrite Hrun2).
    rewrite <- Hc in Hb2.
    destruct (@completion_effect m2 (fst c) (snd c) _ _ _ Hwc Hb2)
      as (m3 & t3 & Hrun3 & Hb3 & Ht3 & Hr3 & Ho3).
    assert (Hafter : after = m3)
      by (subst after; rewrite Hbefore; unfold exec; now rewrite Hrun3).
    rewrite Hc in Hb2, Hb3.
    unfold outcome. rewrite Hbefore, Hafter, Hrun3.
    rewrite (@added_app _ _ _ Ht3), Hr3, Ho3, successes_snoc.
    fold k in Hb2, Hb3 |- *.
    split; [reflexivity|]. split; [exact Hb2|]. split; [exact Hb3|].
    split; [subst k N; lia|]. split; [reflexivity|].
    assert (Hiff : (k + 1)%Z = N <-> post = []).
    { subst k N. split.
      - intros Hk. destruct post; [reflexivity|]. cbn [List.length] in Hlens. lia.
      - intros ->. cbn [List.length] in Hlens. lia. }
    split; [exact Hiff|].
    destruct post as [|c' post].
    + rewrite (proj2 Hiff eq_refl), Z.eqb_refl, Hcs, successes_snoc.
      reflexivity.
    + replace (k + 1 =? N)%Z with false; [reflexivity|].
      symmetry. apply Z.eqb_neq. intros Hk. apply Hiff in Hk. discriminate.
  - cbv zeta.
    destruct (exists_last (l := cs)) as (pre & c & Hcs).
    { intros ->. destruct keys; [now elim Hkeys | discriminate Hlen]. }
    assert (Hlens : List.length keys = S (List.length pre)).
    { rewrite <- Hlen, Hcs, length_app. cbn. lia. }
    rewrite Hcs in Hall. apply Forall_app in Hall as [Hpre Hrest].
    pose proof (Forall_inv Hrest) as Hc. cbv beta in Hc.
    unfold Batch.allWritten in Hwr. rewrite Hcs in Hwr.
    apply Forall_app in Hwr as [Hwpre Hwrest].
    pose proof (Forall_inv Hwrest) as Hwc. cbv beta in Hwc.
    destruct (@complete_before_last pre m1 b N 0%Z 0%Z Hb1 Hpre Hwpre
                ltac:(subst N; lia))
      as (m2 & t2 & Hrun2 & Hb2 & Ht2 & Hr2 & Ho2).
    cbn [Z.add] in Hb2. rewrite <- Hc in Hb2.
    destruct (@completion_effect m2 (fst c) (snd c) _ _ _ Hwc Hb2)
      as (m3 & t3 & Hrun3 & Hb3 & Ht3 & Hr3 & Ho3).
    assert (Hrun : Batch.complete cs m1 = (m3, Normal tt)).
    { rewrite Hcs, complete_app. unfold bind. rewrite Hrun2.
      unfold Batch.complete. cbn [forEach]. unfold bind. now rewrite Hrun3. }
    unfold outcome, exec. rewrite Hrun. cbn [fst snd].
    split; [reflexivity|].
    rewrite (@added_app m1 m3 (t2 ++ t3))
      by (rewrite Ht3, Ht2, app_assoc; reflexivity).
    rewrite reports_app, outcomesInjected_app, Hr2, Hr3, Ho2, Ho3.
    replace (Z.of_nat (List.length pre) + 1 =? N)%Z with true
      by (symmetry; apply Z.eqb_eq; subst N; lia).
    rewrite Hcs, successes_snoc. split; [|reflexivity].
    rewrite Hlens. change (S (List.length pre)) with (1 + List.length pre).
    rewrite Nat.add_comm, seq_app, map_app. cbn [seq map Nat.add Z.add].
    f_equal. f_equal. f_equal. subst N. lia.
Qed.

Lemma batch_finishes_once_witness :
  let m1 :=
    exec (Fsm.downloadFiles twoKeys "." OnRepositoryDownload) checkingMachine in
  let final := exec (Batch.complete twoCompletions) m1 in
  outcome (Batch.complete twoCompletions) m1 = Normal tt
  /\ Batch.reports (Batch.added m1 final)
     = map (fun i => (Z.of_nat i, Z.of_nat (List.length twoKeys)))
           (seq 1 (List.length twoKeys))
  /\ Batch.outcomesInjected (Batch.added m1 final)
     = [Batch.verdict (Batch.successes twoCompletions)].
Proof.
  assert (Hne : twoKeys <> []) by discriminate.
  assert (Hperm :
    Permutation (map fst twoCompletions)
                (Batch.requestsFor twoKeys "."
                   (List.length (batches checkingMachine)))).
  { vm_compute. apply perm_swap. }
  assert (Hwr : Batch.allWritten twoCompletions)
    by (repeat constructor).
  destruct (@batch_finishes_once checkingMachine twoKeys "." twoCompletions
              Hne Hperm Hwr) as (_ & _ & _ & Hfinal).
  exact Hfinal.
Defined.

(** The same run, evaluated: the batch counts 1 then 2 of 2, and the
    success is injected at the second completion only. *)
Example two_downloads_trace :
  Batch.added checkingMachine
    (exec (Fsm.downloadFiles twoKeys "." OnRepositoryDownload ;;
           Batch.complete twoCompletions) checkingMachine)
  = map GetRequested (rev (map fst twoCompletions))
    ++ [ DownloadLogged "./Release.xml" 1 2 false;
         FileWritten "./Development.xml" "<Upgrade/>";
         DownloadLogged "./Development.xml" 2 2 true;
         Injected (Some IPC.CheckingForUpdate) UpdateCheckSuccess;
         IpcSent IPC.StateChannel (StateMessage IPC.ConnectPrompt);
         Injected (Some IPC.CheckingForUpdate) Exit;
         Injected (Some IPC.ConnectPrompt) Enter ].
Proof. vm_compute. reflexivity. Qed.

(* ---------------------------------------------------------------------- *)
(** ** A download whose file cannot be written *)
(* ---------------------------------------------------------------------- *)

Lemma counted_cons c cs :
  Batch.counted (c :: cs)
  = if Batch.unwritten (snd c) then Batch.counted cs
    else S (Batch.counted cs).
Proof.
  unfold Batch.counted. cbn [filter].
  destruct (Batch.unwritten (snd c)); reflexivity.
Qed.

Lemma counted_le cs : Batch.counted cs <= List.length cs.
Proof. unfold Batch.counted. apply filter_length_le. Qed.

Lemma counted_lt cs :
  Exists (fun c => Batch.unwritten (snd c) = true) cs ->
  Batch.counted cs < List.length cs.
Proof.
  induction 1 as [c cs Hc|c cs _ IH]; rewrite counted_cons; cbn [List.length].
  - rewrite Hc. pose proof (counted_le cs). lia.
  - destruct (Batch.unwritten (snd c)); lia.
Qed.

Lemma after_downloads_cons c cs (m : Machine) :
  Loop.after (Loop.downloads (c :: cs)) m
  = Loop.after (Loop.downloads cs)
      (exec (Fsm.getObjectDone (fst c) (snd c)) m).
Proof. reflexivity. Qed.

(** Completions that do not complete the batch, as the loop plays them:
    those whose write fails change nothing, the others count, and none
    injects. *)
Lemma downloads_pending cs : forall (m : Machine) b N k s,
  nth_error (batches m) b
  = Some {| completed := k; count := N; success := s |} ->
  Forall (fun c => batch (fst c) = b) cs ->
  (k + Z.of_nat (Batch.counted cs) < N)%Z ->
  exists t,
    nth_error (batches (Loop.after (Loop.downloads cs) m)) b
    = Some {| completed := k + Z.of_nat (Batch.counted cs); count := N;
              success := s + Batch.successes cs |}
    /\ currentState (Loop.after (Loop.downloads cs) m) = currentState m
    /\ trace (Loop.after (Loop.downloads cs) m) = trace m ++ t
    /\ Batch.reports t
       = map (fun i => ((k + Z.of_nat i)%Z, N)) (seq 1 (Batch.counted cs))
    /\ Batch.outcomesInjected t = [].
Proof.
  induction cs as [|c cs IH]; intros m b N k s Hb Hall Hlt.
  - exists []. cbn. rewrite app_nil_r, !Z.add_0_r. repeat split. exact Hb.
  - pose proof (Forall_inv Hall) as Hc. cbv beta in Hc.
    apply Forall_inv_tail in Hall.
    rewrite counted_cons in Hlt |- *.
    rewrite successes_cons, after_downloads_cons.
    destruct (Batch.unwritten (snd c)) eqn:Hw.
    + destruct (snd c) as [| |body|body]; try discriminate Hw.
      rewrite getObjectDone_unwritten_exec. cbn [Batch.succeeded bump].
      rewrite Z.add_0_l. apply IH; assumption.
    + rewrite <- Hc in Hb.
      pose proof (@getObjectDone_step m (fst c) (snd c) k N s Hw Hb)
        as Hstep.
      cbv zeta in Hstep.
      replace (k + 1 =? N)%Z with false in Hstep
        by (symmetry; apply Z.eqb_neq; lia).
      match type of Hstep with _ = (?x, _) => set (m1 := x) in * end.
      replace (exec (Fsm.getObjectDone (fst c) (snd c)) m) with m1
        by (unfold exec; now rewrite Hstep).
      assert (Hb1 : nth_error (batches m1) b
                    = Some {| completed := k + 1; count := N;
                              success := s + bump (Batch.succeeded (snd c)) |}).
      { subst m1. destruct m. cbn [batches Fsm.set_trace Fsm.set_batches].
        rewrite <- Hc. eapply nth_error_replaced. exact Hb. }
      assert (Hs1 : currentState m1 = currentState m)
        by (subst m1; destruct m; reflexivity).
      assert (Ht1 : trace m1
                    = trace m ++ written (fst c) (snd c)
                        ++ [DownloadLogged (filePath (fst c)) (k + 1) N
                                           (Batch.succeeded (snd c))])
        by (subst m1; destruct m; reflexivity).
      destruct (IH m1 b N (k + 1)%Z _ Hb1 Hall ltac:(lia))
        as (t & Hb' & Hs' & Ht' & Hr' & Ho').
      exists ((written (fst c) (snd c)
               ++ [DownloadLogged (filePath (fst c)) (k + 1) N
                                  (Batch.succeeded (snd c))]) ++ t).
      split; [rewrite Hb'; f_equal; f_equal; lia|].
      split; [rewrite Hs'; exact Hs1|].
      split; [rewrite Ht', Ht1, <- !app_assoc; reflexivity|].
      assert (Hwr : Batch.reports (written (fst c) (snd c)) = []
                    /\ Batch.outcomesInjected (written (fst c) (snd c)) = []).
      { unfold written. destruct (snd c) as [| |[body|]|body];
          split; reflexivity. }
      destruct Hwr as [Hwr Hwo].
      rewrite !reports_app, !outcomesInjected_app, Hwr, Hwo, Hr', Ho'.
      split; [|reflexivity].
      cbn [app Batch.reports flat_map seq map]. f_equal.
      rewrite <- (seq_shift (Batch.counted cs) 1), map_map.
      apply map_ext. intros i.
      f_equal. lia.
Qed.

(** C1 does not hold of the code, and the code is at fault.  The write of
    a downloaded file is not guarded: when [fs.writeFileSync] throws, the
    completion ends before [batch.completed += 1] and before the
    callback, which the code says is called when the download completes.
    So in a batch of N downloads of which one or more cannot be written,
    in any order: each such completion throws and leaves the machine as
    it was; when all N have completed the batch counts fewer than N, the
    callback has seen [completed == count] at no invocation, no outcome
    of the update check was injected, and the machine is in the state it
    was in. *)
Theorem unwritten_file_stalls_batch (m : Machine) (keys : list string)
        (path : string) (cs : list (GetRequest * GetResult)) :
  let N := Z.of_nat (List.length keys) in
  let b := List.length (batches m) in
  let m1 := exec (Fsm.downloadFiles keys path OnRepositoryDownload) m in
  let final := Loop.after (Loop.downloads cs) m1 in
  Permutation (map fst cs) (Batch.requestsFor keys path b) ->
  Exists (fun c => Batch.unwritten (snd c) = true) cs ->
  (forall c m0, In c cs -> Batch.unwritten (snd c) = true ->
     Fsm.getObjectDone (fst c) (snd c) m0 = (m0, Throw SystemError))
  /\ (Z.of_nat (Batch.counted cs) < N)%Z
  /\ nth_error (batches final) b
     = Some {| completed := Z.of_nat (Batch.counted cs); count := N;
               success := Batch.successes cs |}
  /\ Batch.reports (Batch.added m1 final)
     = map (fun i => (Z.of_nat i, N)) (seq 1 (Batch.counted cs))
  /\ ~ In (N, N) (Batch.reports (Batch.added m1 final))
  /\ Batch.outcomesInjected (Batch.added m1 final) = []
  /\ currentState final = currentState m.
Proof.
  intros N b m1 final Hperm Hex.
  assert (Ht1 : trace m1
                = trace m ++ map GetRequested (Batch.requestsFor keys path b)).
  { subst m1. unfold exec. rewrite downloadFiles_spec. destruct m; reflexivity. }
  assert (Hs1 : currentState m1 = currentState m).
  { subst m1. unfold exec. rewrite downloadFiles_spec. destruct m; reflexivity. }
  assert (Hb1 : nth_error (batches m1) b
                = Some {| completed := 0; count := N; success := 0 |}).
  { subst m1 b. unfold exec. rewrite downloadFiles_spec.
    destruct m as [ipc cur np arm pd fv hook bs tr]. cbn.
    rewrite nth_error_app2, Nat.sub_diag by lia. reflexivity. }
  assert (Hlen : List.length cs = List.length keys).
  { rewrite <- (length_map fst cs), (Permutation_length Hperm).
    unfold Batch.requestsFor. apply length_map. }
  assert (Hall : Forall (fun c => batch (fst c) = b) cs).
  { apply Forall_map with (f := fst) (P := fun r => batch r = b).
    eapply Permutation_Forall; [symmetry; exact Hperm|].
    apply requestsFor_batch. }
  assert (Hlt : (Z.of_nat (Batch.counted cs) < N)%Z).
  { pose proof (counted_lt Hex). subst N. lia. }
  destruct (@downloads_pending cs m1 b N 0%Z 0%Z Hb1 Hall ltac:(lia))
    as (t & Hb & Hs & Ht & Hr & Ho).
  cbn [Z.add] in Hb, Hr. fold final in Hb, Hs, Ht.
  rewrite (@added_app m1 final t Ht).
  split.
  { intros c m0 _ Hw. destruct (snd c) as [| |body|body];
      try discriminate Hw. apply getObjectDone_unwritten. }
  split; [exact Hlt|]. split; [exact Hb|]. split; [exact Hr|].
  split; [|split; [exact Ho | rewrite Hs; exact Hs1]].
  rewrite Hr. intros Hin. apply in_map_iff in Hin as (i & Hi & Hseq).
  apply in_seq in Hseq. injection Hi as Hi. lia.
Qed.

Lemma unwritten_file_stalls_batch_witness :
  let m1 :=
    exec (Fsm.downloadFiles twoKeys "." OnRepositoryDownload) checkingMachine in
  let final := Loop.after (Loop.downloads stalledCompletions) m1 in
  outcome (Fsm.getObjectDone releaseRequest (GetDataUnwritten "<Upgrade/>")) m1
  = Throw SystemError
  /\ nth_error (batches final) 0
     = Some {| completed := 1; count := 2; success := 1 |}
  /\ Batch.reports (Batch.added m1 final) = [(1%Z, 2%Z)]
  /\ Batch.outcomesInjected (Batch.added m1 final) = []
  /\ currentState final = Some IPC.CheckingForUpdate.
Proof.
  assert (Hperm :
    Permutation (map fst stalledCompletions)
                (Batch.requestsFor twoKeys "."
                   (List.length (batches checkingMachine)))).
  { vm_compute. apply perm_swap. }
  assert (Hex : Exists (fun c => Batch.unwritten (snd c) = true)
                       stalledCompletions)
    by (apply Exists_cons_hd; reflexivity).
  destruct (@unwritten_file_stalls_batch checkingMachine twoKeys "."
              stalledCompletions Hperm Hex)
    as (Hthrow & _ & Hb & Hr & _ & Ho & Hs).
  split.
  { unfold outcome.
    rewrite (Hthrow (releaseRequest, GetDataUnwritten "<Upgrade/>") _
               (or_introl eq_refl) eq_refl).
    reflexivity. }
  split; [exact Hb|]. split; [exact Hr|]. split; [exact Ho | exact Hs].
Defined.

(** That run, evaluated: the first completion leaves no trace, the second
    writes its file and reports 1 of 2; nothing follows. *)
Example stalled_downloads_trace :
  Batch.added checkingMachine
    (Loop.after (Loop.downloads stalledCompletions)
       (exec (Fsm.downloadFiles twoKeys "." OnRepositoryDownload)
             checkingMachine))
  = map GetRequested [developmentRequest; releaseRequest]
    ++ [ FileWritten "./Development.xml" "<Upgrade/>";
         DownloadLogged "./Development.xml" 1 2 true ].
Proof. vm_compute. reflexivity. Qed.

(* ---------------------------------------------------------------------- *)
(** ** Every injection returns *)
(* ---------------------------------------------------------------------- *)

Lemma returns_bind (W A B : Type) (c : M W A) (k : A -> M W B) :
  returns c -> (forall a, returns (k a)) -> returns (bind c k).
Proof.
  intros Hc Hk w. destruct (Hc w) as (w' & a & Hw). unfold bind. rewrite Hw.
  apply Hk.
Qed.

Lemma returns_ret (W A : Type) (a : A) : returns (ret (W:=W) a).
Proof. intros w. eexists _, _. reflexivity. Qed.

Lemma returns_gets (W A : Type) (f : W -> A) : returns (gets f).
Proof. intros w. eexists _, _. reflexivity. Qed.

Lemma returns_modify (W : Type) (f : W -> W) : returns (modify f).
Proof. intros w. eexists _, _. reflexivity. Qed.

Lemma returns_emit (e : Effect) : returns (Fsm.emit e).
Proof. apply returns_modify. Qed.

Lemma returns_send channel message : returns (Fsm.send channel message).
Proof.
  apply returns_bind; [apply returns_gets|]. intros [|];
    [apply returns_emit | apply returns_ret].
Qed.

Ltac returns_step :=
  first [ apply returns_ret | apply returns_gets | apply returns_modify
        | apply returns_emit | apply returns_send
        | apply returns_bind; [|intros ?]
        | match goal with
          | |- returns (match ?x with _ => _ end) => destruct x
          end ].

(** From a goal at one world to the computation. *)
Ltac as_returns :=
  match goal with
  | |- exists w' a, ?c ?w = (w', Normal a) =>
      apply (fun H : returns c => H w)
  end.

Lemma returns_runBuffered args cb t :
  returns (NP.runBuffered npconfig Fsm.update_npconfig Fsm.Handlers.spawn
                          args cb t).
Proof.
  unfold NP.runBuffered, NP.run, Fsm.Handlers.spawn.
  apply returns_bind; [apply returns_gets|]. intros np.
  destruct (NP.idle np); [repeat returns_step|].
  destruct (_ <? _)%nat; repeat returns_step.
Qed.

Lemma returns_runStreaming args cb t :
  returns (NP.runStreaming npconfig Fsm.update_npconfig Fsm.Handlers.spawn
                           args cb t).
Proof.
  unfold NP.runStreaming, NP.run, Fsm.Handlers.spawn.
  apply returns_bind; [apply returns_gets|]. intros np.
  destruct (NP.idle np); repeat returns_step.
Qed.

Lemma returns_armRunCommand command cb :
  returns (Fsm.Handlers.armRunCommand command cb).
Proof.
  unfold Fsm.Handlers.armRunCommand, ARM.runCommand.
  apply returns_bind; [apply returns_gets|]. intros a.
  destruct (port a); [apply returns_ret|].
  destruct (device a); [|apply returns_ret].
  repeat returns_step.
Qed.

(** [enterState] returns when the two injections it makes do. *)
Lemma returns_enterState (f : AllEvents -> M Machine unit) (t : IPC.States) :
  returns (f Exit) ->
  (forall m, currentState m = Some t ->
             exists m' a, f Enter m = (m', Normal a)) ->
  returns (Fsm.Handlers.enterState f t).
Proof.
  intros Hexit Henter m. unfold Fsm.Handlers.enterState, bind at 1, gets.
  destruct (negb _); [|eexists _, _; reflexivity].
  unfold bind at 1.
  destruct (returns_send IPC.StateChannel (StateMessage t) m)
    as (m1 & [] & H1).
  unfold Fsm.sendStateChange. rewrite H1. unfold bind at 1, gets.
  assert (H2 : exists m2,
             (match currentState m1 with
              | Some _ => f Exit
              | None => ret tt
              end) m1 = (m2, Normal tt)).
  { destruct (currentState m1).
    - destruct (Hexit m1) as (m2 & [] & H). eauto.
    - eexists. reflexivity. }
  destruct H2 as (m2 & H2). unfold bind at 1. rewrite H2.
  unfold bind at 1, modify.
  destruct (Henter (Fsm.set_currentState (Some t) m2)) as (m3 & [] & H3).
  { destruct m2; reflexivity. }
  unfold bind at 1. rewrite H3. unfold bind, gets.
  destruct (onStateChange m3); eexists _, _; reflexivity.
Qed.

Lemma returns_Exit (n : nat) : returns (Fsm.injectEventN (S n) Exit).
Proof. intros m. rewrite injectEventN_Exit. eexists _, _. reflexivity. Qed.

Lemma returns_dispatch (f : AllEvents -> M Machine unit) (event : AllEvents) :
  (forall state h,
      Fsm.Handlers.StateTable state = Some h ->
      forall m, currentState m = Some state ->
                exists m' a, Fsm.Handlers.runHandler f h event m = (m', Normal a)) ->
  returns (Fsm.Handlers.dispatch f event).
Proof.
  intros H m. unfold Fsm.Handlers.dispatch, bind at 1, gets.
  unfold bind, Fsm.emit, modify.
  destruct (currentState m) as [state|] eqn:Hst;
    [|eexists _, _; reflexivity].
  destruct (Fsm.Handlers.StateTable state) as [h|] eqn:Hh;
    [|eexists _, _; reflexivity].
  destruct (H state h Hh (Fsm.set_trace
                            (trace m ++ [Injected (Some state) event]) m))
    as (m' & [] & Hrun).
  { destruct m; exact Hst. }
  eexists _, _. exact Hrun.
Qed.

(** The handler passes the event over. *)
Ltac passed_over :=
  match goal with
  | |- exists w' a, ret _ _ = (w', Normal a) => eexists _, _; reflexivity
  end.

Lemma returns_Enter_leaf (n : nat) (m : Machine) (s : IPC.States) :
  currentState m = Some s -> entersWithoutInjecting s = true ->
  exists m' a, Fsm.injectEventN (S n) Enter m = (m', Normal a).
Proof.
  intros Hs Hleaf. rewrite injectEventN_S.
  unfold Fsm.Handlers.dispatch, bind at 1, gets. rewrite Hs.
  unfold bind at 1, Fsm.emit, modify.
  destruct s; try discriminate Hleaf; cbn [Fsm.Handlers.StateTable
    Fsm.Handlers.runHandler]; try passed_over; as_returns.
  - unfold Fsm.getPackageIndexFiles, Fsm.doGetFileList. apply returns_emit.
  - unfold Fsm.Handlers.npDevices, NP.devices.
    apply returns_bind; [apply returns_runBuffered | intros; apply returns_ret].
  - unfold Fsm.Handlers.startTimer. apply returns_emit.
Qed.

Lemma returns_Timeout (n : nat) : returns (Fsm.injectEventN (S n) Timeout).
Proof.
  rewrite injectEventN_S. apply returns_dispatch.
  intros state h Hh m _. destruct state; injection Hh as <-;
    cbn [Fsm.Handlers.runHandler]; try passed_over.
  as_returns. apply returns_bind; [apply returns_gets|]. intros [product|];
    [|apply returns_ret].
  apply returns_bind; [apply returns_send|]. intros _.
  apply returns_bind; [apply returns_armRunCommand | intros; apply returns_ret].
Qed.

Lemma returns_Control (n : nat) (c : Controls) :
  returns (Fsm.injectEventN (S (S n)) c).
Proof.
  rewrite injectEventN_S. apply returns_dispatch.
  intros state h Hh m _.
  destruct state; injection Hh as <-; destruct c;
    cbn [Fsm.Handlers.runHandler]; try passed_over;
    as_returns; apply returns_enterState;
    try apply returns_Exit;
    intros m' Hm; eapply returns_Enter_leaf; try exact Hm; reflexivity.
Qed.

Lemma returns_Enter (n : nat) : returns (Fsm.injectEventN (S (S (S n))) Enter).
Proof.
  rewrite injectEventN_S. apply returns_dispatch.
  intros state h Hh m _.
  destruct state; injection Hh as <-;
    cbn [Fsm.Handlers.runHandler]; try passed_over; as_returns.
  - unfold Fsm.getPackageIndexFiles, Fsm.doGetFileList. apply returns_emit.
  - (* Detecting: discover, which fails at once with no device *)
    apply returns_bind; [|intros; apply returns_ret].
    unfold Fsm.Handlers.npDiscover, NP.discover.
    apply returns_bind; [apply returns_gets|]. intros [d|].
    + apply returns_runBuffered.
    + apply returns_bind; [|intros; apply returns_ret].
      cbn [Fsm.Handlers.callBuffered]. unfold Fsm.Handlers.onDiscovery.
      cbn [Z.eqb]. apply returns_Control.
  - unfold Fsm.Handlers.npDevices, NP.devices.
    apply returns_bind; [apply returns_runBuffered | intros; apply returns_ret].
  - unfold Fsm.Handlers.startTimer. apply returns_emit.
  - (* Updating: reprogApp, which fails at once with no device *)
    apply returns_bind; [|intros; apply returns_ret].
    unfold Fsm.Handlers.npReprogApp, NP.reprogApp.
    apply returns_bind; [apply returns_gets|]. intros [d|].
    + apply returns_runStreaming.
    + apply returns_bind; [|intros; apply returns_ret].
      cbn [Fsm.Handlers.callStreaming]. unfold Fsm.Handlers.onReprogramming.
      apply returns_bind; [apply returns_ret|]. intros _.
      apply returns_bind; [|intros; apply returns_ret].
      cbn [Z.eqb]. apply returns_Control.
Qed.

(** From the event loop, [injectEvent] returns normally for every event in
    every state of the machine: no handler throws, and four levels of
    calls from inside handlers are enough. *)
Theorem injectEvent_returns (n : nat) (event : AllEvents) :
  returns (Fsm.injectEventN (4 + n) event).
Proof.
  destruct event as [[| |]|c|cmd].
  - apply returns_Enter.
  - apply returns_Exit.
  - apply returns_Timeout.
  - apply returns_Control.
  - cbn [Nat.add]. rewrite injectEventN_S. apply returns_dispatch.
    intros state h Hh m _.
    destruct state; injection Hh as <-; destruct cmd;
      cbn [Fsm.Handlers.runHandler]; try passed_over;
      as_returns; apply returns_enterState;
      try apply returns_Exit;
      intros m' Hm; apply returns_Enter.
Qed.

Corollary injectEvent_total (event : AllEvents) :
  returns (Fsm.injectEvent event).
Proof. exact (injectEvent_returns 4 event). Qed.

(** A whole update: the machine ends in UpdateComplete, having told the
    observer each state on the way, the devices, the product and the
    progress. *)
Example workflow_completes :
  let m := exec workflow (Fsm.init true false) in
  outcome workflow (Fsm.init true false) = Normal tt
  /\ currentState m = Some IPC.UpdateComplete
  /\ sent (trace m)
     = [ StateMessage IPC.Welcome;
         ConfigMessage IPC.AvailableDevices (DeviceList ["usb1"; "usb0"]);
         StateMessage IPC.CheckingForUpdate;
         StateMessage IPC.CheckFailedCached;
         StateMessage IPC.ConnectPrompt;
         StateMessage IPC.Detecting;
         StateMessage IPC.DetectedAvailable;
         ConfigMessage IPC.ProductDetails
           (Details [("modelName", "NSC222"); ("serialNumber", "881412")]);
         StateMessage IPC.Updating;
         ConfigMessage IPC.ReprogProgress (Percent (Some 50%Z));
         StateMessage IPC.UpdateComplete ]
  /\ activeDevice (npconfig m) = Some "usb0"
  /\ firmwareVersions m = Some [("application", "v0.0.0.29380")].
Proof. vm_compute. repeat split. Qed.

(* ====================================================================== *)
(** * Further properties of the sources *)
(* ====================================================================== *)

(* ---------------------------------------------------------------------- *)
(** ** The command gateway under any traffic *)
(* ---------------------------------------------------------------------- *)

Section GatewayTraffic.
Context {BC SC : Type}.
Import Gateway GatewayCalls.
Abbreviation world := (@Gateway.mk BC SC).
Implicit Type w : Gateway.World BC SC.

Ltac gateway_step :=
  cbv beta iota zeta delta
    [exec fst snd GatewayFaults.perform GatewayFaults.callBuffered
     GatewayFaults.callStreaming GatewayFaults.spawn Gateway.spawn
     Gateway.callBuffered Gateway.callStreaming Gateway.emit Gateway.update
     Gateway.setDefaultDevice Gateway.selectDevice NP.setDefaultDevice
     NP.selectDevice NP.version NP.keys NP.devices NP.discover NP.reprogApp
     NP.onStdout NP.onError NP.onClose NP.runBuffered NP.runStreaming NP.run
     NP.idle NP.maxCommandQueueLength NP.set_bufferedCallback
     NP.set_streamingCallback NP.set_bufferedData NP.set_activeDevice
     NP.set_commandQueue bind gets modify ret throw Gateway.gateway
     Gateway.events bufferedCallback streamingCallback bufferedData
     activeDevice commandQueue parameters handler Nat.ltb Nat.leb
     List.length app].

Lemma perform_keeps_singleFlight
      (raisesBuffered : BC -> BufferedData -> Z -> option JsError)
      (raisesStreaming : SC -> option string -> option Z -> option JsError)
      (c : Call BC SC) w :
  singleFlight (gateway w) ->
  singleFlight
    (gateway (exec (GatewayFaults.perform raisesBuffered raisesStreaming c) w)).
Proof.
  destruct w as [[bc sc bd ad q] ev]. unfold singleFlight.
  cbn [gateway bufferedCallback streamingCallback commandQueue].
  unfold NP.idle, NP.maxCommandQueueLength.
  cbn [bufferedCallback streamingCallback]. intros (Hone & Hlen & Hidle).
  destruct c; destruct bc, sc, ad, q as [|c0 [|c1 [|c2 q]]];
    cbn in Hlen;
    try lia;
    try (destruct Hone; discriminate);
    try (specialize (Hidle eq_refl); discriminate);
    gateway_step;
    repeat match goal with
           | |- context [raisesBuffered ?a ?b ?c] =>
               destruct (raisesBuffered a b c); gateway_step
           | |- context [raisesStreaming ?a ?b ?c] =>
               destruct (raisesStreaming a b c); gateway_step
           | |- context [existsb GatewayFaults.hasNul ?l] =>
               destruct (existsb GatewayFaults.hasNul l); gateway_step
           end;
    repeat split; auto; try lia; try discriminate.
Qed.

(** X1. Whatever is called on a gateway and whatever its process does, in
    whatever order, from its creation on, and whichever of the calls
    throw (a [spawn] refused for a NUL character in an argument, a
    callback of the client that throws): at most one of the buffered and
    the streaming callback is registered, the queue holds at most 2
    commands, and it holds none while the gateway is idle. *)
Theorem singleFlight_always
        (raisesBuffered : BC -> BufferedData -> Z -> option JsError)
        (raisesStreaming : SC -> option string -> option Z -> option JsError)
        (calls : list (Call BC SC)) :
  singleFlight
    (gateway (GatewayFaults.after raisesBuffered raisesStreaming calls
                (@fresh BC SC))).
Proof.
  assert (H : forall w, singleFlight (gateway w) ->
            singleFlight
              (gateway (GatewayFaults.after raisesBuffered raisesStreaming
                          calls w))).
  { induction calls as [|c calls IH]; intros w Hw; [exact Hw|].
    apply IH, perform_keeps_singleFlight, Hw. }
  apply H. unfold singleFlight. cbn. repeat split; auto.
  unfold NP.maxCommandQueueLength. lia.
Qed.

(** A [spawn] that is refused: the discovery of a device whose name holds
    a NUL character throws, after the callback was registered.  No
    process runs, and the gateway stays busy. *)
Example spawn_refused_leaves_gateway_busy :
  let nul := String Ascii.zero "" in
  let none := fun (_ : nat) (_ : BufferedData) (_ : Z) => @None JsError in
  let none' := fun (_ : nat) (_ : option string) (_ : option Z) =>
                 @None JsError in
  let w := exec (selectDevice ("usb" ++ nul)%string) (@fresh nat nat) in
  GatewayFaults.perform none none' (Discover 7) w
  = ({| gateway := NP.set_bufferedCallback (Some 7) (gateway w);
        events := [] |}, Throw TypeError).
Proof. reflexivity. Qed.

(** A callback that throws at the close: it stays registered, and the
    command that waits is not started. *)
Example callback_throws_at_close :
  let raisesBuffered := fun (cb : nat) (_ : BufferedData) (_ : Z) =>
                          if (cb =? 0)%nat then Some TypeError else None in
  let none' := fun (_ : nat) (_ : option string) (_ : option Z) =>
                 @None JsError in
  GatewayFaults.perform raisesBuffered none' (Close (Some 0%Z)) busyGateway
  = ({| gateway := gateway busyGateway;
        events := [BufferedDelivered 0 [] 0%Z] |}, Throw TypeError).
Proof. reflexivity. Qed.

(** X2. With no active device, [discover] and [reprogApp] fail at once,
    whatever else the gateway is doing: the callback is called with no
    data and status 1 before the method returns false, no process is
    spawned and the gateway is left as it was. *)
Theorem device_scoped_fail_without_device w (cb : BC) (cb' : SC) :
  activeDevice (gateway w) = None ->
  discover cb w
  = ({| gateway := gateway w;
        events := events w ++ [BufferedDelivered cb [] 1%Z] |}, Normal false)
  /\ reprogApp cb' w
     = ({| gateway := gateway w;
           events := events w ++ [StreamingDelivered cb' None (Some 1%Z)] |},
        Normal false).
Proof.
  destruct w as [[bc sc bd ad q] ev]. cbn. intros ->. split; reflexivity.
Qed.

(** X3. A buffered command that had to wait in the queue runs with the
    default timeout: the timeout given with the request is not kept. *)
Theorem queued_command_runs_with_default_timeout
        w (cb0 cb : BC) args t code :
  bufferedCallback (gateway w) = Some cb0 ->
  streamingCallback (gateway w) = None ->
  commandQueue (gateway w) = [] ->
  outcome (runBuffered args cb t) w = Normal true
  /\ events (exec (_ <- runBuffered args cb t ;; onClose code) w)
     = events w
         ++ [ BufferedDelivered cb0 (bufferedData (gateway w)) (exitStatus code);
              Spawned NP.npconfigPath args NP.defaultCommandTimeoutMs ].
Proof.
  destruct w as [[bc sc bd ad q] ev]. cbn. intros -> -> ->.
  split; [reflexivity|]. cbn. now rewrite <- app_assoc.
Qed.

Lemma stdout_streaming chunks (cb : SC) bc bd ad q ev :
  forEach onStdout chunks (world bc (Some cb) bd ad q ev)
  = (world bc (Some cb) bd ad q
       (ev ++ map (fun c => StreamingDelivered cb (Some (Js.trim c)) None)
                  chunks), Normal tt).
Proof.
  revert ev. induction chunks as [|c chunks IH]; intros ev.
  - cbn. now rewrite app_nil_r.
  - cbn [forEach]. unfold bind at 1. cbn -[forEach]. 
    change (forEach onStdout chunks
              (world bc (Some cb) bd ad q
                 (ev ++ [StreamingDelivered cb (Some (Js.trim c)) None]))
            = (world bc (Some cb) bd ad q
                 (ev ++ map (fun c => StreamingDelivered cb (Some (Js.trim c))
                                                         None) (c :: chunks)),
               Normal tt)).
    rewrite IH. cbn [map]. now rewrite <- app_assoc.
Qed.

(** X4. A streaming command on an idle gateway: it is started at once,
    every chunk of stdout is forwarded as it comes, trimmed and whole (not
    split in lines), with a null status, and the close forwards an empty
    text with the exit status; the gateway is then as before the request,
    the buffered lines untouched. *)
Theorem streaming_run w args (cb : SC) t chunks code :
  NP.idle (gateway w) = true ->
  commandQueue (gateway w) = [] ->
  let run :=
    _ <- runStreaming args cb t ;; forEach onStdout chunks ;; onClose code in
  outcome run w = Normal tt
  /\ gateway (exec run w) = gateway w
  /\ events (exec run w)
     = events w ++ Spawned NP.npconfigPath args t :: streamed cb chunks code.
Proof.
  intros Hidle Hq run. subst run.
  destruct w as [[bc sc bd ad q] ev]. unfold NP.idle in Hidle.
  cbn in Hidle, Hq. subst q.
  destruct bc; [discriminate|]. destruct sc; [discriminate|].
  assert (Hrun :
    (_ <- runStreaming args cb t ;; forEach onStdout chunks ;; onClose code)
      (world None None bd ad [] ev)
    = (world None None bd ad []
         (ev ++ Spawned NP.npconfigPath args t :: streamed cb chunks code),
       Normal tt)).
  { unfold bind at 1.
    replace (runStreaming args cb t (world None None bd ad [] ev))
      with (world None (Some cb) bd ad []
              (ev ++ [Spawned NP.npconfigPath args t]), Normal true)
      by reflexivity.
    unfold bind at 1. rewrite stdout_streaming. cbn. unfold streamed.
    now rewrite <- !app_assoc. }
  unfold outcome, exec. unfold Gateway.mk in Hrun. rewrite Hrun.
  repeat split.
Qed.

Lemma fragments_nonempty (c : string) : fragments c <> [].
Proof.
  unfold fragments. intros H.
  pose proof (split_nonempty Js.newline (Js.trim c)) as Hlen.
  rewrite H in Hlen. discriminate Hlen.
Qed.

Lemma accumulate_before_last (chunks : list string) :
  forall (init : list string) (x : string),
    accumulate chunks (init ++ [x])
    = init ++ flat_map fragments chunks ++ [x].
Proof.
  induction chunks as [|c chunks IH]; intros init x; [reflexivity|].
  cbn [accumulate fold_left flat_map]. rewrite splice_before_last.
  rewrite app_assoc. unfold accumulate in IH. rewrite IH.
  now rewrite <- !app_assoc.
Qed.

(** X5. The lines a buffered command delivers, in their order: the
    fragments of the first chunk but its last, then the fragments of the
    later chunks in the order they came, then the last fragment of the
    first chunk. *)
Theorem buffered_lines_in_order w args (cb : BC) t c rest code :
  NP.idle (gateway w) = true ->
  delivered (exec (bufferedRun args cb t (c :: rest, code)) w)
  = delivered w
      ++ [removelast (fragments c) ++ flat_map fragments rest
            ++ [last (fragments c) ""]].
Proof.
  intros Hidle. destruct w as [[bc sc bd ad q] ev].
  unfold NP.idle in Hidle; cbn in Hidle.
  destruct bc; [discriminate|]. destruct sc; [discriminate|].
  assert (Hacc : accumulate (c :: rest) []
                 = removelast (fragments c) ++ flat_map fragments rest
                     ++ [last (fragments c) ""]).
  { cbn [accumulate fold_left].
    replace (Js.splice (-1) (Some 0%Z) (fragments c) []) with (fragments c)
      by (unfold Js.splice; cbn; now rewrite app_nil_r).
    rewrite (app_removelast_last "" (fragments_nonempty c)) at 1.
    apply accumulate_before_last. }
  fold (world None None bd ad q ev).
  unfold exec, bufferedRun, bind at 1. rewrite request_idle.
  unfold play, bind at 1. cbn [fst snd]. rewrite stdout_buffered.
  rewrite close_buffered, Hacc.
  destruct q; unfold delivered; cbn [fst events Gateway.mk];
    rewrite !flat_map_app; cbn; now rewrite ?app_nil_r.
Qed.
End GatewayTraffic.

(* ---------------------------------------------------------------------- *)
(** ** The debug session manager under any traffic *)
(* ---------------------------------------------------------------------- *)

Lemma lastOf_split (s : string) :
  Js.lastOf (Js.split Js.newline s) = Some (SessionCalls.lastLine s).
Proof.
  unfold Js.lastOf, SessionCalls.lastLine.
  pose proof (split_nonempty Js.newline s) as Hne.
  induction (Js.split Js.newline s) as [|x l IH]; [discriminate Hne|].
  destruct l as [|y l]; [reflexivity|].
  change (last (map Some (y :: l)) None = Some (last (y :: l) "")).
  apply IH. reflexivity.
Qed.

Section SessionTraffic.
Context {DC : Type}.
Import Session SessionCalls.
Abbreviation session := (@SessionCalls.mk DC).
Implicit Type w : Session.World DC.

(** One chunk of data, in full. *)
Lemma onData_step d p (c : option DC) r ev data :
  onData data (session d p c r ev)
  = let r' := (r ++ Js.trim data)%string in
    if String.eqb (lastLine r') ARM.prompt
    then (session d None None r'
            (ev ++ completion p c (Js.split Js.newline r')), Normal tt)
    else (session d p c r' ev, Normal tt).
Proof.
  cbv zeta. unfold onData, ARM.onData, bind at 1, modify.
  unfold bind at 1, gets.
  cbn [arm responseData update ARM.set_responseData fst snd device port
       dataCallback events SessionCalls.mk].
  rewrite split_nonempty, lastOf_split.
  destruct (String.eqb _ ARM.prompt); [|reflexivity].
  destruct c, p; cbn; rewrite ?app_nil_r, <- ?app_assoc; reflexivity.
Qed.

(** X6. [runCommand] is refused, and nothing at all happens, while a port
    is held or when no device was set. *)
Theorem runCommand_rejected w command (cb : option DC) :
  port (arm w) <> None \/ device (arm w) = None ->
  runCommand command cb w = (w, Normal false).
Proof.
  destruct w as [[d p c r] ev]. cbn.
  intros [H|H]; destruct p, d; try reflexivity;
    try discriminate H; now elim H.
Qed.

(** X7. As long as the accumulated response does not end in the prompt
    line, data only accumulates: each chunk is appended, trimmed, to the
    response, nothing is delivered, and the port and the callback stay. *)
Theorem data_accumulates_until_prompt w chunks :
  (forall k, k < List.length chunks ->
             lastLine (received (responseData (arm w)) (firstn (S k) chunks))
             <> ARM.prompt) ->
  forEach onData chunks w
  = ({| arm := ARM.set_responseData
                 (received (responseData (arm w)) chunks) (arm w);
        events := events w |}, Normal tt).
Proof.
  revert w. induction chunks as [|c chunks IH]; intros w H.
  - destruct w as [[d p cb r] ev]. reflexivity.
  - destruct w as [[d p cb r] ev]. cbn [forEach]. unfold bind.
    fold (session d p cb r ev). rewrite onData_step. cbv zeta.
    pose proof (H 0 ltac:(cbn; lia)) as H0.
    cbn [arm responseData] in H0.
    change (received r (firstn 1 (c :: chunks)))
      with (r ++ Js.trim c)%string in H0.
    apply String.eqb_neq in H0. rewrite H0.
    rewrite IH.
    + reflexivity.
    + intros k Hk. apply (H (S k)). cbn. lia.
Qed.

Lemma faulty_onData_step (raises : DC -> SerialData -> option JsError)
      d p (c : option DC) r ev data :
  exec (SessionFaults.onData raises data) (session d p c r ev)
  = let r' := (r ++ Js.trim data)%string in
    let lines := Js.split Js.newline r' in
    if String.eqb (lastLine r') ARM.prompt
    then match c with
         | Some f =>
             match raises f lines with
             | Some _ =>
                 session d p c r' (ev ++ [Delivered f lines])
             | None => session d None None r' (ev ++ completion p c lines)
             end
         | None => session d None None r' (ev ++ completion p c lines)
         end
    else session d p c r' ev.
Proof.
  cbv zeta. unfold exec, SessionFaults.onData, ARM.onData, bind at 1, modify.
  unfold bind at 1, gets.
  cbn [arm responseData update ARM.set_responseData fst snd device port
       dataCallback events SessionCalls.mk].
  rewrite split_nonempty, lastOf_split.
  destruct (String.eqb _ ARM.prompt); [|reflexivity].
  unfold SessionFaults.callData.
  destruct c as [f|]; destruct p; cbn;
    repeat match goal with
           | |- context [raises ?a ?b] => destruct (raises a b); cbn
           end;
    rewrite ?app_nil_r, <- ?app_assoc; reflexivity.
Qed.

Ltac session_step :=
  cbv beta iota zeta delta
    [exec fst snd SessionFaults.perform SessionFaults.runCommand
     SessionFaults.openPort ARM.runCommand bind gets modify ret throw
     Session.emit Session.update Session.arm Session.events port device
     dataCallback responseData path ARM.set_port ARM.set_responseData
     ARM.set_dataCallback negb].

Lemma perform_keeps_oneTransport
      (raises : DC -> SerialData -> option JsError) (c : Call DC) w :
  oneTransport w -> oneTransport (exec (SessionFaults.perform raises c) w).
Proof.
  destruct w as [[d p cb r] ev]. unfold oneTransport, isIdle.
  cbn [arm events port dataCallback]. intros (Hcount & Hcb).
  assert (Hopens : forall l l' : list (Event DC),
             opens (l ++ l') = opens l + opens l')
    by (intros; unfold opens; now rewrite filter_app, length_app).
  assert (Hcloses : forall l l' : list (Event DC),
             closes (l ++ l') = closes l + closes l')
    by (intros; unfold closes; now rewrite filter_app, length_app).
  destruct c as [dev|command cb'|e|e|data].
  - cbn. auto.
  - destruct p as [sp|].
    + cbn. split; [exact Hcount | discriminate].
    + destruct d as [dev|]; [|cbn; auto].
      session_step.
      destruct (String.eqb dev ""); session_step.
      * auto.
      * rewrite !Hopens, !Hcloses. cbn. split; [lia | discriminate].
  - cbn. auto.
  - cbn. auto.
  - cbn [SessionFaults.perform]. fold (session d p cb r ev).
    rewrite faulty_onData_step. cbv zeta.
    destruct (String.eqb _ ARM.prompt); [|cbn; auto].
    assert (Hdone :
      forall lines,
        opens (ev ++ completion p cb lines)
        = closes (ev ++ completion p cb lines) + 0
        /\ (@None SerialPort = None -> @None DC = None)).
    { intros lines. unfold completion. rewrite !Hopens, !Hcloses.
      destruct p as [sp|].
      - destruct cb; cbn in *; split; auto; lia.
      - rewrite (Hcb eq_refl). cbn in *. split; auto; lia. }
    destruct cb as [f|]; [destruct (raises f _)|];
      cbn -[opens closes completion]; try apply Hdone.
    rewrite Hopens, Hcloses. cbn. split; [lia | exact Hcb].
Qed.

(** X8. Whatever is called on a session manager and whatever its port
    does, from its creation on, and whichever of the calls throw (a port
    refused for an empty path, a callback of the client that throws):
    the port is held exactly when one more port was opened than closed,
    so that two are never open at once, and a callback is kept only
    while the port is held. *)
Theorem oneTransport_always (raises : DC -> SerialData -> option JsError)
        (calls : list (Call DC)) :
  oneTransport (SessionFaults.after raises calls (@fresh DC)).
Proof.
  assert (H : forall w, oneTransport w ->
            oneTransport (SessionFaults.after raises calls w)).
  { induction calls as [|c calls IH]; intros w Hw; [exact Hw|].
    apply IH, perform_keeps_oneTransport, Hw. }
  apply H. split; reflexivity.
Qed.

(** A port that is refused: with the empty string for device,
    [runCommand] throws; no port is held, and nothing was opened. *)
Example port_refused_for_empty_path :
  let none := fun (_ : nat) (_ : SerialData) => @None JsError in
  let w := exec (setDevice "") (@fresh nat) in
  SessionFaults.perform none (RunCommand "version" (Some 3)) w
  = (w, Throw TypeError).
Proof. reflexivity. Qed.
End SessionTraffic.

(** *** Strings: appending, reversing, trimming, splitting *)

Lemma append_assoc (a b c : string) :
  ((a ++ b) ++ c = a ++ (b ++ c))%string.
Proof. induction a as [|x a IH]; cbn; [reflexivity | now rewrite IH]. Qed.

Lemma append_length (a b : string) :
  String.length (a ++ b) = String.length a + String.length b.
Proof. induction a as [|x a IH]; cbn; [reflexivity | now rewrite IH]. Qed.

Lemma rev_string_acc (s acc : string) :
  Js.rev_string acc s = (Js.rev_string "" s ++ acc)%string.
Proof.
  revert acc. induction s as [|c s IH]; intros acc; cbn; [reflexivity|].
  rewrite (IH (String c acc)), (IH (String c "")), append_assoc. reflexivity.
Qed.

Lemma trimStart_head (s : string) :
  Js.trimStart s = ""
  \/ exists c s', Js.trimStart s = String c s' /\ Js.is_white c = false.
Proof.
  induction s as [|c s IH]; cbn; [now left|].
  destruct (Js.is_white c) eqn:Hc; [exact IH|]. right. eauto.
Qed.

(** A text trimmed, when not empty, ends in a character that is no white
    space. *)
Lemma trim_ends_nonwhite (s : string) :
  Js.trim s <> "" ->
  exists s0 c, Js.trim s = (s0 ++ String c "")%string
               /\ Js.is_white c = false.
Proof.
  unfold Js.trim, Js.trimEnd. intros Hne.
  destruct (trimStart_head (Js.rev_string "" (Js.trimStart s)))
    as [Hz | (c & z & Hz & Hc)]; rewrite Hz in *.
  - now elim Hne.
  - exists (Js.rev_string "" z), c. split; [|exact Hc].
    cbn. apply rev_string_acc.
Qed.

(** Appending a character that is not the separator extends the last
    fragment. *)
Lemma split_snoc (sep c : ascii) (s : string) :
  Ascii.eqb c sep = false ->
  Js.split sep (s ++ String c "")
  = removelast (Js.split sep s) ++ [(last (Js.split sep s) "" ++ String c "")%string].
Proof.
  intros Hc. induction s as [|a s IH].
  - cbn. now rewrite Hc.
  - cbn [append Js.split]. rewrite IH.
    pose proof (split_nonempty sep s) as Hne.
    destruct (Js.split sep s) as [|h0 [|y t1]]; [discriminate Hne| |];
      destruct (Ascii.eqb a sep); reflexivity.
Qed.

Lemma lastLine_snoc (c : ascii) (s : string) :
  Ascii.eqb c Js.newline = false ->
  SessionCalls.lastLine (s ++ String c "")
  = (SessionCalls.lastLine s ++ String c "")%string.
Proof.
  intros Hc. unfold SessionCalls.lastLine.
  rewrite split_snoc by exact Hc. apply last_last.
Qed.

Lemma white_newline (c : ascii) :
  Js.is_white c = false -> Ascii.eqb c Js.newline = false.
Proof.
  intros H. destruct (Ascii.eqb c Js.newline) eqn:E; [|reflexivity].
  apply Ascii.eqb_eq in E. subst c. discriminate H.
Qed.

Section SessionPrompt.
Context {DC : Type}.
Import Session SessionCalls.
Implicit Type w : Session.World DC.

Lemma responseData_after_onData w data :
  responseData (arm (exec (onData data) w))
  = (responseData (arm w) ++ Js.trim data)%string.
Proof.
  destruct w as [[d p c r] ev]. unfold exec.
  fold (@SessionCalls.mk DC d p c r ev). rewrite onData_step. cbv zeta.
  destruct (String.eqb _ ARM.prompt); reflexivity.
Qed.

(** X9. Once a chunk with more than white space has been received, a
    chunk that holds the prompt alone completes nothing: the prompt is
    appended to the last line received, which then is not the prompt
    line.  Nothing is delivered and the port stays as it is. *)
Theorem prompt_alone_after_data w chunk promptChunk :
  Js.trim chunk <> "" ->
  Js.trim promptChunk = ARM.prompt ->
  let w1 := exec (onData chunk) w in
  onData promptChunk w1
  = ({| arm := ARM.set_responseData
                 (responseData (arm w1) ++ ARM.prompt) (arm w1);
        events := events w1 |}, Normal tt).
Proof.
  intros Hne Hp w1.
  assert (Hr1 := responseData_after_onData w chunk). fold w1 in Hr1.
  destruct (trim_ends_nonwhite _ Hne) as (s0 & c & Htrim & Hc).
  destruct w1 as [[d p cb r1] ev]. cbn [arm responseData] in Hr1.
  fold (@SessionCalls.mk DC d p cb r1 ev). rewrite onData_step. cbv zeta.
  rewrite Hp.
  replace (String.eqb (lastLine (r1 ++ ARM.prompt)) ARM.prompt) with false;
    [reflexivity|].
  symmetry. apply String.eqb_neq. intros Heq.
  rewrite Hr1, Htrim, <- append_assoc in Heq.
  unfold ARM.prompt in Heq at 1.
  rewrite lastLine_snoc, lastLine_snoc in Heq
    by (try reflexivity; apply white_newline, Hc).
  apply (f_equal String.length) in Heq.
  rewrite !append_length in Heq. cbn in Heq. lia.
Qed.
End SessionPrompt.

(** *** The statements above, at concrete gateways and sessions *)

Lemma device_scoped_fail_without_device_witness :
  outcome (Gateway.discover 7) busyGateway = Normal false
  /\ outcome (Gateway.reprogApp 8) busyGateway = Normal false.
Proof.
  destruct (@device_scoped_fail_without_device nat nat busyGateway 7 8 eq_refl)
    as [Hd Hr].
  unfold outcome. rewrite Hd, Hr. split; reflexivity.
Defined.

Lemma queued_command_runs_with_default_timeout_witness :
  Gateway.events
    (exec (_ <- Gateway.runBuffered ["-r "; "usb0"] 5 90000%Z ;;
           Gateway.onClose (Some 0%Z))
          (Gateway.mk (Some 0) (@None nat) ["1.2.3"] None [] []))
  = [ Gateway.BufferedDelivered 0 ["1.2.3"] 0%Z;
      Gateway.Spawned NP.npconfigPath ["-r "; "usb0"] 20000%Z ].
Proof.
  exact (proj2 (@queued_command_runs_with_default_timeout nat nat
                  (Gateway.mk (Some 0) (@None nat) ["1.2.3"] None [] [])
                  0 5 ["-r "; "usb0"] 90000%Z (Some 0%Z)
                  eq_refl eq_refl eq_refl)).
Defined.

Lemma streaming_run_witness :
  let run :=
    _ <- Gateway.runStreaming ["-l"] 3 20000%Z ;;
    forEach Gateway.onStdout [("key A" ++ nl ++ "key B" ++ nl)%string; "key C"] ;;
    Gateway.onClose None in
  Gateway.events (exec run (@Gateway.fresh nat nat))
  = [ Gateway.Spawned NP.npconfigPath ["-l"] 20000%Z;
      Gateway.StreamingDelivered 3 (Some ("key A" ++ nl ++ "key B")%string) None;
      Gateway.StreamingDelivered 3 (Some "key C") None;
      Gateway.StreamingDelivered 3 (Some "") (Some 1%Z) ].
Proof.
  exact (proj2 (proj2
    (@streaming_run nat nat Gateway.fresh ["-l"] 3 20000%Z
       [("key A" ++ nl ++ "key B" ++ nl)%string; "key C"] None
       eq_refl eq_refl))).
Defined.

Lemma buffered_lines_in_order_witness :
  Gateway.delivered
    (exec (Gateway.bufferedRun ["-x"] 4 20000%Z
             ([("a" ++ nl ++ "b")%string; "c"; ("d" ++ nl ++ "e")%string],
              Some 0%Z))
          (@Gateway.fresh nat nat))
  = [["a"; "c"; "d"; "e"; "b"]].
Proof.
  exact (@buffered_lines_in_order nat nat Gateway.fresh ["-x"] 4 20000%Z
           ("a" ++ nl ++ "b")%string ["c"; ("d" ++ nl ++ "e")%string]
           (Some 0%Z) eq_refl).
Defined.

Lemma runCommand_rejected_witness :
  Session.runCommand "version host" (Some 0) (@Session.fresh nat)
  = (Session.fresh, Normal false).
Proof.
  apply (@runCommand_rejected nat Session.fresh "version host" (Some 0)).
  right. reflexivity.
Defined.

Lemma data_accumulates_until_prompt_witness :
  forEach Session.onData ["app v0.0.0"; ("  29380" ++ nl)%string] readySession
  = ({| Session.arm :=
          ARM.set_responseData "app v0.0.029380" (Session.arm readySession);
        Session.events := Session.events readySession |}, Normal tt).
Proof.
  apply (@data_accumulates_until_prompt nat readySession
           ["app v0.0.0"; ("  29380" ++ nl)%string]).
  intros k Hk. cbn in Hk.
  destruct k as [|[|k]]; [vm_compute; discriminate | vm_compute; discriminate | lia].
Defined.

Lemma prompt_alone_after_data_witness :
  let w1 := exec (Session.onData ("app v0.0.0  29380" ++ nl)%string)
                 readySession in
  Session.onData "-" w1
  = ({| Session.arm :=
          ARM.set_responseData "app v0.0.0  29380-" (Session.arm w1);
        Session.events := Session.events w1 |}, Normal tt).
Proof.
  apply (@prompt_alone_after_data nat readySession
           ("app v0.0.0  29380" ++ nl)%string "-").
  - vm_compute. discriminate.
  - reflexivity.
Defined.

(* ---------------------------------------------------------------------- *)
(** ** Product details and firmware versions, line by line *)
(* ---------------------------------------------------------------------- *)

Lemma split_without (sep : ascii) (s : string) :
  Lines.contains sep s = false -> Js.split sep s = [s].
Proof.
  induction s as [|c s IH]; [reflexivity|]. cbn.
  destruct (Ascii.eqb c sep); [discriminate|]. cbn. intros H.
  now rewrite (IH H).
Qed.

Lemma split_with (sep : ascii) (s : string) :
  Lines.contains sep s = true ->
  exists a b rest, Js.split sep s = a :: b :: rest.
Proof.
  induction s as [|c s IH]; [discriminate|]. cbn.
  destruct (Ascii.eqb c sep); cbn.
  - intros _. pose proof (split_nonempty sep s) as Hne.
    destruct (Js.split sep s) as [|b rest]; [discriminate Hne|]. eauto.
  - intros H. destruct (IH H) as (a & b & rest & ->). eauto.
Qed.

(** What is before the first separator, then the fragments of the rest. *)
Lemma split_at_first (sep : ascii) (a b : string) :
  Lines.contains sep a = false ->
  Js.split sep (a ++ String sep b) = a :: Js.split sep b.
Proof.
  induction a as [|c a IH]; cbn.
  - now rewrite Ascii.eqb_refl.
  - destruct (Ascii.eqb c sep); [discriminate|]. cbn. intros H.
    now rewrite (IH H).
Qed.

Lemma getProperty_setProperty (key value : string) (obj : JsObject) :
  Product.getProperty key (Product.setProperty key value obj) = Some value.
Proof.
  induction obj as [|[k v] obj IH]; cbn.
  - now rewrite String.eqb_refl.
  - destruct (String.eqb k key) eqn:E; cbn; rewrite E; [reflexivity | exact IH].
Qed.

Lemma getProperty_setProperty_other (key other value : string)
      (obj : JsObject) :
  other <> key ->
  Product.getProperty other (Product.setProperty key value obj)
  = Product.getProperty other obj.
Proof.
  intros Hne. induction obj as [|[k v] obj IH]; cbn.
  - destruct (String.eqb key other) eqn:E; [|reflexivity].
    apply String.eqb_eq in E. now elim Hne.
  - destruct (String.eqb k key) eqn:E; cbn.
    + apply String.eqb_eq in E. subst k.
      destruct (String.eqb key other) eqn:E'; [|reflexivity].
      apply String.eqb_eq in E'. now elim Hne.
    + now rewrite IH.
Qed.

(** One line of npconfig, in full. *)
Lemma productLine_step (line : string) (product : ProductDetails) :
  if Lines.incomplete line
  then Product.productLine line product = (product, Throw TypeError)
  else exists product',
         Product.productLine line product = (product', Normal tt).
Proof.
  unfold Lines.incomplete, Lines.recognised, Lines.label, Product.productLine.
  destruct (Lines.contains Js.colon line) eqn:Hc.
  - rewrite Bool.andb_false_r.
    destruct (@split_with _ _ Hc) as (a & b & rest & ->). cbn.
    destruct (Product.lookup _ _); eexists; reflexivity.
  - rewrite Bool.andb_true_r, (@split_without _ _ Hc). cbn [hd nth_error].
    destruct (Product.lookup _ _); [reflexivity | eexists; reflexivity].
Qed.

Lemma productLines_outcome (data : list string) :
  forall product,
    if existsb Lines.incomplete data
    then exists product',
           forEach Product.productLine data product
           = (product', Throw TypeError)
    else exists product',
           forEach Product.productLine data product = (product', Normal tt).
Proof.
  induction data as [|line data IH]; intros product; cbn [existsb forEach].
  - eexists; reflexivity.
  - pose proof (productLine_step line product) as Hl. unfold bind.
    destruct (Lines.incomplete line); cbn [orb].
    + rewrite Hl. eexists; reflexivity.
    + destruct Hl as (product' & ->). apply IH.
Qed.

(** X10. Which outputs of npconfig the details parser takes: it throws a
    TypeError exactly when some line has no colon and is, trimmed, a key
    of the label table (its own keys or those every object inherits);
    on every other input it returns the details. *)
Theorem npconfigToProductDetails_outcome (data : list string) :
  if existsb Lines.incomplete data
  then Product.npconfigToProductDetails data = Throw TypeError
  else exists product, Product.npconfigToProductDetails data = Normal product.
Proof.
  pose proof (productLines_outcome data []) as H.
  unfold Product.npconfigToProductDetails.
  destruct (existsb Lines.incomplete data); destruct H as (product' & ->);
    [reflexivity | eexists; reflexivity].
Qed.

(** X11. The last line with a label wins, and its value is what stands
    between the first colon and the second, trimmed: a line
    [label:value] after lines that were taken sets the property of the
    label to the text of [value] before its first colon, whatever was
    set before, and no other property changes. *)
Theorem last_line_sets_property (data : list string)
        (product : ProductDetails) (label property value : string) :
  Product.npconfigToProductDetails data = Normal product ->
  Lines.contains Js.colon label = false ->
  Product.lookup Product.productPropertyLookup (Js.trim label)
  = Some property ->
  let kept := Js.trim (hd "" (Js.split Js.colon value)) in
  let product' := Product.setProperty property kept product in
  Product.npconfigToProductDetails (data ++ [(label ++ ":" ++ value)%string])
  = Normal product'
  /\ Product.getProperty property product' = Some kept
  /\ (forall other, other <> property ->
        Product.getProperty other product'
        = Product.getProperty other product).
Proof.
  intros Hdata Hlabel Hlookup kept product'. subst kept product'.
  split; [|split].
  - unfold Product.npconfigToProductDetails in *. rewrite forEach_app.
    unfold bind at 1.
    destruct (forEach Product.productLine data []) as [p [[]|e]];
      [|discriminate Hdata].
    injection Hdata as ->. cbn [forEach]. unfold bind.
    unfold Product.productLine.
    change (label ++ ":" ++ value)%string
      with (label ++ String Js.colon value)%string.
    rewrite split_at_first by exact Hlabel. cbn [hd nth_error].
    rewrite Hlookup.
    pose proof (split_nonempty Js.colon value) as Hne.
    destruct (Js.split Js.colon value) as [|v rest]; [discriminate Hne|].
    reflexivity.
  - apply getProperty_setProperty.
  - intros other Hne. now apply getProperty_setProperty_other.
Qed.

Lemma last_line_sets_property_witness :
  Product.npconfigToProductDetails
    ["Date of Birth: 2022-01-01"; "Date of Birth: 2022-02-03 12:30"]
  = Normal [("dateOfBirth", "2022-02-03 12")].
Proof.
  exact (proj1 (@last_line_sets_property
                  ["Date of Birth: 2022-01-01"]
                  [("dateOfBirth", "2022-01-01")]
                  "Date of Birth" "dateOfBirth" " 2022-02-03 12:30"
                  eq_refl eq_refl eq_refl)).
Defined.

Lemma rev_string_involutive (s : string) :
  Js.rev_string "" (Js.rev_string "" s) = s.
Proof.
  assert (H : forall s acc,
             Js.rev_string "" (Js.rev_string acc s)
             = Js.rev_string s acc).
  { clear s. induction s as [|c s IH]; intros acc; cbn; [reflexivity|].
    now rewrite IH. }
  rewrite H. reflexivity.
Qed.

Lemma solid_rev (s : string) :
  forall acc, Lines.solid s = true -> Lines.solid acc = true ->
              Lines.solid (Js.rev_string acc s) = true.
Proof.
  induction s as [|c s IH]; intros acc Hs Hacc; cbn in *; [exact Hacc|].
  apply Bool.andb_true_iff in Hs as [Hc Hs]. apply IH; [exact Hs|].
  cbn. now rewrite Hc.
Qed.

Lemma trimStart_solid (s : string) :
  Lines.solid s = true -> Js.trimStart s = s.
Proof.
  destruct s as [|c s]; [reflexivity|]. cbn.
  destruct (Js.is_white c); [discriminate | reflexivity].
Qed.

(** Trimming leaves a text without white space as it is. *)
Lemma trim_solid (s : string) : Lines.solid s = true -> Js.trim s = s.
Proof.
  intros H. unfold Js.trim, Js.trimEnd.
  rewrite (trimStart_solid s H).
  rewrite (trimStart_solid (Js.rev_string "" s)) by now apply solid_rev.
  apply rev_string_involutive.
Qed.

Lemma split_ws_solid (w : string) (inRun : bool) :
  Lines.solid w = true -> Js.split_ws_from inRun w = [w].
Proof.
  revert inRun. induction w as [|c w IH]; intros inRun H; [reflexivity|].
  cbn in *. apply Bool.andb_true_iff in H as [Hc Hw].
  apply Bool.negb_true_iff in Hc. rewrite Hc, (IH false Hw). reflexivity.
Qed.

(** Inside a run of white space, more white space opens no fragment. *)
Lemma split_ws_run (gap rest : string) :
  Lines.white gap = true ->
  Js.split_ws_from true (gap ++ rest) = Js.split_ws_from true rest.
Proof.
  induction gap as [|c gap IH]; intros H; [reflexivity|].
  cbn in *. apply Bool.andb_true_iff in H as [Hc Hg]. rewrite Hc. now apply IH.
Qed.

(** A text that starts with a character that is no white space splits
    the same after white space as at the start. *)
Lemma split_ws_after_run (w rest : string) :
  w <> "" -> Lines.solid w = true ->
  Js.split_ws_from true (w ++ rest) = Js.split_ws_from false (w ++ rest).
Proof.
  destruct w as [|c w]; [now intros H|]. intros _ H. cbn in *.
  apply Bool.andb_true_iff in H as [Hc _].
  apply Bool.negb_true_iff in Hc. now rewrite Hc.
Qed.

(** A word, a run of white space, and the rest. *)
Lemma split_ws_word (w gap rest : string) :
  Lines.solid w = true -> Lines.blank gap = true ->
  Js.split_ws_from false (w ++ gap ++ rest)
  = w :: Js.split_ws_from true rest.
Proof.
  intros Hw Hgap. induction w as [|c w IH].
  - destruct gap as [|x gap]; [discriminate Hgap|]. cbn in *.
    apply Bool.andb_true_iff in Hgap as [Hx Hg]. rewrite Hx.
    now rewrite split_ws_run.
  - cbn in *. apply Bool.andb_true_iff in Hw as [Hc Hw].
    apply Bool.negb_true_iff in Hc. rewrite Hc, (IH Hw). reflexivity.
Qed.

Lemma versionLines_return (data : list string) :
  forall versions,
    forEach Product.versionLine data versions
    = (fst (forEach Product.versionLine data versions), Normal tt).
Proof.
  induction data as [|line data IH]; intros versions; [reflexivity|].
  cbn [forEach]. unfold bind, Product.versionLine.
  destruct (Product.lookup _ _); cbn; apply IH.
Qed.

(** X12. A line of the firmware listing [tag version build], its three
    words free of white space and separated by white space of any length,
    with a tag of the table: the property of the tag becomes
    [version.build], whatever the lines before had set. *)
Theorem version_line_sets_property (data : list string)
        (tag property version build gap1 gap2 : string) :
  Product.getProperty tag Product.firwmareVersionLookup = Some property ->
  Lines.solid tag = true ->
  Lines.solid version = true -> version <> "" ->
  Lines.solid build = true ->
  Lines.blank gap1 = true -> Lines.blank gap2 = true ->
  Product.mfgToFirmwareVersions
    (data ++ [(tag ++ gap1 ++ version ++ gap2 ++ build)%string])
  = Product.setProperty property (version ++ "." ++ build)%string
      (Product.mfgToFirmwareVersions data).
Proof.
  intros Htag Hst Hsv Hv Hsb Hg1 Hg2.
  unfold Product.mfgToFirmwareVersions. rewrite forEach_app. unfold bind.
  rewrite versionLines_return. cbn [forEach]. unfold bind.
  unfold Product.versionLine, Js.split_ws.
  rewrite split_ws_word by assumption.
  rewrite split_ws_after_run by assumption.
  rewrite split_ws_word by assumption.
  rewrite split_ws_solid by assumption.
  cbn [hd nth_error]. rewrite trim_solid by assumption.
  unfold Product.lookup. rewrite Htag. reflexivity.
Qed.

Lemma version_line_sets_property_witness :
  Product.mfgToFirmwareVersions
    ["version host"; "bl1 v0.0.0  26441"; "app v0.0.0  29380"]
  = [("bsl1", "v0.0.0.26441"); ("application", "v0.0.0.29380")].
Proof.
  refine (@version_line_sets_property
            ["version host"; "bl1 v0.0.0  26441"]
            "app" "application" "v0.0.0" "29380" " " "  "
            eq_refl eq_refl eq_refl _ eq_refl eq_refl eq_refl).
  discriminate.
Defined.

(* ---------------------------------------------------------------------- *)
(** ** The orchestrator under any input *)
(* ---------------------------------------------------------------------- *)

Section InService.
Import Loop.

Lemma keeps_ret (A : Type) (a : A) : keeps (ret a).
Proof. intros m H. exact H. Qed.

Lemma keeps_throw (A : Type) (e : JsError) : keeps (@throw Machine A e).
Proof. intros m H. exact H. Qed.

Lemma keeps_gets (A : Type) (f : Machine -> A) : keeps (gets f).
Proof. intros m H. exact H. Qed.

Lemma keeps_modify (f : Machine -> Machine) :
  (forall m, currentState (f m) = currentState m) -> keeps (modify f).
Proof.
  intros Hf m H. unfold inService, exec, modify in *. cbn. now rewrite Hf.
Qed.

Lemma keeps_bind (A B : Type) (c : M Machine A) (k : A -> M Machine B) :
  keeps c -> (forall a, keeps (k a)) -> keeps (bind c k).
Proof.
  intros Hc Hk m H. specialize (Hc m H). unfold exec, bind in *.
  destruct (c m) as [m1 [a|e]]; cbn in Hc; [|exact Hc].
  apply (Hk a m1 Hc).
Qed.

Lemma keeps_emit (e : Effect) : keeps (Fsm.emit e).
Proof. apply keeps_modify. intros m. reflexivity. Qed.

Lemma keeps_send channel message : keeps (Fsm.send channel message).
Proof.
  apply keeps_bind; [apply keeps_gets|]. intros [|];
    [apply keeps_emit | apply keeps_ret].
Qed.

Lemma keeps_forEach (A : Type) (f : A -> M Machine unit) (l : list A) :
  (forall a, keeps (f a)) -> keeps (forEach f l).
Proof.
  intros Hf. induction l as [|a l IH]; cbn [forEach]; [apply keeps_ret|].
  apply keeps_bind; [apply Hf | intros _; exact IH].
Qed.

Ltac keeps_step :=
  first [ apply keeps_ret | apply keeps_throw | apply keeps_gets
        | apply keeps_emit | apply keeps_send
        | apply keeps_modify; intros ?; reflexivity
        | apply keeps_bind; [|intros ?]
        | match goal with
          | |- keeps (match ?x with _ => _ end) => destruct x
          end ].

Lemma keeps_runBuffered args cb t :
  keeps (NP.runBuffered npconfig Fsm.update_npconfig Fsm.Handlers.spawn
                        args cb t).
Proof.
  unfold NP.runBuffered, NP.run, Fsm.Handlers.spawn.
  apply keeps_bind; [apply keeps_gets|]. intros np.
  destruct (NP.idle np); [repeat keeps_step|].
  destruct (_ <? _)%nat; repeat keeps_step.
Qed.

Lemma keeps_runStreaming args cb t :
  keeps (NP.runStreaming npconfig Fsm.update_npconfig Fsm.Handlers.spawn
                         args cb t).
Proof.
  unfold NP.runStreaming, NP.run, Fsm.Handlers.spawn.
  apply keeps_bind; [apply keeps_gets|]. intros np.
  destruct (NP.idle np); repeat keeps_step.
Qed.

Lemma keeps_armRunCommand command cb :
  keeps (Fsm.Handlers.armRunCommand command cb).
Proof.
  unfold Fsm.Handlers.armRunCommand, ARM.runCommand.
  apply keeps_bind; [apply keeps_gets|]. intros a.
  destruct (port a); [apply keeps_ret|].
  destruct (device a); [|apply keeps_ret].
  repeat keeps_step.
Qed.

Section Callbacks.
Variable f : AllEvents -> M Machine unit.
Hypothesis Hf : forall event, keeps (f event).

Lemma keeps_callBuffered cb data status :
  keeps (Fsm.Handlers.callBuffered f cb data status).
Proof.
  destruct cb; cbn [Fsm.Handlers.callBuffered].
  - apply keeps_ret.
  - unfold Fsm.Handlers.onDevices, NP.setDefaultDevice, ARM.setDevice,
      Fsm.sendConfig.
    destruct (status =? 0)%Z; [|apply keeps_ret].
    apply keeps_bind; [|intros _; apply keeps_send].
    destruct data; repeat keeps_step.
  - unfold Fsm.Handlers.onDiscovery.
    destruct (status =? 0)%Z; [|apply Hf].
    destruct (Product.npconfigToProductDetails data); [|apply keeps_throw].
    apply keeps_bind; [|intros _; apply Hf].
    apply keeps_modify. intros m. reflexivity.
Qed.

Lemma keeps_callStreaming cb progress status :
  keeps (Fsm.Handlers.callStreaming f cb progress status).
Proof.
  destruct cb; cbn [Fsm.Handlers.callStreaming].
  unfold Fsm.Handlers.onReprogramming, Fsm.sendConfig.
  apply keeps_bind.
  - destruct progress; [|apply keeps_ret].
    destruct (0 <=? _)%Z; [apply keeps_send | apply keeps_ret].
  - intros _. apply keeps_bind; [|intros _; apply keeps_ret].
    destruct status; [apply Hf | apply keeps_ret].
Qed.

Lemma keeps_enterState (t : IPC.States) :
  hasWayIn t = true -> keeps (Fsm.Handlers.enterState f t).
Proof.
  intros Ht. unfold Fsm.Handlers.enterState, Fsm.sendStateChange.
  apply keeps_bind; [apply keeps_gets|]. intros cur.
  destruct (negb _); [|apply keeps_ret].
  apply keeps_bind; [apply keeps_send|]. intros _.
  apply keeps_bind; [apply keeps_gets|]. intros cur'.
  apply keeps_bind; [destruct cur'; [apply Hf | apply keeps_ret]|].
  intros _. apply keeps_bind.
  { intros m _. unfold inService, exec, modify. cbn. exact Ht. }
  intros _. apply keeps_bind; [apply Hf|]. intros _.
  apply keeps_bind; [apply keeps_gets|]. intros [|];
    [apply keeps_emit | apply keeps_ret].
Qed.

Lemma keeps_npDiscover cb : keeps (Fsm.Handlers.npDiscover f cb).
Proof.
  unfold Fsm.Handlers.npDiscover, NP.discover.
  apply keeps_bind; [apply keeps_gets|]. intros [d|].
  - apply keeps_runBuffered.
  - apply keeps_bind; [apply keeps_callBuffered | intros _; apply keeps_ret].
Qed.

Lemma keeps_npReprogApp cb : keeps (Fsm.Handlers.npReprogApp f cb).
Proof.
  unfold Fsm.Handlers.npReprogApp, NP.reprogApp.
  apply keeps_bind; [apply keeps_gets|]. intros [d|].
  - apply keeps_runStreaming.
  - apply keeps_bind; [apply keeps_callStreaming | intros _; apply keeps_ret].
Qed.

Lemma keeps_runHandler (h : StateHandler) (event : AllEvents) :
  keeps (Fsm.Handlers.runHandler f h event).
Proof.
  destruct h; destruct event as [[| |]|[| | | | |]|[| | | | |]];
    cbn [Fsm.Handlers.runHandler];
    try apply keeps_ret;
    try (apply keeps_enterState; reflexivity).
  - unfold Fsm.getPackageIndexFiles, Fsm.doGetFileList. apply keeps_emit.
  - apply keeps_bind; [apply keeps_npDiscover | intros _; apply keeps_ret].
  - unfold Fsm.Handlers.npDevices, NP.devices.
    apply keeps_bind; [apply keeps_runBuffered | intros _; apply keeps_ret].
  - unfold Fsm.Handlers.startTimer. apply keeps_emit.
  - apply keeps_bind; [apply keeps_gets|]. intros [product|];
      [|apply keeps_ret].
    unfold Fsm.sendConfig.
    apply keeps_bind; [apply keeps_send|]. intros _.
    apply keeps_bind; [apply keeps_armRunCommand | intros _; apply keeps_ret].
  - apply keeps_bind; [apply keeps_npReprogApp | intros _; apply keeps_ret].
Qed.

Lemma keeps_dispatch (event : AllEvents) :
  keeps (Fsm.Handlers.dispatch f event).
Proof.
  unfold Fsm.Handlers.dispatch.
  apply keeps_bind; [apply keeps_gets|]. intros cur.
  apply keeps_bind; [apply keeps_emit|]. intros _.
  destruct cur as [state|]; [|apply keeps_ret].
  destruct (Fsm.Handlers.StateTable state); [|apply keeps_ret].
  apply keeps_runHandler.
Qed.
End Callbacks.

Lemma keeps_injectEventN (n : nat) :
  forall event, keeps (Fsm.injectEventN n event).
Proof.
  induction n as [|n IH]; intros event.
  - apply keeps_throw.
  - rewrite injectEventN_S. apply keeps_dispatch. exact IH.
Qed.

Lemma keeps_injectEvent (event : AllEvents) : keeps (Fsm.injectEvent event).
Proof. apply keeps_injectEventN. Qed.

Lemma keeps_react (i : Input) : keeps (react i).
Proof.
  pose proof keeps_injectEvent as Hf.
  destruct i; cbn [react].
  - unfold Fsm.start, Fsm.Handlers.start, Fsm.Handlers.npVersion,
      Fsm.Handlers.npDevices, NP.version, NP.devices.
    apply keeps_bind; [apply keeps_runBuffered|]. intros _.
    apply keeps_bind; [apply keeps_runBuffered|]. intros _.
    apply keeps_enterState; [exact Hf | reflexivity].
  - apply Hf.
  - unfold Fsm.onConfig, Fsm.Handlers.onConfig, NP.selectDevice,
      ARM.setDevice.
    destruct config; repeat keeps_step.
  - apply Hf.
  - unfold Fsm.onStdout, Fsm.Handlers.npOnStdout, NP.onStdout.
    apply keeps_bind; [apply keeps_gets|]. intros np.
    destruct (streamingCallback np).
    + apply keeps_bind; [now apply keeps_callStreaming|].
      intros _. apply keeps_ret.
    + destruct (bufferedCallback np); repeat keeps_step.
  - unfold Fsm.onClose, Fsm.Handlers.npOnClose, NP.onClose.
    apply keeps_bind; [apply keeps_gets|]. intros np.
    apply keeps_bind.
    + destruct (streamingCallback np).
      * apply keeps_bind; [now apply keeps_callStreaming|]. intros _.
        apply keeps_modify. intros m. reflexivity.
      * destruct (bufferedCallback np); [|apply keeps_ret].
        apply keeps_bind; [apply keeps_gets|]. intros data.
        apply keeps_bind; [now apply keeps_callBuffered|]. intros _.
        apply keeps_modify. intros m. reflexivity.
    + intros _. apply keeps_bind; [apply keeps_gets|]. intros [|c q];
        [apply keeps_ret|].
      apply keeps_bind; [apply keeps_modify; intros m; reflexivity|].
      intros _.
      apply keeps_bind; [apply keeps_runBuffered | intros _; apply keeps_ret].
  - unfold Fsm.onData, Fsm.Handlers.armOnData, ARM.onData.
    apply keeps_bind; [apply keeps_modify; intros m; reflexivity|]. intros _.
    apply keeps_bind; [apply keeps_gets|]. intros lines.
    destruct (_ <? _)%nat; [|apply keeps_ret].
    destruct (Js.lastOf lines); [|apply keeps_ret].
    destruct (String.eqb _ _); [|apply keeps_ret].
    apply keeps_bind; [apply keeps_gets|]. intros cb.
    apply keeps_bind.
    { destruct cb as [[]|]; [|apply keeps_ret].
      cbn [Fsm.Handlers.callData]. unfold Fsm.Handlers.onCommandResponse.
      apply keeps_modify. intros m. reflexivity. }
    intros _. repeat keeps_step.
  - unfold Fsm.listObjectsDone, Fsm.Handlers.listObjectsDone.
    assert (Hlist : forall l,
               keeps (Fsm.Handlers.onRepositoryList Fsm.injectEvent l)).
    { intros [[|k keys]|]; cbn [Fsm.Handlers.onRepositoryList];
        try apply Hf.
      unfold Fsm.downloadFiles, Fsm.newBatch.
      apply keeps_bind; [repeat keeps_step|]. intros b.
      apply keeps_forEach. intros element.
      destruct (_ <? _)%nat; [apply keeps_emit | apply keeps_ret]. }
    destruct req as [bucket prefix ext []]. cbn [listCallback listExtension].
    destruct res; cbn [Fsm.Handlers.callList];
      [apply Hlist | apply Hlist | apply keeps_ret].
  - unfold Fsm.getObjectDone, Fsm.Handlers.getObjectDone, Fsm.writeBatch,
      Fsm.readBatch.
    apply keeps_bind.
    { destruct res as [| |[body|]|body]; repeat keeps_step. }
    intros ok.
    apply keeps_bind; [repeat keeps_step|]. intros _.
    apply keeps_bind; [repeat keeps_step|]. intros _.
    destruct (getCallback req). cbn [Fsm.Handlers.callDownload].
    unfold Fsm.Handlers.onRepositoryDownload, Fsm.readBatch.
    apply keeps_bind; [repeat keeps_step|]. intros bt.
    apply keeps_bind; [apply keeps_emit|]. intros _.
    destruct (_ =? _)%Z; [|apply keeps_ret].
    destruct (_ <? _)%Z; apply Hf.
Qed.

Lemma keeps_after (inputs : list Input) :
  forall m, inService m -> inService (after inputs m).
Proof.
  induction inputs as [|i inputs IH]; intros m H; [exact H|].
  apply IH, keeps_react, H.
Qed.

(** X13. Two of the thirteen states have no way in.  Whatever reaches
    the main process after its creation, in whatever order (the call of
    [start], commands and settings of the observer, the timer, output
    and end of the utility, data of the debug port, answers of the
    store), and whichever callbacks throw, the machine is never in
    CheckFailedOffline and never in DetectedCurrent. *)
Theorem two_states_never_entered (ipc hook : bool) (inputs : list Input) :
  let state := currentState (after inputs (Fsm.init ipc hook)) in
  state <> Some IPC.CheckFailedOffline /\ state <> Some IPC.DetectedCurrent.
Proof.
  cbv zeta.
  pose proof (@keeps_after inputs (Fsm.init ipc hook) I) as H.
  unfold inService in H.
  destruct (currentState (after inputs (Fsm.init ipc hook))) as [s|].
  - split; intros Heq; injection Heq as ->; discriminate H.
  - split; discriminate.
Qed.
End InService.

(* ---------------------------------------------------------------------- *)
(** ** The end of a discovery and of a reprogramming *)
(* ---------------------------------------------------------------------- *)

Lemma bind_throws (W A B : Type) (c : M W A) (k : A -> M W B)
      (w w' : W) (e : JsError) :
  c w = (w', Throw e) -> bind c k w = (w', Throw e).
Proof. intros H. unfold bind. now rewrite H. Qed.

Lemma bind_gets (W A B : Type) (g : W -> A) (k : A -> M W B) (w : W) :
  bind (gets g) k w = k (g w) w.
Proof. reflexivity. Qed.

Lemma bind_returns (W A B : Type) (c : M W A) (k : A -> M W B)
      (w w' : W) (a : A) :
  c w = (w', Normal a) -> bind c k w = k a w'.
Proof. intros H. unfold bind. now rewrite H. Qed.

(** X15. The close that throws is lost.  When a discovery ends with
    status 0 after a line that is a label with no colon, [onClose] leaves
    through the exception with the machine exactly as it was: the state
    is kept, no outcome of the discovery is injected, the callback of the
    discovery stays registered and no queued command is started. *)
Theorem close_of_discovery_lost (code : option Z) (m : Machine) :
  Loop.wedges (Loop.Close code) m = true ->
  Fsm.onClose code m = (m, Throw TypeError).
Proof.
  unfold Loop.wedges. destruct code as [c|]; [|discriminate].
  destruct m as [ipc cur [bc sc bd ad q] arm pd fv hook bs tr].
  cbn [npconfig streamingCallback bufferedCallback bufferedData].
  destruct sc; [discriminate|]. destruct bc as [[| |]|]; try discriminate.
  intros H. apply Bool.andb_true_iff in H as [Hc Hex].
  apply Z.eqb_eq in Hc. subst c.
  unfold Fsm.onClose, Fsm.Handlers.npOnClose, NP.onClose.
  rewrite bind_gets. cbn [npconfig streamingCallback bufferedCallback].
  apply bind_throws. rewrite bind_gets. cbn [npconfig bufferedData].
  apply bind_throws. cbn [Fsm.Handlers.callBuffered].
  unfold Fsm.Handlers.onDiscovery, Product.npconfigToProductDetails.
  cbn [Z.eqb].
  pose proof (productLines_outcome bd []) as Hp. rewrite Hex in Hp.
  destruct Hp as (product & ->). reflexivity.
Qed.

Lemma close_of_discovery_lost_witness :
  let m := exec (Fsm.onStdout "Serial Number") detectingMachine in
  Fsm.onClose (Some 0%Z) m = (m, Throw TypeError).
Proof.
  exact (@close_of_discovery_lost (Some 0%Z)
           (exec (Fsm.onStdout "Serial Number") detectingMachine) eq_refl).
Defined.

(* ---------------------------------------------------------------------- *)
(** ** The transitions *)
(* ---------------------------------------------------------------------- *)

Lemma injectEventN_Enter_plain (n : nat) (m : Machine) (t : IPC.States)
      (effects : list Effect) :
  currentState m = Some t -> Table.onEnter t = Some effects ->
  Fsm.injectEventN (S n) Enter m
  = (Fsm.set_trace (trace m ++ [Injected (Some t) Enter] ++ effects) m,
     Normal tt).
Proof.
  intros Hs He. destruct m as [ipc cur np arm pd fv hook bs tr].
  cbn [currentState] in Hs. subst cur. rewrite injectEventN_S.
  destruct t; cbn in He; try discriminate He; injection He as <-;
    cbn;
    unfold Fsm.getPackageIndexFiles, Fsm.doGetFileList,
      Fsm.Handlers.startTimer, Fsm.emit, modify, ret;
    cbn; rewrite <- ?app_assoc; reflexivity.
Qed.

(** Entering a state whose entry does not depend on the gateway. *)
Lemma enterState_plain (n : nat) (m : Machine) (s t : IPC.States)
      (effects : list Effect) :
  currentState m = Some s -> IPC.States_beq s t = false ->
  Table.onEnter t = Some effects ->
  Fsm.Handlers.enterState (Fsm.injectEventN (S n)) t m
  = (Fsm.set_trace
       (trace m
          ++ (if ipcImplementation m
              then [IpcSent IPC.StateChannel (StateMessage t)] else [])
          ++ [Injected (Some s) Exit; Injected (Some t) Enter]
          ++ effects
          ++ (if onStateChange m then [StateChanged t] else []))
       (Fsm.set_currentState (Some t) m), Normal tt).
Proof.
  intros Hs Hne He. destruct m as [ipc cur np arm pd fv hook bs tr].
  cbn [currentState] in Hs. subst cur.
  unfold Fsm.Handlers.enterState. rewrite bind_gets.
  cbn [currentState Fsm.Handlers.isCurrent]. rewrite Hne. cbn [negb].
  unfold bind at 1.
  destruct ipc; cbn -[Fsm.injectEventN].
  - unfold bind at 1. rewrite injectEventN_Exit. cbn -[Fsm.injectEventN].
    unfold bind at 1.
    erewrite injectEventN_Enter_plain by (try reflexivity; exact He).
    destruct hook; unfold logged, Fsm.emit, modify, ret; cbn;
      rewrite <- ?app_assoc; cbn; rewrite <- ?app_assoc, ?app_nil_r;
      reflexivity.
  - unfold bind at 1. rewrite injectEventN_Exit. cbn -[Fsm.injectEventN].
    unfold bind at 1.
    erewrite injectEventN_Enter_plain by (try reflexivity; exact He).
    destruct hook; unfold logged, Fsm.emit, modify, ret; cbn;
      rewrite <- ?app_assoc; cbn; rewrite <- ?app_assoc, ?app_nil_r;
      reflexivity.
Qed.

(** An event the table has a target for, the target entered without the
    gateway. *)
Lemma inject_moves (n : nat) (m : Machine) (s t : IPC.States)
      (event : AllEvents) (effects : list Effect) :
  currentState m = Some s ->
  Table.target s event = Some t ->
  Table.onEnter t = Some effects ->
  Fsm.injectEventN (S (S n)) event m
  = (Table.moved s t event effects m, Normal tt).
Proof.
  intros Hs Ht He.
  assert (Hgo : Fsm.injectEventN (S (S n)) event m
                = Fsm.Handlers.enterState (Fsm.injectEventN (S n)) t
                    (logged event m)).
  { rewrite injectEventN_S. unfold Fsm.Handlers.dispatch.
    rewrite bind_gets, Hs. unfold logged. rewrite Hs.
    destruct s; destruct event as [[| |]|[| | | | |]|[| | | | |]];
      cbn in Ht; try discriminate Ht; injection Ht as <-; reflexivity. }
  rewrite Hgo.
  assert (Hne : IPC.States_beq s t = false).
  { destruct s; destruct event as [[| |]|[| | | | |]|[| | | | |]];
      cbn in Ht; try discriminate Ht; injection Ht as <-; reflexivity. }
  rewrite (@enterState_plain n (logged event m) s t effects)
    by (try assumption; unfold logged; destruct m; exact Hs).
  destruct m as [ipc cur np arm pd fv hook bs tr].
  cbn [currentState] in Hs. subst cur.
  unfold Table.moved, logged. cbn. rewrite <- !app_assoc. reflexivity.
Qed.

(** X16. A command of the observer that the table has a target for: the
    machine moves there in one call, and in this order logs the command,
    sends the new state to the observer, injects Exit in the old state
    and Enter in the new one, makes the calls of the entry (the listing
    for CheckingForUpdate, the timer of 500 ms for DetectedAvailable),
    and calls the state-change hook.  Nothing else of the machine
    changes.  (The targets whose entry asks the gateway are Detecting,
    DetectingManual and Updating.) *)
Theorem command_moves (m : Machine) (s t : IPC.States)
        (command : IPC.Commands) (effects : list Effect) :
  currentState m = Some s ->
  Table.target s command = Some t ->
  Table.onEnter t = Some effects ->
  Fsm.onCommand command m = (Table.moved s t command effects m, Normal tt).
Proof.
  intros Hs Ht He. unfold Fsm.onCommand, Fsm.Handlers.onCommand.
  exact (@inject_moves 6 m s t command effects Hs Ht He).
Qed.

Lemma command_moves_witness :
  Fsm.onCommand IPC.Continue welcomeMachine
  = (Table.moved IPC.Welcome IPC.CheckingForUpdate IPC.Continue
       [ListRequested {| listBucket := "com.naimaudio.firmware";
                         listPrefix := "NonStreamers";
                         listExtension := "xml";
                         listCallback := OnRepositoryList |}]
       welcomeMachine, Normal tt).
Proof.
  exact (@command_moves welcomeMachine IPC.Welcome IPC.CheckingForUpdate
           IPC.Continue _ eq_refl eq_refl eq_refl).
Defined.

(** X17. Everything else is passed over.  An event that the table has no
    target for, and on which the handler of the current state calls
    nothing, changes nothing: the machine is as before but for the log
    line of [injectEvent].  With no current state every event is passed
    over. *)
Theorem other_events_passed_over (m : Machine) (event : AllEvents) :
  (forall s, currentState m = Some s ->
             Table.target s event = None /\ Table.callsOut s event = false) ->
  Fsm.injectEvent event m = (logged event m, Normal tt).
Proof.
  intros H. unfold Fsm.injectEvent, Fsm.levels. rewrite injectEventN_S.
  unfold Fsm.Handlers.dispatch. rewrite bind_gets.
  destruct m as [ipc [s|] np arm pd fv hook bs tr]; [|reflexivity].
  destruct (H s eq_refl) as [Ht Hc].
  destruct s; destruct event as [[| |]|[| | | | |]|[| | | | |]];
    cbn in Ht, Hc; try discriminate Ht; try discriminate Hc; reflexivity.
Qed.

Lemma other_events_passed_over_witness :
  Fsm.injectEvent IPC.Install welcomeMachine
  = (logged IPC.Install welcomeMachine, Normal tt).
Proof.
  apply (@other_events_passed_over welcomeMachine IPC.Install).
  intros s Hs. injection Hs as <-. split; reflexivity.
Defined.

(** The end of [onClose]: the first queued command, if any, is taken
    from the queue and asked for again.  Only the gateway and the trace
    change, and of the gateway neither the streaming callback nor the
    device. *)
Lemma queued_starts (m : Machine) :
  exists np' t,
    (queue <- gets (fun w => commandQueue (npconfig w)) ;;
     match queue with
     | command :: rest =>
         modify (Fsm.update_npconfig (NP.set_commandQueue rest)) ;;
         _ <- NP.runBuffered npconfig Fsm.update_npconfig Fsm.Handlers.spawn
                (parameters command) (handler command)
                NP.defaultCommandTimeoutMs ;;
         ret tt
     | [] => ret tt
     end) m
    = (Fsm.set_trace (trace m ++ t)
         (Fsm.update_npconfig (fun _ => np') m), Normal tt)
    /\ streamingCallback np' = streamingCallback (npconfig m)
    /\ activeDevice np' = activeDevice (npconfig m).
Proof.
  destruct m as [ipc cur [bc sc bd ad q] arm pd fv hook bs tr].
  rewrite bind_gets. cbn [npconfig commandQueue].
  destruct q as [|c q].
  - eexists _, []. cbn. rewrite app_nil_r. repeat split.
  - destruct bc as [cb|], sc as [cb'|], q as [|c1 [|c2 q]];
      try (eexists _, []; split;
           [unfold Fsm.set_trace; cbn [trace Fsm.update_npconfig];
            rewrite app_nil_r; cbv; reflexivity
           | split; reflexivity]);
      (eexists _, [Spawned NP.npconfigPath (parameters c)
                     NP.defaultCommandTimeoutMs];
       split; [cbv; reflexivity | split; reflexivity]).
Qed.

(** [onClose] of a buffered command whose callback returns: the callback
    cleared, then the queue served. *)
Lemma close_buffered_delivered (m m1 : Machine) (code : option Z)
      (cb : BufferedCallback) :
  streamingCallback (npconfig m) = None ->
  bufferedCallback (npconfig m) = Some cb ->
  Fsm.Handlers.callBuffered Fsm.injectEvent cb (bufferedData (npconfig m))
    (match code with None => 1%Z | Some c => c end) m
  = (m1, Normal tt) ->
  exists np' t,
    Fsm.onClose code m
    = (Fsm.set_trace (trace m1 ++ t)
         (Fsm.update_npconfig (fun _ => np') m1), Normal tt)
    /\ streamingCallback np' = streamingCallback (npconfig m1)
    /\ activeDevice np' = activeDevice (npconfig m1).
Proof.
  intros Hsc Hbc Hcall.
  unfold Fsm.onClose, Fsm.Handlers.npOnClose, NP.onClose.
  rewrite bind_gets. cbv beta. rewrite Hsc, Hbc.
  destruct (queued_starts
              (Fsm.update_npconfig (NP.set_bufferedCallback None) m1))
    as (np' & t & Hq & Hsc' & Had').
  exists np', t. split; [|split].
  - erewrite bind_returns; [exact Hq|].
    rewrite bind_gets. erewrite bind_returns by exact Hcall. reflexivity.
  - rewrite Hsc'. destruct m1 as [? ? [] ? ? ? ? ? ?]. reflexivity.
  - rewrite Had'. destruct m1 as [? ? [] ? ? ? ? ? ?]. reflexivity.
Qed.

(** X18. The end of a discovery.  In Detecting, when the process of the
    discovery closes: with an exit code other than 0, or none, the
    machine goes to DetectionFailed and the product details stay as they
    were; with exit code 0 and lines the parser takes it keeps the
    details parsed, goes to DetectedAvailable and starts the timer of
    500 ms.  In both cases the call returns normally. *)
Theorem discovery_ends (m : Machine) (code : option Z) :
  currentState m = Some IPC.Detecting ->
  streamingCallback (npconfig m) = None ->
  bufferedCallback (npconfig m) = Some OnDiscovery ->
  Loop.wedges (Loop.Close code) m = false ->
  let m' := exec (Fsm.onClose code) m in
  outcome (Fsm.onClose code) m = Normal tt
  /\ match code with
     | Some 0%Z =>
         exists product tail,
           Product.npconfigToProductDetails (bufferedData (npconfig m))
           = Normal product
           /\ currentState m' = Some IPC.DetectedAvailable
           /\ productDetails m' = Some product
           /\ trace m'
              = trace (Table.moved IPC.Detecting IPC.DetectedAvailable
                         DiscoverySuccess [TimerStarted 500] m) ++ tail
     | _ =>
         exists tail,
           currentState m' = Some IPC.DetectionFailed
           /\ productDetails m' = productDetails m
           /\ trace m'
              = trace (Table.moved IPC.Detecting IPC.DetectionFailed
                         DiscoveryFailure [] m) ++ tail
     end.
Proof.
  intros Hs Hsc Hbc Hw m'. subst m'.
  assert (Hfail : forall status,
    (status =? 0)%Z = false ->
    status = match code with None => 1%Z | Some c => c end ->
    outcome (Fsm.onClose code) m = Normal tt
    /\ exists tail,
         currentState (exec (Fsm.onClose code) m) = Some IPC.DetectionFailed
         /\ productDetails (exec (Fsm.onClose code) m) = productDetails m
         /\ trace (exec (Fsm.onClose code) m)
            = trace (Table.moved IPC.Detecting IPC.DetectionFailed
                       DiscoveryFailure [] m) ++ tail).
  { intros status Hst Hcode.
    destruct (@close_buffered_delivered m
                (Table.moved IPC.Detecting IPC.DetectionFailed
                   DiscoveryFailure [] m) code OnDiscovery Hsc Hbc)
      as (np' & t & Hrun & _ & _).
    { cbn [Fsm.Handlers.callBuffered]. unfold Fsm.Handlers.onDiscovery.
      rewrite <- Hcode, Hst.
      exact (@inject_moves 6 m IPC.Detecting IPC.DetectionFailed
               DiscoveryFailure [] Hs eq_refl eq_refl). }
    unfold outcome, exec. rewrite Hrun. split; [reflexivity|].
    exists t. destruct m; repeat split. }
  destruct code as [[|p|p]|];
    [|apply (Hfail (Z.pos p)); reflexivity
     |apply (Hfail (Z.neg p)); reflexivity
     |apply (Hfail 1%Z); reflexivity].
  clear Hfail. unfold Loop.wedges in Hw. rewrite Hsc, Hbc in Hw.
  cbn [Z.eqb andb] in Hw.
  pose proof (productLines_outcome (bufferedData (npconfig m)) []) as Hp.
  rewrite Hw in Hp. destruct Hp as (product & Hp).
  assert (Hparse : Product.npconfigToProductDetails (bufferedData (npconfig m))
                   = Normal product).
  { unfold Product.npconfigToProductDetails. now rewrite Hp. }
  destruct (@close_buffered_delivered m
              (Table.moved IPC.Detecting IPC.DetectedAvailable
                 DiscoverySuccess [TimerStarted 500]
                 (Fsm.set_productDetails (Some product) m))
              (Some 0%Z) OnDiscovery Hsc Hbc)
    as (np' & t & Hrun & _ & _).
  { cbn [Fsm.Handlers.callBuffered]. unfold Fsm.Handlers.onDiscovery.
    cbn [Z.eqb]. rewrite Hparse. unfold bind at 1, modify.
    apply (@inject_moves 6 (Fsm.set_productDetails (Some product) m)
             IPC.Detecting IPC.DetectedAvailable);
      [destruct m; exact Hs | reflexivity | reflexivity]. }
  unfold outcome, exec. rewrite Hrun. split; [reflexivity|].
  exists product, t. destruct m; repeat split. exact Hparse.
Qed.

Lemma discovery_ends_witness :
  let m := exec (Fsm.onStdout "Product Type: NSC222") detectingMachine in
  outcome (Fsm.onClose (Some 0%Z)) m = Normal tt
  /\ outcome (Fsm.onClose None) m = Normal tt.
Proof.
  split.
  - exact (proj1 (@discovery_ends
                    (exec (Fsm.onStdout "Product Type: NSC222")
                          detectingMachine)
                    (Some 0%Z) eq_refl eq_refl eq_refl eq_refl)).
  - exact (proj1 (@discovery_ends
                    (exec (Fsm.onStdout "Product Type: NSC222")
                          detectingMachine)
                    None eq_refl eq_refl eq_refl eq_refl)).
Defined.

(** [onClose] of a streaming command whose callback returns. *)
Lemma close_streaming_delivered (m m1 : Machine) (code : option Z)
      (cb : StreamingCallback) (r : bool) :
  streamingCallback (npconfig m) = Some cb ->
  Fsm.Handlers.callStreaming Fsm.injectEvent cb (Some "")
    (Some (match code with None => 1%Z | Some c => c end)) m
  = (m1, Normal r) ->
  exists np' t,
    Fsm.onClose code m
    = (Fsm.set_trace (trace m1 ++ t)
         (Fsm.update_npconfig (fun _ => np') m1), Normal tt)
    /\ streamingCallback np' = None.
Proof.
  intros Hsc Hcall.
  unfold Fsm.onClose, Fsm.Handlers.npOnClose, NP.onClose.
  rewrite bind_gets. cbv beta. rewrite Hsc.
  destruct (queued_starts
              (Fsm.update_npconfig (NP.set_streamingCallback None) m1))
    as (np' & t & Hq & Hsc' & _).
  exists np', t. split.
  - erewrite bind_returns; [exact Hq|].
    erewrite bind_returns by exact Hcall. reflexivity.
  - rewrite Hsc'. destruct m1 as [? ? [] ? ? ? ? ? ?]. reflexivity.
Qed.

(** X19. The end of a reprogramming.  In Updating, when the process of
    the reprogramming closes, the machine goes to UpdateComplete on exit
    code 0 and to UpdateFailed on any other and on none (a process
    killed, as by the timeout); the streaming callback is cleared and the
    call returns normally. *)
Theorem reprogramming_ends (m : Machine) (code : option Z) :
  currentState m = Some IPC.Updating ->
  streamingCallback (npconfig m) = Some OnReprogramming ->
  let m' := exec (Fsm.onClose code) m in
  let event := match code with
               | Some 0%Z => ReprogrammingSuccess
               | _ => ReprogrammingFailure
               end in
  let t := match code with
           | Some 0%Z => IPC.UpdateComplete
           | _ => IPC.UpdateFailed
           end in
  outcome (Fsm.onClose code) m = Normal tt
  /\ currentState m' = Some t
  /\ streamingCallback (npconfig m') = None
  /\ exists tail,
       trace m' = trace (Table.moved IPC.Updating t event [] m) ++ tail.
Proof.
  intros Hs Hsc m' event t. subst m'.
  assert (Hcall :
    Fsm.Handlers.callStreaming Fsm.injectEvent OnReprogramming (Some "")
      (Some (match code with None => 1%Z | Some c => c end)) m
    = (Table.moved IPC.Updating t event [] m, Normal true)).
  { cbn [Fsm.Handlers.callStreaming]. unfold Fsm.Handlers.onReprogramming.
    change (Js.lastIndexOf "" Fsm.progressTag) with (-1)%Z.
    cbn [Z.leb Z.compare]. unfold bind at 1, ret at 1.
    erewrite bind_returns; [reflexivity|].
    subst event t.
    destruct code as [[|p|p]|]; cbv beta iota; cbn [Z.eqb];
      apply (@inject_moves 6 m IPC.Updating); try exact Hs; reflexivity. }
  destruct (@close_streaming_delivered m _ code OnReprogramming true Hsc Hcall)
    as (np' & tail & Hrun & Hnp).
  unfold outcome, exec. rewrite Hrun. split; [reflexivity|].
  destruct m. cbn. repeat split; [exact Hnp | exists tail; reflexivity].
Qed.

Lemma reprogramming_ends_witness :
  currentState (exec (Fsm.onClose None) updatingMachine)
  = Some IPC.UpdateFailed
  /\ currentState (exec (Fsm.onClose (Some 0%Z)) updatingMachine)
     = Some IPC.UpdateComplete.
Proof.
  split.
  - exact (proj1 (proj2 (@reprogramming_ends updatingMachine None
                           eq_refl eq_refl))).
  - exact (proj1 (proj2 (@reprogramming_ends updatingMachine (Some 0%Z)
                           eq_refl eq_refl))).
Defined.

(* ---------------------------------------------------------------------- *)
(** ** Entering Detecting *)
(* ---------------------------------------------------------------------- *)

(** Enter in Detecting with no device: the discovery fails inside the
    call, and the machine has moved on when Enter returns. *)
Lemma enter_detecting_without_device (n : nat) (m : Machine) :
  currentState m = Some IPC.Detecting ->
  activeDevice (npconfig m) = None ->
  Fsm.injectEventN (S (S (S n))) Enter m
  = (Table.moved IPC.Detecting IPC.DetectionFailed DiscoveryFailure []
       (logged Enter m), Normal tt).
Proof.
  intros Hs Hd. rewrite injectEventN_S.
  destruct m as [ipc cur [bc sc bd ad q] arm pd fv hook bs tr].
  cbn [currentState npconfig activeDevice] in Hs, Hd. subst cur ad.
  cbn -[Fsm.injectEventN].
  unfold Fsm.Handlers.npDiscover, NP.discover, Fsm.set_trace.
  unfold bind at 1. rewrite bind_gets. cbn [npconfig activeDevice trace].
  unfold bind at 1. cbn [Fsm.Handlers.callBuffered].
  unfold Fsm.Handlers.onDiscovery. cbn [Z.eqb].
  erewrite inject_moves by reflexivity.
  reflexivity.
Qed.

(** An event the table has a target for asks for the target. *)
Lemma inject_goes (n : nat) (m : Machine) (s t : IPC.States)
      (event : AllEvents) :
  currentState m = Some s ->
  Table.target s event = Some t ->
  Fsm.injectEventN (S n) event m
  = Fsm.Handlers.enterState (Fsm.injectEventN n) t (logged event m)
    /\ IPC.States_beq s t = false.
Proof.
  intros Hs Ht. split.
  - rewrite injectEventN_S. unfold Fsm.Handlers.dispatch.
    rewrite bind_gets, Hs. unfold logged. rewrite Hs.
    destruct s; destruct event as [[| |]|[| | | | |]|[| | | | |]];
      cbn in Ht; try discriminate Ht; injection Ht as <-; reflexivity.
  - destruct s; destruct event as [[| |]|[| | | | |]|[| | | | |]];
      cbn in Ht; try discriminate Ht; injection Ht as <-; reflexivity.
Qed.

(** X20. Detecting with no device.  An event that leads to Detecting
    while the gateway has no active device (none was selected and none
    was listed) leaves the machine in DetectionFailed when it returns:
    the discovery fails inside the entry of Detecting.  The observer is
    sent Detecting, then DetectionFailed; the state-change hook is called
    for DetectionFailed first and for Detecting last, when the machine
    has left it.  The gateway is not asked for anything. *)
Theorem detecting_without_device (m : Machine) (s : IPC.States)
        (event : AllEvents) :
  currentState m = Some s ->
  Table.target s event = Some IPC.Detecting ->
  activeDevice (npconfig m) = None ->
  Fsm.injectEvent event m
  = (Fsm.set_trace
       (trace m
          ++ [Injected (Some s) event]
          ++ (if ipcImplementation m
              then [IpcSent IPC.StateChannel (StateMessage IPC.Detecting)]
              else [])
          ++ [Injected (Some s) Exit; Injected (Some IPC.Detecting) Enter;
              Injected (Some IPC.Detecting) DiscoveryFailure]
          ++ (if ipcImplementation m
              then [IpcSent IPC.StateChannel
                      (StateMessage IPC.DetectionFailed)]
              else [])
          ++ [Injected (Some IPC.Detecting) Exit;
              Injected (Some IPC.DetectionFailed) Enter]
          ++ (if onStateChange m
              then [StateChanged IPC.DetectionFailed;
                    StateChanged IPC.Detecting]
              else []))
       (Fsm.set_currentState (Some IPC.DetectionFailed) m), Normal tt).
Proof.
  intros Hs Ht Hd. unfold Fsm.injectEvent, Fsm.levels.
  destruct (@inject_goes 7 m s IPC.Detecting event Hs Ht) as [Hgo Hne].
  rewrite Hgo. clear Hgo.
  destruct m as [ipc cur [bc sc bd ad q] arm pd fv hook bs tr].
  cbn [currentState npconfig activeDevice] in Hs, Hd. subst cur ad.
  unfold Fsm.Handlers.enterState, logged. rewrite bind_gets.
  cbn [currentState Fsm.Handlers.isCurrent Fsm.set_trace]. rewrite Hne.
  cbn [negb]. unfold bind at 1.
  destruct ipc; cbn -[Fsm.injectEventN];
    unfold bind at 1; rewrite injectEventN_Exit; cbn -[Fsm.injectEventN];
    unfold bind at 1;
    erewrite enter_detecting_without_device by reflexivity;
    destruct hook; unfold Table.moved, logged, Fsm.emit, modify, ret; cbn;
    rewrite <- ?app_assoc; cbn; rewrite <- ?app_assoc; reflexivity.
Qed.

Lemma detecting_without_device_witness :
  currentState (exec (Fsm.injectEvent IPC.Continue) connectMachine)
  = Some IPC.DetectionFailed.
Proof.
  unfold exec.
  rewrite (@detecting_without_device connectMachine IPC.ConnectPrompt
             IPC.Continue eq_refl eq_refl eq_refl).
  reflexivity.
Defined.

(** Enter in Detecting with a device, the gateway busy and its queue
    full: the request is refused and the refusal dropped. *)
Lemma enter_detecting_refused (n : nat) (m : Machine) (device : string) :
  currentState m = Some IPC.Detecting ->
  activeDevice (npconfig m) = Some device ->
  NP.idle (npconfig m) = false ->
  NP.maxCommandQueueLength <= List.length (commandQueue (npconfig m)) ->
  Fsm.injectEventN (S n) Enter m = (logged Enter m, Normal tt).
Proof.
  intros Hs Hd Hidle Hq. rewrite injectEventN_S.
  destruct m as [ipc cur [bc sc bd ad q] arm pd fv hook bs tr].
  cbn [currentState npconfig activeDevice commandQueue] in Hs, Hd, Hq.
  subst cur ad.
  cbn -[Fsm.injectEventN].
  unfold Fsm.Handlers.npDiscover, NP.discover, Fsm.set_trace.
  unfold bind at 1. rewrite bind_gets. cbn [npconfig activeDevice trace].
  unfold NP.runBuffered. rewrite bind_gets. cbn [npconfig].
  cbn [npconfig] in Hidle. rewrite Hidle. cbn [commandQueue].
  replace (List.length q <? NP.maxCommandQueueLength)%nat with false
    by (symmetry; apply Nat.ltb_ge; exact Hq).
  reflexivity.
Qed.

(** X21. A discovery refused is a discovery lost.  When an event leads
    to Detecting while the gateway has a device, is busy and has its
    queue full, the machine enters Detecting as ever, but the gateway
    refuses the discovery and the machine does not look at the answer:
    the gateway is left as it was, nothing is spawned or queued, and no
    timer runs, so that nothing the gateway does later ends the
    discovery. *)
Theorem discovery_refused_is_lost (m : Machine) (s : IPC.States)
        (event : AllEvents) (device : string) :
  currentState m = Some s ->
  Table.target s event = Some IPC.Detecting ->
  activeDevice (npconfig m) = Some device ->
  NP.idle (npconfig m) = false ->
  NP.maxCommandQueueLength <= List.length (commandQueue (npconfig m)) ->
  Fsm.injectEvent event m
  = (Table.moved s IPC.Detecting event [] m, Normal tt).
Proof.
  intros Hs Ht Hd Hidle Hq. unfold Fsm.injectEvent, Fsm.levels.
  destruct (@inject_goes 7 m s IPC.Detecting event Hs Ht) as [Hgo Hne].
  rewrite Hgo. clear Hgo.
  destruct m as [ipc cur np arm pd fv hook bs tr].
  cbn [currentState npconfig] in Hs, Hd, Hidle, Hq. subst cur.
  unfold Fsm.Handlers.enterState, logged. rewrite bind_gets.
  cbn [currentState Fsm.Handlers.isCurrent Fsm.set_trace]. rewrite Hne.
  cbn [negb]. unfold bind at 1.
  destruct ipc; cbn -[Fsm.injectEventN];
    unfold bind at 1; rewrite injectEventN_Exit; cbn -[Fsm.injectEventN];
    unfold bind at 1;
    erewrite enter_detecting_refused by (try eassumption; reflexivity);
    destruct hook; unfold Table.moved, logged, Fsm.emit, modify, ret; cbn;
    rewrite <- ?app_assoc; cbn; rewrite <- ?app_assoc; reflexivity.
Qed.

Lemma discovery_refused_is_lost_witness :
  Fsm.onCommand IPC.Connect crowdedMachine
  = (Table.moved IPC.DetectingManual IPC.Detecting IPC.Connect []
       crowdedMachine, Normal tt).
Proof.
  apply (@discovery_refused_is_lost crowdedMachine IPC.DetectingManual
           IPC.Connect "usb0"); reflexivity.
Defined.

(* ---------------------------------------------------------------------- *)
(** ** The update check, from the listing to its outcome *)
(* ---------------------------------------------------------------------- *)

(** The completions before the last one of a batch leave the state of the
    machine alone. *)
Lemma complete_pending pre : forall (m : Machine) b N k s,
  nth_error (batches m) b
  = Some {| completed := k; count := N; success := s |} ->
  Forall (fun c => batch (fst c) = b) pre ->
  Batch.allWritten pre ->
  (k + Z.of_nat (List.length pre) < N)%Z ->
  exists m',
    Batch.complete pre m = (m', Normal tt)
    /\ nth_error (batches m') b
       = Some {| completed := k + Z.of_nat (List.length pre); count := N;
                 success := s + Batch.successes pre |}
    /\ currentState m' = currentState m.
Proof.
  induction pre as [|c pre IH]; intros m b N k s Hb Hall Hwr Hlt.
  - exists m. cbn. rewrite !Z.add_0_r. repeat split. exact Hb.
  - pose proof (Forall_inv Hall) as Hc. cbv beta in Hc.
    apply Forall_inv_tail in Hall.
    pose proof (Forall_inv Hwr) as Hwc. cbv beta in Hwc.
    apply Forall_inv_tail in Hwr. cbn [List.length] in Hlt.
    rewrite <- Hc in Hb.
    pose proof (@getObjectDone_step m (fst c) (snd c) k N s Hwc Hb) as Hstep.
    cbv zeta in Hstep.
    replace (k + 1 =? N)%Z with false in Hstep
      by (symmetry; apply Z.eqb_neq; lia).
    match type of Hstep with _ = (?x, _) => set (m1 := x) in * end.
    assert (Hb1 : nth_error (batches m1) b
                  = Some {| completed := k + 1; count := N;
                            success := s + bump (Batch.succeeded (snd c)) |}).
    { subst m1. destruct m. cbn [batches Fsm.set_trace Fsm.set_batches].
      rewrite <- Hc. eapply nth_error_replaced. exact Hb. }
    destruct (IH m1 b N (k + 1)%Z _ Hb1 Hall Hwr ltac:(lia))
      as (m' & Hrun & Hb' & Hs').
    exists m'. unfold Batch.complete in *. cbn [forEach].
    erewrite bind_returns by exact Hstep. split; [exact Hrun|].
    split.
    + rewrite Hb', successes_cons. cbn [List.length]. f_equal. f_equal; lia.
    + rewrite Hs'. subst m1. destruct m; reflexivity.
Qed.

(** X22. The update check, from the listing to its outcome.  In
    CheckingForUpdate, a listing with one key or more starts one download
    for each.  When they have all completed, in any order, each with an
    error, no data, no body, or a body that its file takes (no write
    fails), the calls have returned and the machine is in ConnectPrompt
    if one download or more was written to its file, and in
    CheckFailedCached if none was.  A write that fails is another
    matter: its completion throws and is not counted. *)
Theorem update_check_settles (m : Machine) (keys : list string)
        (cs : list (GetRequest * GetResult)) :
  currentState m = Some IPC.CheckingForUpdate ->
  keys <> [] ->
  Permutation (map fst cs)
    (Batch.requestsFor keys Fsm.cacheLocation (List.length (batches m))) ->
  Batch.allWritten cs ->
  let run := Fsm.onRepositoryList (Some keys) ;; Batch.complete cs in
  outcome run m = Normal tt
  /\ currentState (exec run m)
     = Some (if (0 <? Batch.successes cs)%Z
             then IPC.ConnectPrompt else IPC.CheckFailedCached).
Proof.
  intros Hs Hkeys Hperm Hwr run. subst run.
  set (b := List.length (batches m)) in *.
  set (N := Z.of_nat (List.length keys)).
  assert (Hlist : Fsm.onRepositoryList (Some keys) m
                  = Fsm.downloadFiles keys Fsm.cacheLocation
                      OnRepositoryDownload m).
  { destruct keys; [now elim Hkeys | reflexivity]. }
  rewrite downloadFiles_spec in Hlist.
  match type of Hlist with _ = (?x, _) => set (m1 := x) in * end.
  assert (Hs1 : currentState m1 = Some IPC.CheckingForUpdate)
    by (subst m1; destruct m; exact Hs).
  assert (Hb1 : nth_error (batches m1) b
                = Some {| completed := 0; count := N; success := 0 |}).
  { subst m1 b. destruct m as [ipc cur np arm pd fv hook bs tr]. cbn.
    rewrite nth_error_app2, Nat.sub_diag by lia. reflexivity. }
  assert (Hlen : List.length cs = List.length keys).
  { rewrite <- (length_map fst cs), (Permutation_length Hperm).
    unfold Batch.requestsFor. apply length_map. }
  assert (Hall : Forall (fun c => batch (fst c) = b) cs).
  { apply Forall_map with (f := fst) (P := fun r => batch r = b).
    eapply Permutation_Forall; [symmetry; exact Hperm|].
    apply requestsFor_batch. }
  destruct (exists_last (l := cs)) as (pre & c & Hcs).
  { intros ->. destruct keys; [now elim Hkeys | discriminate Hlen]. }
  assert (Hlens : List.length keys = S (List.length pre)).
  { rewrite <- Hlen, Hcs, length_app. cbn. lia. }
  rewrite Hcs in Hall. apply Forall_app in Hall as [Hpre Hrest].
  pose proof (Forall_inv Hrest) as Hc. cbv beta in Hc.
  unfold Batch.allWritten in Hwr. rewrite Hcs in Hwr.
  apply Forall_app in Hwr as [Hwpre Hwrest].
  pose proof (Forall_inv Hwrest) as Hwc. cbv beta in Hwc.
  destruct (@complete_pending pre m1 b N 0%Z 0%Z Hb1 Hpre Hwpre
              ltac:(subst N; lia))
    as (m2 & Hrun2 & Hb2 & Hs2).
  cbn [Z.add] in Hb2. rewrite <- Hc in Hb2.
  pose proof (@getObjectDone_step m2 (fst c) (snd c) _ _ _ Hwc Hb2) as Hstep.
  cbv zeta in Hstep.
  replace (Z.of_nat (List.length pre) + 1 =? N)%Z with true in Hstep
    by (symmetry; apply Z.eqb_eq; subst N; lia).
  match type of Hstep with
  | _ = Fsm.injectEvent _ ?x => set (m3 := x) in *
  end.
  assert (Hs3 : currentState m3 = Some IPC.CheckingForUpdate).
  { subst m3. rewrite <- Hs1, <- Hs2. destruct m2; reflexivity. }
  assert (Hsucc : (Batch.successes pre + bump (Batch.succeeded (snd c))
                   = Batch.successes cs)%Z)
    by (rewrite Hcs, successes_snoc; reflexivity).
  rewrite Hsucc in Hstep. unfold Batch.verdict in Hstep.
  assert (Hrun :
    (Fsm.onRepositoryList (Some keys) ;; Batch.complete cs) m
    = (Table.moved IPC.CheckingForUpdate
         (if (0 <? Batch.successes cs)%Z
          then IPC.ConnectPrompt else IPC.CheckFailedCached)
         (if (0 <? Batch.successes cs)%Z
          then ControlEvent UpdateCheckSuccess
          else ControlEvent UpdateCheckFailure) [] m3, Normal tt)).
  { erewrite bind_returns by exact Hlist.
    rewrite Hcs at 1. rewrite complete_app.
    erewrite bind_returns by exact Hrun2.
    unfold Batch.complete. cbn [forEach].
    erewrite bind_returns with (a := tt); [reflexivity|].
    rewrite Hstep. unfold Fsm.injectEvent, Fsm.levels.
    destruct (0 <? Batch.successes cs)%Z;
      apply (@inject_moves 6 m3 IPC.CheckingForUpdate);
      try exact Hs3; reflexivity. }
  unfold outcome, exec. rewrite Hrun. split; [reflexivity|].
  destruct m3; reflexivity.
Qed.

Lemma update_check_settles_witness :
  currentState
    (exec (Fsm.onRepositoryList (Some twoKeys) ;;
           Batch.complete twoCompletions) checkingMachine)
  = Some IPC.ConnectPrompt.
Proof.
  refine (proj2 (@update_check_settles checkingMachine twoKeys
                   twoCompletions eq_refl _ _ _)).
  - discriminate.
  - apply perm_swap.
  - repeat constructor.
Defined.

Lemma keysWith_source (extension : string) (objects : list (option string)) :
  flat_map (fun key => match key with
                       | Some k => [k]
                       | None => []
                       end)
    (filter (fun key => match key with
                        | Some k => Js.endsWith k extension
                        | None => false
                        end) objects)
  = Listing.keysWith extension objects.
Proof.
  induction objects as [|[k|] objects IH]; cbn; [reflexivity| |exact IH].
  destruct (Js.endsWith k extension); cbn; now rewrite IH.
Qed.

(** X23. What the answer to the listing leads to.  In CheckingForUpdate:
    an error, or an answer with no key ending in the extension asked for
    (no contents at all, or objects without key, or other keys), takes
    the machine to CheckFailedCached; an answer with such keys starts one
    download for each, in the order listed, in one new batch, whether the
    answer is marked as truncated or not; an answer that is neither an
    error nor data changes nothing, and the machine stays in
    CheckingForUpdate. *)
Theorem listing_answered (m : Machine) (req : ListRequest)
        (res : ListResult) :
  currentState m = Some IPC.CheckingForUpdate ->
  let keys := Listing.listed (listExtension req) res in
  Fsm.listObjectsDone req res m
  = match res, keys with
    | ListNothing, _ => (m, Normal tt)
    | _, [] =>
        (Table.moved IPC.CheckingForUpdate IPC.CheckFailedCached
           UpdateCheckFailure [] m, Normal tt)
    | _, _ :: _ =>
        (Fsm.set_trace
           (trace m
              ++ map GetRequested
                   (Batch.requestsFor keys Fsm.cacheLocation
                      (List.length (batches m))))
           (Fsm.set_batches
              (batches m
                 ++ [{| completed := 0;
                        count := Z.of_nat (List.length keys);
                        success := 0 |}]) m), Normal tt)
    end.
Proof.
  intros Hs keys. subst keys.
  assert (Hfail : Fsm.injectEvent UpdateCheckFailure m
                  = (Table.moved IPC.CheckingForUpdate IPC.CheckFailedCached
                       UpdateCheckFailure [] m, Normal tt))
    by (apply (@inject_moves 6 m IPC.CheckingForUpdate);
        try exact Hs; reflexivity).
  destruct req as [bucket prefix ext []].
  unfold Fsm.listObjectsDone, Fsm.Handlers.listObjectsDone.
  cbn [listCallback listExtension Fsm.Handlers.callList].
  destruct res as [|[objects|] truncated|]; cbn [Listing.listed].
  - exact Hfail.
  - rewrite keysWith_source.
    destruct (Listing.keysWith ext objects) as [|k keys] eqn:Hk.
    + exact Hfail.
    + cbn [Fsm.Handlers.onRepositoryList]. apply downloadFiles_spec.
  - exact Hfail.
  - reflexivity.
Qed.

Lemma listing_answered_witness :
  Fsm.listObjectsDone
    {| listBucket := Fsm.bucketName; listPrefix := "NonStreamers";
       listExtension := "xml"; listCallback := OnRepositoryList |}
    (ListData (Some [Some "NonStreamers/"; None;
                     Some "NonStreamers/Release.xml"]) true)
    checkingMachine
  = (Fsm.set_trace
       (trace checkingMachine
          ++ [GetRequested {| objectKey := "NonStreamers/Release.xml";
                              filePath := "./Release.xml";
                              getCallback := OnRepositoryDownload;
                              batch := 0 |}])
       (Fsm.set_batches [{| completed := 0; count := 1; success := 0 |}]
          checkingMachine), Normal tt).
Proof.
  exact (@listing_answered checkingMachine
           {| listBucket := Fsm.bucketName; listPrefix := "NonStreamers";
              listExtension := "xml"; listCallback := OnRepositoryList |}
           (ListData (Some [Some "NonStreamers/"; None;
                            Some "NonStreamers/Release.xml"]) true)
           eq_refl).
Defined.

(* ---------------------------------------------------------------------- *)
(** ** The devices of the two adapters *)
(* ---------------------------------------------------------------------- *)

(** X24. When a listing of the devices ends with status 0 and a device
    or more, the gateway keeps the device it has, if it has one, and
    takes the first listed otherwise; the debug session is set to the
    first listed in either case, also over a device the observer had
    selected.  The state of the machine is not changed. *)
Theorem devices_listed (m : Machine) (first : string) (rest : list string) :
  streamingCallback (npconfig m) = None ->
  bufferedCallback (npconfig m) = Some OnDevices ->
  bufferedData (npconfig m) = first :: rest ->
  let m' := exec (Fsm.onClose (Some 0%Z)) m in
  outcome (Fsm.onClose (Some 0%Z)) m = Normal tt
  /\ activeDevice (npconfig m')
     = Some (match activeDevice (npconfig m) with
             | Some selected => selected
             | None => first
             end)
  /\ device (armMfg m') = Some first
  /\ currentState m' = currentState m.
Proof.
  intros Hsc Hbc Hbd m'. subst m'.
  destruct (@close_buffered_delivered m
              (Fsm.set_trace
                 (trace m
                    ++ (if ipcImplementation m
                        then [IpcSent IPC.ConfigChannel
                                (ConfigMessage IPC.AvailableDevices
                                   (DeviceList (first :: rest)))]
                        else []))
                 (Fsm.update_armMfg (ARM.set_device (Some first))
                    (Fsm.update_npconfig
                       (NP.set_activeDevice
                          (Some (match activeDevice (npconfig m) with
                                 | Some selected => selected
                                 | None => first
                                 end))) m)))
              (Some 0%Z) OnDevices Hsc Hbc)
    as (np' & t & Hrun & _ & Had).
  { rewrite Hbd. destruct m as [ipc cur [bc sc bd [d|] q] arm pd fv hook bs tr];
      destruct ipc; cbn; rewrite ?app_nil_r; reflexivity. }
  unfold outcome, exec. rewrite Hrun. split; [reflexivity|].
  destruct m as [ipc cur [bc sc bd ad q] arm pd fv hook bs tr].
  cbn in Had |- *. rewrite Had. repeat split.
Qed.

Lemma devices_listed_witness :
  let m := exec (Fsm.onConfig IPC.SelectedDevice "usb0" ;;
                 Fsm.start ;;
                 Fsm.onClose (Some 0%Z) ;;
                 Fsm.onStdout ("usb1" ++ nl ++ "usb0" ++ nl)%string)
                (Fsm.init true false) in
  activeDevice (npconfig (exec (Fsm.onClose (Some 0%Z)) m)) = Some "usb0"
  /\ device (armMfg (exec (Fsm.onClose (Some 0%Z)) m)) = Some "usb1".
Proof.
  cbv zeta.
  destruct (@devices_listed
              (exec (Fsm.onConfig IPC.SelectedDevice "usb0" ;;
                     Fsm.start ;;
                     Fsm.onClose (Some 0%Z) ;;
                     Fsm.onStdout ("usb1" ++ nl ++ "usb0" ++ nl)%string)
                    (Fsm.init true false))
              "usb1" ["usb0"] eq_refl eq_refl eq_refl)
    as (_ & Hnp & Harm & _).
  split; [exact Hnp | exact Harm].
Defined.

(* ---------------------------------------------------------------------- *)
(** ** The messages between the two processes *)
(* ---------------------------------------------------------------------- *)

Section DecoderShapes.
Context {W : Type}.
Import Wire.

(** X25. The four decoders, by the form of the data.  Data is a bare
    message (an array of one element that is no array), a message with a
    value, a message with a list, or malformed, and only one of these.
    [parseMessageAsNone] takes the bare messages and nothing else,
    [parseMessageAsUnknown] the messages with a value,
    [parseMessageAsArray] the messages with a list, and
    [parseMessageAsString] the messages whose value is a string; each
    calls its handler once, with the parts of the message, and returns
    true, and returns false without calling it on any other data. *)
Theorem decoders_by_shape (data : JsValue)
        (onNone : JsValue -> M W unit)
        (onString : JsValue -> string -> M W unit)
        (onUnknown : JsValue -> JsValue -> M W unit)
        (onArray : JsValue -> list JsValue -> M W unit) :
  parseMessageAsNone data onNone
  = match shape data with
    | Bare message => onNone message ;; ret true
    | _ => ret false
    end
  /\ parseMessageAsUnknown data onUnknown
     = match shape data with
       | Valued message value => onUnknown message value ;; ret true
       | _ => ret false
       end
  /\ parseMessageAsArray data onArray
     = match shape data with
       | Listing message values => onArray message values ;; ret true
       | _ => ret false
       end
  /\ parseMessageAsString data onString
     = match shape data with
       | Valued message (VString value) => onString message value ;; ret true
       | _ => ret false
       end.
Proof.
  destruct data as [| | | | |items|]; try (repeat split; reflexivity).
  destruct items as [|message [|value [|third items]]];
    try (repeat split; reflexivity).
  - destruct message; repeat split; reflexivity.
  - destruct message; destruct value; repeat split; reflexivity.
Qed.
End DecoderShapes.

(** X26. Every message of the orchestrator reaches the page it is for.
    A state sent with [sendStateChange] is taken by the navigation
    handler, which navigates with the name of the state; the devices sent
    with AvailableDevices are taken by the handler of the manual
    selection page, the product sent with ProductDetails by the handler
    of the page of the update found, and the progress sent with
    ReprogProgress (a number, or NaN) by the handler of the updating
    page; each of the three config handlers leaves the messages of the
    other two alone. *)
Theorem messages_reach_their_page (s : IPC.States) (devices : list string)
        (product : ProductDetails) (percent : option Z)
        (url shown : JsValue) (listed : list JsValue) :
  let state := Wire.encode (StateMessage s) in
  let available :=
    Wire.encode (ConfigMessage IPC.AvailableDevices (DeviceList devices)) in
  let details :=
    Wire.encode (ConfigMessage IPC.ProductDetails (Details product)) in
  let progress :=
    Wire.encode (ConfigMessage IPC.ReprogProgress (Percent percent)) in
  Wire.installNavigateHandler state url
  = (VString (Wire.stateName s), Normal tt)
  /\ Wire.detectedManualPage available listed
     = (map VString devices, Normal tt)
  /\ Wire.detectedAvailablePage details shown
     = (Wire.valueOf (Details product), Normal tt)
  /\ Wire.updatingPage progress shown = (VNumber percent, Normal tt)
  /\ Wire.detectedManualPage details listed = (listed, Normal tt)
  /\ Wire.detectedManualPage progress listed = (listed, Normal tt)
  /\ Wire.detectedAvailablePage available shown = (shown, Normal tt)
  /\ Wire.detectedAvailablePage progress shown = (shown, Normal tt)
  /\ Wire.updatingPage available shown = (shown, Normal tt)
  /\ Wire.updatingPage details shown = (shown, Normal tt).
Proof. cbv zeta. repeat split. Qed.

(** X27. The command channel takes every event.  A bare message with the
    value of an event is injected as that event, for the six commands of
    the observer and as well for the lifecycle events and the outcomes
    the main process reports to itself: the decoder and the cast do not
    tell them apart. *)
Theorem command_channel_takes_every_event (event : AllEvents)
        (m : Machine) :
  Wire.onCommand (VArray [VString (Wire.eventName event)]) m
  = Fsm.injectEvent event m.
Proof.
  unfold Wire.onCommand, Wire.parseMessageAsNone.
  cbn [List.length Nat.eqb Wire.element nth Wire.isArray negb andb].
  assert (Hev : Wire.asEvent (VString (Wire.eventName event)) = Some event)
    by (destruct event as [[| |]|[| | | | |]|[| | | | |]]; reflexivity).
  rewrite Hev. unfold bind, ret.
  destruct (Fsm.injectEvent event m) as [m' [[]|e]]; reflexivity.
Qed.

(** X28. Which data selects a device.  [onConfig] selects a device, for
    the gateway and for the debug session, exactly on a message with the
    value of SelectedDevice and a string; on any other data (another
    config, a value that is no string, a bare message, a longer array)
    it does nothing. *)
Theorem device_selected_by (data : JsValue) (m : Machine) :
  Wire.onConfig data m
  = match Wire.shape data with
    | Wire.Valued (VNumber (Some 1%Z)) (VString device) =>
        Fsm.onConfig IPC.SelectedDevice device m
    | _ => (m, Normal tt)
    end.
Proof.
  unfold Wire.onConfig.
  destruct data as [| | | | |items|]; try reflexivity.
  destruct items as [|message [|value [|third items]]]; try reflexivity.
  - destruct message; reflexivity.
  - destruct message as [| | |[[|p|p]|]| | |]; destruct value;
      try reflexivity;
      try (destruct p as [p|p|]; reflexivity).
Qed.

(* ---------------------------------------------------------------------- *)
(** ** The package index parser *)
(* ---------------------------------------------------------------------- *)

Section PackageParser.
Import Package.

Lemma bind_modify (W B : Type) (f : W -> W) (k : unit -> M W B) (w : W) :
  bind (modify f) k w = k tt (f w).
Proof. reflexivity. Qed.

Lemma bind_ret (W A B : Type) (a : A) (k : A -> M W B) (w : W) :
  bind (ret a) k w = k a w.
Proof. reflexivity. Qed.

Lemma clean_defined (v : JsValue) :
  clean v = true -> isUndefined v = false.
Proof. destruct v; try reflexivity; discriminate. Qed.

Lemma prop_clean (v : JsValue) (key : string) :
  clean v = true -> prop v key = Normal (field v key).
Proof. destruct v; try discriminate; reflexivity. Qed.

Lemma bind_read (v : JsValue) (key : string) (B : Type)
      (k : JsValue -> M Parser B) (w : Parser) :
  clean v = true -> bind (read v key) k w = k (field v key) w.
Proof. intros H. unfold bind, read. now rewrite (@prop_clean v key H). Qed.

(** A property of a clean value is undefined or clean. *)
Lemma field_clean (v : JsValue) (key : string) :
  clean v = true ->
  field v key = VUndefined \/ clean (field v key) = true.
Proof.
  destruct v as [| | | | |items|fields]; try discriminate;
    try (intros _; left; reflexivity).
  cbn [clean]. intros H. unfold field, prop.
  destruct (find (fun kv => String.eqb (fst kv) key) fields) as [kv|] eqn:Hf;
    [|left; reflexivity].
  right. apply find_some in Hf as [Hin _].
  rewrite forallb_forall in H. apply (H kv Hin).
Qed.

(** One entry of the components. *)
Lemma component_pushed (value : JsValue) (p : UpdatePackage)
      (l : list UpdateComponent) :
  clean value = true ->
  component value (Some (set_components (Some l) p))
  = (Some (set_components (Some (l ++ componentsOf [value])) p), Normal tt).
Proof.
  intros Hv. unfold component. rewrite bind_read by exact Hv.
  unfold componentsOf. cbn [flat_map]. rewrite app_nil_r.
  destruct (@field_clean value "$" Hv) as [Hid | Hid].
  - rewrite Hid. cbn [isUndefined negb]. now rewrite app_nil_r.
  - rewrite (@clean_defined _ Hid). cbn [negb].
    rewrite !bind_read by exact Hid.
    unfold attribute.
    destruct (field value "$") eqn:Hf; try discriminate Hid; reflexivity.
Qed.

(** The components pushed, one entry after the other. *)
Lemma components_pushed (values : list JsValue) :
  forall (p : UpdatePackage) (l : list UpdateComponent),
    forallb clean values = true ->
    forEach component values (Some (set_components (Some l) p))
    = (Some (set_components (Some (l ++ componentsOf values)) p), Normal tt).
Proof.
  induction values as [|value values IH]; intros p l H.
  - cbn. now rewrite app_nil_r.
  - cbn [forallb] in H. apply Bool.andb_true_iff in H as [Hv Hvs].
    cbn [forEach].
    erewrite bind_returns by (apply component_pushed; exact Hv).
    rewrite IH by exact Hvs. rewrite <- app_assoc.
    unfold componentsOf. cbn [flat_map]. rewrite app_nil_r. reflexivity.
Qed.

(** X29. The package a clean index stands for.  On data with no null
    and no undefined in it, [parseNonStreamerUpgrade] never throws and
    forgets what the parser held before.  It takes the data exactly when
    [Package] is an array of one element, whatever the element is (a
    text will do, for a package with no name and no components).  The
    package it keeps has the three attributes of the element; of the
    release notes the first only; and, when [Component] is an array, one
    component for each entry that has attributes, in the order of the
    entries, the entries without attributes passed over. *)
Theorem package_of_clean_data (data : JsValue) (old : Parser) :
  clean data = true ->
  parseNonStreamerUpgrade data old
  = match field data "Package" with
    | VArray [info] => (Some (described info), Normal true)
    | _ => (None, Normal false)
    end.
Proof.
  intros Hdata. unfold parseNonStreamerUpgrade.
  rewrite bind_modify, bind_read by exact Hdata.
  destruct (@field_clean data "Package" Hdata) as [Hp | Hp];
    [rewrite Hp; reflexivity|].
  destruct (field data "Package") as [| | | | |items|]; try reflexivity.
  destruct items as [|info [|second items]]; try reflexivity.
  cbn [clean forallb] in Hp. rewrite Bool.andb_true_r in Hp.
  cbn [List.length Nat.eqb Wire.element nth].
  rewrite (@clean_defined _ Hp). cbn [negb].
  unfold bind at 1. rewrite bind_modify, bind_read by exact Hp.
  assert (Hid :
    (if negb (isUndefined (field info "$"))
     then
       n <- read (field info "$") "name" ;;
       assign (set_packageName n) ;;
       d <- read (field info "$") "reldate" ;;
       assign (set_releaseDate d) ;;
       l <- read (field info "$") "location" ;;
       assign (set_packageLocation l)
     else ret tt) (Some empty)
    = (Some {| packageName := attribute info "name";
               releaseDate := attribute info "reldate";
               releaseNotes := VUndefined;
               packageLocation := attribute info "location";
               components := None |}, Normal tt)).
  { unfold attribute.
    destruct (@field_clean info "$" Hp) as [Hid | Hid].
    - rewrite Hid. reflexivity.
    - rewrite (@clean_defined _ Hid). cbn [negb]. unfold assign.
      rewrite bind_read by exact Hid. rewrite bind_modify.
      rewrite bind_read by exact Hid. rewrite bind_modify.
      rewrite bind_read by exact Hid.
      destruct (field info "$"); try discriminate Hid; reflexivity. }
  erewrite bind_returns by exact Hid.
  rewrite bind_read by exact Hp.
  unfold described.
  set (p1 := {| packageName := attribute info "name";
                releaseDate := attribute info "reldate";
                releaseNotes := VUndefined;
                packageLocation := attribute info "location";
                components := None |}).
  set (notes := match field info "ReleaseNotes" with
                | VArray (first :: _) => first
                | _ => VUndefined
                end).
  assert (Hnotes :
    match field info "ReleaseNotes" with
    | VArray (first :: _) => assign (set_releaseNotes first)
    | _ => ret tt
    end (Some p1)
    = (Some (set_releaseNotes notes p1), Normal tt)).
  { subst notes. destruct (field info "ReleaseNotes") as [| | | | |[|first rest]|];
      reflexivity. }
  erewrite bind_returns by exact Hnotes.
  rewrite bind_read by exact Hp.
  destruct (@field_clean info "Component" Hp) as [Hc | Hc].
  - rewrite Hc. reflexivity.
  - destruct (field info "Component") as [| | | | |values|]; try reflexivity.
    cbn [clean] in Hc.
    pose proof (@components_pushed values (set_releaseNotes notes p1) []
                  Hc) as Hpush.
    cbn [app] in Hpush.
    unfold assign at 1. rewrite bind_modify.
    change (option_map (set_components (Some []))
              (Some (set_releaseNotes notes p1)))
      with (Some (set_components (Some []) (set_releaseNotes notes p1))).
    rewrite Hpush. reflexivity.
Qed.

Lemma package_of_clean_data_witness :
  parseNonStreamerUpgrade
    (VObject
       [("Package",
         VArray
           [VObject
              [("$", VObject [("name", VString "Development");
                              ("reldate", VString "2022-09-18")]);
               ("ReleaseNotes", VArray [VString "First"; VString "Second"]);
               ("Component",
                VArray [VObject [("$", VObject [("name", VString "App")])];
                        VString "";
                        VObject [("$", VObject [("name", VString "Zigbee");
                                                ("release", VString "2.0.2.0")])]])]])])
    None
  = (Some {| packageName := VString "Development";
             releaseDate := VString "2022-09-18";
             releaseNotes := VString "First";
             packageLocation := VUndefined;
             components :=
               Some [{| name := VString "App"; version := VUndefined;
                        location := VUndefined |};
                     {| name := VString "Zigbee";
                        version := VString "2.0.2.0";
                        location := VUndefined |}] |}, Normal true).
Proof.
  exact (@package_of_clean_data
           (VObject
              [("Package",
                VArray
                  [VObject
                     [("$", VObject [("name", VString "Development");
                                     ("reldate", VString "2022-09-18")]);
                      ("ReleaseNotes",
                       VArray [VString "First"; VString "Second"]);
                      ("Component",
                       VArray [VObject [("$", VObject [("name", VString "App")])];
                               VString "";
                               VObject [("$", VObject [("name", VString "Zigbee");
                                                       ("release", VString "2.0.2.0")])]])]])])
           None eq_refl).
Defined.

Lemma stays_ret (A : Type) (a : A) : stays (ret a).
Proof. intros w H. exact H. Qed.

Lemma stays_read (v : JsValue) (key : string) : stays (read v key).
Proof. intros w H. exact H. Qed.

Lemma stays_assign (f : UpdatePackage -> UpdatePackage) : stays (assign f).
Proof. intros [p|] H; [discriminate | now elim H]. Qed.

Lemma stays_bind (A B : Type) (c : M Parser A) (k : A -> M Parser B) :
  stays c -> (forall a, stays (k a)) -> stays (bind c k).
Proof.
  intros Hc Hk w H. specialize (Hc w H). unfold exec, bind in *.
  destruct (c w) as [w1 [a|e]]; cbn in Hc; [|exact Hc].
  apply (Hk a w1 Hc).
Qed.

Lemma stays_forEach (A : Type) (f : A -> M Parser unit) (l : list A) :
  (forall a, stays (f a)) -> stays (forEach f l).
Proof.
  intros Hf. induction l as [|a l IH]; cbn [forEach]; [apply stays_ret|].
  apply stays_bind; [apply Hf | intros _; exact IH].
Qed.

Lemma stays_component (value : JsValue) : stays (component value).
Proof.
  unfold component, push.
  apply stays_bind; [apply stays_read|]. intros componentId.
  destruct (negb _); [|apply stays_ret].
  repeat (apply stays_bind; [apply stays_read|]; intros ?).
  apply stays_assign.
Qed.

Ltac stays_step :=
  first [ apply stays_ret | apply stays_read | apply stays_assign
        | apply stays_forEach; intros ?; apply stays_component
        | apply stays_bind; [|intros ?]
        | match goal with
          | |- stays (match ?x with _ => _ end) => destruct x
          end ].

(** X30. A parse that throws leaves a package that counts as valid.
    When [parseNonStreamerUpgrade] throws on data that is neither null
    nor undefined (a null where an element or its attributes are
    expected, or a component that is null or undefined), the parser is
    left holding the package as far as it was filled, and [isValid]
    answers true. *)
Theorem failed_parse_counts_as_valid (data : JsValue) (old : Parser)
        (e : JsError) :
  data <> VNull -> data <> VUndefined ->
  outcome (parseNonStreamerUpgrade data) old = Throw e ->
  outcome isValid (exec (parseNonStreamerUpgrade data) old) = Normal true.
Proof.
  intros Hnull Hundef. unfold outcome, exec.
  destruct (parseNonStreamerUpgrade data old) as [w' r] eqn:Hrun.
  cbn [fst snd]. intros ->.
  assert (Hlive : w' <> None).
  { revert Hrun. unfold parseNonStreamerUpgrade.
    rewrite bind_modify. unfold bind at 1, read at 1.
    destruct (prop data "Package") as [packageArray|e'] eqn:Hprop.
    2:{ destruct data; try discriminate Hprop;
          [now elim Hundef | now elim Hnull]. }
    destruct packageArray as [| | | | |items|]; try discriminate.
    destruct items as [|info [|second items]]; try discriminate.
    cbn [List.length Nat.eqb Wire.element nth].
    destruct (negb (isUndefined info)); [|discriminate].
    unfold bind at 1. rewrite bind_modify.
    match goal with
    | |- match ?body ?w with _ => _ end = _ -> _ =>
        assert (Hstays : stays body) by (repeat stays_step);
        specialize (Hstays w ltac:(discriminate));
        unfold exec in Hstays; destruct (body w) as [w1 [[]|e1]]
    end.
    - discriminate.
    - intros Heq. injection Heq as <- _. exact Hstays. }
  destruct w'; [reflexivity | now elim Hlive].
Qed.

Lemma failed_parse_counts_as_valid_witness :
  outcome isValid
    (exec (parseNonStreamerUpgrade
             (VObject [("Package", VArray [VObject [("$", VNull)]])]))
          None)
  = Normal true.
Proof.
  apply (@failed_parse_counts_as_valid
           (VObject [("Package", VArray [VObject [("$", VNull)]])])
           None TypeError); try discriminate.
  reflexivity.
Defined.
End PackageParser.
